(** * taller-api: work-order lifecycle and quote-approval workflow

    A shallow embedding of the decision logic of the WorkOrder and Quote
    models, of the email service and of the quote controller
    ([src/models/WorkOrder.js], the Quote model, [emailService.js],
    [src/controllers/quoteController.js]).

    Conventions.
    - A Mongoose document is a record; a schema [enum] is an inductive type.
    - A [Date] is a number of milliseconds (as [Z]); [new Date()] reads the
      field [now] of the world, which stands still during one request.
    - Amounts and counters are integers ([Z]). A string is the sequence of
      the UTF-8 bytes of its text; its length, as the validators and
      [String.prototype.length] count it, is the number of UTF-16 code
      units of that text ([js_length]).
    - The audit log and the cache, whose failures the code swallows, and
      the [updatedAt] stamp are left out.
    - A collection is the list of its documents.
    - A thrown JavaScript exception is a value of type [Exn]; an [async]
      method returns the new world, the mutated in-memory document and the
      exception it threw, if any.
    - What the code cannot decide (whether the datastore accepts a write,
      whether the mail transport delivers) is read from schedules stored in
      the world. *)

From Stdlib Require Import List String Ascii ZArith NArith Bool Lia Arith.
From Stdlib Require Import DecimalString.
Import ListNotations.
Open Scope string_scope.
Open Scope Z_scope.

(** ** Scalars *)

Definition ObjectId := N.
Definition Date := Z.

(** The double-quote character used inside template literals. *)
Definition dq : string := String (ascii_of_nat 34) EmptyString.
(** The line feed of [\n]. *)
Definition nl : string := String (ascii_of_nat 10) EmptyString.

(** JavaScript truthiness of a string: the empty string is falsy. *)
Definition truthy (s : string) : bool :=
  match s with EmptyString => false | _ => true end.

(** [s.length]: the number of UTF-16 code units of the text whose UTF-8
    bytes are [s]. A byte below 128 is one unit; a continuation byte
    (128 to 191) adds nothing; the lead byte of a sequence of two or three
    bytes is one unit, and the lead byte of a sequence of four bytes (a
    code point above U+FFFF) is the two units of a surrogate pair. *)
Definition utf16_units (c : ascii) : nat :=
  let b := nat_of_ascii c in
  if Nat.ltb b 128 then 1%nat
  else if Nat.ltb b 192 then 0%nat
  else if Nat.ltb b 240 then 1%nat
  else 2%nat.

Fixpoint js_length (s : string) : nat :=
  match s with
  | EmptyString => 0%nat
  | String c rest => (utf16_units c + js_length rest)%nat
  end.

Definition isSome {A} (o : option A) : bool :=
  match o with Some _ => true | None => false end.

(** [arr.find(p)]: the first element satisfying [p]. *)
Definition js_find {A} (p : A -> bool) (arr : list A) : option A :=
  List.find p arr.

(** ** Exceptions *)

Inductive Exn :=
| Error (message : string)                  (* throw new Error(message) *)
| TypeError (message : string)              (* property access on null *)
| ValidationError (model path message : string)
                                            (* schema validator of [model] *)
| DuplicateKey (field : string)             (* unique index, code 11000 *)
| DocumentNotFound                          (* update of an absent document *)
| StoreFailure.                             (* the datastore rejected the write *)

(** [error.message]. A validation error names the model and the failing
    path (the text Mongoose builds when one path fails, the first one in
    schema order being the one the validators below report). The text of
    an exception raised by the driver is the driver's own and is not
    determined by this code: a fixed tag stands for it. *)
Definition exn_message (e : Exn) : string :=
  match e with
  | Error m => m
  | TypeError m => m
  | ValidationError model p m => model ++ " validation failed: " ++ p ++ ": " ++ m
  | DuplicateKey f => "E11000 duplicate key error: " ++ f
  | DocumentNotFound => "No document found"
  | StoreFailure => "store failure"
  end.

(** ** WorkOrder.js: schemas *)

Inductive Status :=
| pendiente_asignacion | asignada | en_progreso | listo | entregado.

Definition status_name (s : Status) : string :=
  match s with
  | pendiente_asignacion => "pendiente_asignacion"
  | asignada => "asignada"
  | en_progreso => "en_progreso"
  | listo => "listo"
  | entregado => "entregado"
  end.

Definition status_eqb (a b : Status) : bool :=
  match a, b with
  | pendiente_asignacion, pendiente_asignacion
  | asignada, asignada
  | en_progreso, en_progreso
  | listo, listo
  | entregado, entregado => true
  | _, _ => false
  end.

Record VehicleSnapshot := {
  vs_brand : string;
  vs_model : string;
  vs_year : Z;
  vs_licensePlate : string;
  vs_mileage : Z
}.

Record StatusHistoryEntry := {
  previousStatus : Status;
  newStatus : Status;
  changedBy : option ObjectId;
  changedAt : Date;
  notes : string
}.

Inductive NotificationType := n_orden_creada | n_asignada | n_listo | n_entregado.
Inductive NotificationMethod := email.
Inductive NotificationStatus := pendiente | enviado | fallido.

Record Notification := {
  n_type : NotificationType;
  n_method : NotificationMethod;
  n_status : NotificationStatus;
  n_attempts : Z;
  n_sentAt : option Date;
  n_error : option string
}.

Record WorkOrder := {
  wo_id : ObjectId;
  orderNumber : option string;
  quoteId : option ObjectId;
  mechanicId : option ObjectId;
  vehicleSnapshot : option VehicleSnapshot;
  workDescription : string;
  estimatedCost : Z;
  finalCost : option Z;
  status : Status;
  statusHistory : list StatusHistoryEntry;
  estimatedDelivery : option Date;
  actualDelivery : option Date;
  additionalNotes : option string;
  additionalWork : option string;
  notifications : list Notification;
  readyEmailSent : bool;
  readyEmailSentAt : option Date;
  wo_isDeleted : bool;
  wo_deletedAt : option Date;
  wo_deletedBy : option ObjectId;
  wo_createdAt : Date
}.

(** Assignments to the fields the modelled methods write. *)

Definition set_orderNumber (v : option string) (o : WorkOrder) : WorkOrder :=
  {| wo_id := wo_id o; orderNumber := v; quoteId := quoteId o;
     mechanicId := mechanicId o; vehicleSnapshot := vehicleSnapshot o;
     workDescription := workDescription o; estimatedCost := estimatedCost o;
     finalCost := finalCost o; status := status o;
     statusHistory := statusHistory o; estimatedDelivery := estimatedDelivery o;
     actualDelivery := actualDelivery o; additionalNotes := additionalNotes o;
     additionalWork := additionalWork o; notifications := notifications o;
     readyEmailSent := readyEmailSent o; readyEmailSentAt := readyEmailSentAt o;
     wo_isDeleted := wo_isDeleted o; wo_deletedAt := wo_deletedAt o;
     wo_deletedBy := wo_deletedBy o; wo_createdAt := wo_createdAt o |}.

Definition set_mechanicId (v : option ObjectId) (o : WorkOrder) : WorkOrder :=
  {| wo_id := wo_id o; orderNumber := orderNumber o; quoteId := quoteId o;
     mechanicId := v; vehicleSnapshot := vehicleSnapshot o;
     workDescription := workDescription o; estimatedCost := estimatedCost o;
     finalCost := finalCost o; status := status o;
     statusHistory := statusHistory o; estimatedDelivery := estimatedDelivery o;
     actualDelivery := actualDelivery o; additionalNotes := additionalNotes o;
     additionalWork := additionalWork o; notifications := notifications o;
     readyEmailSent := readyEmailSent o; readyEmailSentAt := readyEmailSentAt o;
     wo_isDeleted := wo_isDeleted o; wo_deletedAt := wo_deletedAt o;
     wo_deletedBy := wo_deletedBy o; wo_createdAt := wo_createdAt o |}.

Definition set_status (v : Status) (o : WorkOrder) : WorkOrder :=
  {| wo_id := wo_id o; orderNumber := orderNumber o; quoteId := quoteId o;
     mechanicId := mechanicId o; vehicleSnapshot := vehicleSnapshot o;
     workDescription := workDescription o; estimatedCost := estimatedCost o;
     finalCost := finalCost o; status := v;
     statusHistory := statusHistory o; estimatedDelivery := estimatedDelivery o;
     actualDelivery := actualDelivery o; additionalNotes := additionalNotes o;
     additionalWork := additionalWork o; notifications := notifications o;
     readyEmailSent := readyEmailSent o; readyEmailSentAt := readyEmailSentAt o;
     wo_isDeleted := wo_isDeleted o; wo_deletedAt := wo_deletedAt o;
     wo_deletedBy := wo_deletedBy o; wo_createdAt := wo_createdAt o |}.

Definition set_statusHistory (v : list StatusHistoryEntry) (o : WorkOrder) : WorkOrder :=
  {| wo_id := wo_id o; orderNumber := orderNumber o; quoteId := quoteId o;
     mechanicId := mechanicId o; vehicleSnapshot := vehicleSnapshot o;
     workDescription := workDescription o; estimatedCost := estimatedCost o;
     finalCost := finalCost o; status := status o;
     statusHistory := v; estimatedDelivery := estimatedDelivery o;
     actualDelivery := actualDelivery o; additionalNotes := additionalNotes o;
     additionalWork := additionalWork o; notifications := notifications o;
     readyEmailSent := readyEmailSent o; readyEmailSentAt := readyEmailSentAt o;
     wo_isDeleted := wo_isDeleted o; wo_deletedAt := wo_deletedAt o;
     wo_deletedBy := wo_deletedBy o; wo_createdAt := wo_createdAt o |}.

Definition set_actualDelivery (v : option Date) (o : WorkOrder) : WorkOrder :=
  {| wo_id := wo_id o; orderNumber := orderNumber o; quoteId := quoteId o;
     mechanicId := mechanicId o; vehicleSnapshot := vehicleSnapshot o;
     workDescription := workDescription o; estimatedCost := estimatedCost o;
     finalCost := finalCost o; status := status o;
     statusHistory := statusHistory o; estimatedDelivery := estimatedDelivery o;
     actualDelivery := v; additionalNotes := additionalNotes o;
     additionalWork := additionalWork o; notifications := notifications o;
     readyEmailSent := readyEmailSent o; readyEmailSentAt := readyEmailSentAt o;
     wo_isDeleted := wo_isDeleted o; wo_deletedAt := wo_deletedAt o;
     wo_deletedBy := wo_deletedBy o; wo_createdAt := wo_createdAt o |}.

Definition set_notifications (v : list Notification) (o : WorkOrder) : WorkOrder :=
  {| wo_id := wo_id o; orderNumber := orderNumber o; quoteId := quoteId o;
     mechanicId := mechanicId o; vehicleSnapshot := vehicleSnapshot o;
     workDescription := workDescription o; estimatedCost := estimatedCost o;
     finalCost := finalCost o; status := status o;
     statusHistory := statusHistory o; estimatedDelivery := estimatedDelivery o;
     actualDelivery := actualDelivery o; additionalNotes := additionalNotes o;
     additionalWork := additionalWork o; notifications := v;
     readyEmailSent := readyEmailSent o; readyEmailSentAt := readyEmailSentAt o;
     wo_isDeleted := wo_isDeleted o; wo_deletedAt := wo_deletedAt o;
     wo_deletedBy := wo_deletedBy o; wo_createdAt := wo_createdAt o |}.

Definition set_readyEmailSent (v : bool) (o : WorkOrder) : WorkOrder :=
  {| wo_id := wo_id o; orderNumber := orderNumber o; quoteId := quoteId o;
     mechanicId := mechanicId o; vehicleSnapshot := vehicleSnapshot o;
     workDescription := workDescription o; estimatedCost := estimatedCost o;
     finalCost := finalCost o; status := status o;
     statusHistory := statusHistory o; estimatedDelivery := estimatedDelivery o;
     actualDelivery := actualDelivery o; additionalNotes := additionalNotes o;
     additionalWork := additionalWork o; notifications := notifications o;
     readyEmailSent := v; readyEmailSentAt := readyEmailSentAt o;
     wo_isDeleted := wo_isDeleted o; wo_deletedAt := wo_deletedAt o;
     wo_deletedBy := wo_deletedBy o; wo_createdAt := wo_createdAt o |}.

Definition set_readyEmailSentAt (v : option Date) (o : WorkOrder) : WorkOrder :=
  {| wo_id := wo_id o; orderNumber := orderNumber o; quoteId := quoteId o;
     mechanicId := mechanicId o; vehicleSnapshot := vehicleSnapshot o;
     workDescription := workDescription o; estimatedCost := estimatedCost o;
     finalCost := finalCost o; status := status o;
     statusHistory := statusHistory o; estimatedDelivery := estimatedDelivery o;
     actualDelivery := actualDelivery o; additionalNotes := additionalNotes o;
     additionalWork := additionalWork o; notifications := notifications o;
     readyEmailSent := readyEmailSent o; readyEmailSentAt := v;
     wo_isDeleted := wo_isDeleted o; wo_deletedAt := wo_deletedAt o;
     wo_deletedBy := wo_deletedBy o; wo_createdAt := wo_createdAt o |}.

(** ** WorkOrder.js: validateStatusTransition *)

Inductive Validation :=
| Valid                       (* { valid: true } *)
| Invalid (error : string).   (* { valid: false, error } *)

Definition isValid (v : Validation) : bool :=
  match v with Valid => true | Invalid _ => false end.

(** The object literal [transitions]; every status of the schema enum is
    one of its keys, so the fallback [|| []] of the source is never taken.
    Both callers pass a status of the enum: the route checks the body with
    [isIn], and the assignment passes the literal ['asignada']. *)
Definition transitions (s : Status) : list Status :=
  match s with
  | pendiente_asignacion => [asignada]
  | asignada => [en_progreso; pendiente_asignacion]
  | en_progreso => [listo; asignada]
  | listo => [entregado; en_progreso]
  | entregado => []
  end.

(** [arr.includes(x)] on statuses. *)
Definition includes (arr : list Status) (x : Status) : bool :=
  existsb (status_eqb x) arr.

Definition msg_no_transition (from to : Status) : string :=
  "No se puede cambiar de " ++ dq ++ status_name from ++ dq
    ++ " a " ++ dq ++ status_name to ++ dq.

Definition msg_no_mechanic : string :=
  "Debe asignar un mecánico antes de iniciar el trabajo".

Definition validateStatusTransition (this : WorkOrder) (newStatus : Status)
  : Validation :=
  let validTransitions := transitions (status this) in
  if negb (includes validTransitions newStatus) then
    Invalid (msg_no_transition (status this) newStatus)
  else if status_eqb newStatus en_progreso && negb (isSome (mechanicId this)) then
    Invalid msg_no_mechanic
  else Valid.

(** ** Quote.js: schemas *)

Record Vehicle := {
  brand : string;
  model : string;
  year : Z;
  licensePlate : string;
  mileage : Z
}.

Inductive TokenType := approve | reject.

Record ApprovalToken := {
  token : string;
  type : TokenType;
  used : bool;
  usedAt : option Date;
  ipAddress : option string;
  userAgent : option string
}.

Inductive QuoteStatus := pending | approved | rejected.

Definition quoteStatus_eqb (a b : QuoteStatus) : bool :=
  match a, b with
  | pending, pending | approved, approved | rejected, rejected => true
  | _, _ => false
  end.

Record Quote := {
  q_id : ObjectId;
  quoteNumber : option string;
  clientId : option ObjectId;
  vehicle : option Vehicle;
  description : string;
  proposedWork : string;
  q_estimatedCost : Z;
  validUntil : Date;
  q_status : QuoteStatus;
  approvalTokens : list ApprovalToken;
  emailSent : bool;
  emailSentAt : option Date;
  emailAttempts : Z;
  workOrderId : option ObjectId;
  q_notes : option string;
  q_isDeleted : bool;
  q_deletedAt : option Date;
  q_deletedBy : option ObjectId;
  q_createdAt : Date
}.

Definition set_quoteNumber (v : option string) (q : Quote) : Quote :=
  {| q_id := q_id q; quoteNumber := v; clientId := clientId q;
     vehicle := vehicle q; description := description q;
     proposedWork := proposedWork q; q_estimatedCost := q_estimatedCost q;
     validUntil := validUntil q; q_status := q_status q;
     approvalTokens := approvalTokens q; emailSent := emailSent q;
     emailSentAt := emailSentAt q; emailAttempts := emailAttempts q;
     workOrderId := workOrderId q; q_notes := q_notes q;
     q_isDeleted := q_isDeleted q; q_deletedAt := q_deletedAt q;
     q_deletedBy := q_deletedBy q; q_createdAt := q_createdAt q |}.

Definition set_q_status (v : QuoteStatus) (q : Quote) : Quote :=
  {| q_id := q_id q; quoteNumber := quoteNumber q; clientId := clientId q;
     vehicle := vehicle q; description := description q;
     proposedWork := proposedWork q; q_estimatedCost := q_estimatedCost q;
     validUntil := validUntil q; q_status := v;
     approvalTokens := approvalTokens q; emailSent := emailSent q;
     emailSentAt := emailSentAt q; emailAttempts := emailAttempts q;
     workOrderId := workOrderId q; q_notes := q_notes q;
     q_isDeleted := q_isDeleted q; q_deletedAt := q_deletedAt q;
     q_deletedBy := q_deletedBy q; q_createdAt := q_createdAt q |}.

Definition set_approvalTokens (v : list ApprovalToken) (q : Quote) : Quote :=
  {| q_id := q_id q; quoteNumber := quoteNumber q; clientId := clientId q;
     vehicle := vehicle q; description := description q;
     proposedWork := proposedWork q; q_estimatedCost := q_estimatedCost q;
     validUntil := validUntil q; q_status := q_status q;
     approvalTokens := v; emailSent := emailSent q;
     emailSentAt := emailSentAt q; emailAttempts := emailAttempts q;
     workOrderId := workOrderId q; q_notes := q_notes q;
     q_isDeleted := q_isDeleted q; q_deletedAt := q_deletedAt q;
     q_deletedBy := q_deletedBy q; q_createdAt := q_createdAt q |}.

Definition set_workOrderId (v : option ObjectId) (q : Quote) : Quote :=
  {| q_id := q_id q; quoteNumber := quoteNumber q; clientId := clientId q;
     vehicle := vehicle q; description := description q;
     proposedWork := proposedWork q; q_estimatedCost := q_estimatedCost q;
     validUntil := validUntil q; q_status := q_status q;
     approvalTokens := approvalTokens q; emailSent := emailSent q;
     emailSentAt := emailSentAt q; emailAttempts := emailAttempts q;
     workOrderId := v; q_notes := q_notes q;
     q_isDeleted := q_isDeleted q; q_deletedAt := q_deletedAt q;
     q_deletedBy := q_deletedBy q; q_createdAt := q_createdAt q |}.

(** ** Client.js: the fields the notification reads *)

Record Client := {
  c_id : ObjectId;
  c_email : string
}.

(** ** The world: collections, clock and environment schedules *)

Record World := {
  quotes : list Quote;
  orders : list WorkOrder;
  clients : list Client;
  now : Date;                       (* value of new Date() *)
  nextId : ObjectId;                (* next ObjectId the driver generates *)
  faults : list bool;               (* per datastore write: true = rejected *)
  transport : nat -> option string; (* n-th sendMail: None = delivered,
                                       Some e = throws Error(e) *)
  mailCalls : nat;                  (* sendMail calls made so far *)
  maxRetries : Z;                   (* EmailService.maxRetries *)
  maxYear : Z                       (* getFullYear() + 1 at schema load *)
}.

Definition set_quotes (v : list Quote) (w : World) : World :=
  {| quotes := v; orders := orders w; clients := clients w; now := now w;
     nextId := nextId w; faults := faults w; transport := transport w;
     mailCalls := mailCalls w; maxRetries := maxRetries w; maxYear := maxYear w |}.

Definition set_orders (v : list WorkOrder) (w : World) : World :=
  {| quotes := quotes w; orders := v; clients := clients w; now := now w;
     nextId := nextId w; faults := faults w; transport := transport w;
     mailCalls := mailCalls w; maxRetries := maxRetries w; maxYear := maxYear w |}.

Definition set_nextId (v : ObjectId) (w : World) : World :=
  {| quotes := quotes w; orders := orders w; clients := clients w; now := now w;
     nextId := v; faults := faults w; transport := transport w;
     mailCalls := mailCalls w; maxRetries := maxRetries w; maxYear := maxYear w |}.

Definition set_faults (v : list bool) (w : World) : World :=
  {| quotes := quotes w; orders := orders w; clients := clients w; now := now w;
     nextId := nextId w; faults := v; transport := transport w;
     mailCalls := mailCalls w; maxRetries := maxRetries w; maxYear := maxYear w |}.

Definition set_mailCalls (v : nat) (w : World) : World :=
  {| quotes := quotes w; orders := orders w; clients := clients w; now := now w;
     nextId := nextId w; faults := faults w; transport := transport w;
     mailCalls := v; maxRetries := maxRetries w; maxYear := maxYear w |}.

(** *** Persistence layer

    [findById], the write of [save()] and the unique indexes declared by
    the schemas. A write first asks the fault schedule whether the
    datastore accepts it. *)

Definition findQuoteById (w : World) (id : ObjectId) : option Quote :=
  List.find (fun q => N.eqb (q_id q) id) (quotes w).

Definition findOrderById (w : World) (id : ObjectId) : option WorkOrder :=
  List.find (fun o => N.eqb (wo_id o) id) (orders w).

Definition findClientById (w : World) (id : ObjectId) : option Client :=
  List.find (fun c => N.eqb (c_id c) id) (clients w).

Definition takeFault (w : World) : bool * World :=
  match faults w with
  | [] => (false, w)
  | b :: rest => (b, set_faults rest w)
  end.

Definition opt_eqb {A} (eqb : A -> A -> bool) (a b : option A) : bool :=
  match a, b with
  | Some x, Some y => eqb x y
  | None, None => true
  | _, _ => false
  end.

(** Unique indexes of workOrderSchema: [orderNumber] and [quoteId]. *)
Definition orderIndexConflict (doc : WorkOrder) (others : list WorkOrder)
  : option Exn :=
  if existsb (fun o => opt_eqb String.eqb (orderNumber o) (orderNumber doc)) others
  then Some (DuplicateKey "orderNumber")
  else if existsb (fun o => opt_eqb N.eqb (quoteId o) (quoteId doc)) others
  then Some (DuplicateKey "quoteId")
  else None.

Definition otherOrders (doc : WorkOrder) (l : list WorkOrder) : list WorkOrder :=
  filter (fun o => negb (N.eqb (wo_id o) (wo_id doc))) l.

Fixpoint replaceOrder (doc : WorkOrder) (l : list WorkOrder) : list WorkOrder :=
  match l with
  | [] => []
  | o :: rest =>
      if N.eqb (wo_id o) (wo_id doc) then doc :: rest
      else o :: replaceOrder doc rest
  end.

(** The write of [save()]: an insert for a new document, an update of the
    stored document with the same [_id] otherwise. *)
Definition writeOrder (isNew : bool) (w : World) (doc : WorkOrder)
  : World * option Exn :=
  let (fault, w1) := takeFault w in
  if fault then (w1, Some StoreFailure)
  else if isNew then
    if isSome (findOrderById w1 (wo_id doc)) then (w1, Some (DuplicateKey "_id"))
    else match orderIndexConflict doc (orders w1) with
         | Some e => (w1, Some e)
         | None => (set_orders (orders w1 ++ [doc]) w1, None)
         end
  else
    if negb (isSome (findOrderById w1 (wo_id doc))) then (w1, Some DocumentNotFound)
    else match orderIndexConflict doc (otherOrders doc (orders w1)) with
         | Some e => (w1, Some e)
         | None => (set_orders (replaceOrder doc (orders w1)) w1, None)
         end.

(** Unique index of quoteSchema: [quoteNumber]. *)
Definition quoteIndexConflict (doc : Quote) (others : list Quote) : option Exn :=
  if existsb (fun q => opt_eqb String.eqb (quoteNumber q) (quoteNumber doc)) others
  then Some (DuplicateKey "quoteNumber")
  else None.

Definition otherQuotes (doc : Quote) (l : list Quote) : list Quote :=
  filter (fun q => negb (N.eqb (q_id q) (q_id doc))) l.

Fixpoint replaceQuote (doc : Quote) (l : list Quote) : list Quote :=
  match l with
  | [] => []
  | q :: rest =>
      if N.eqb (q_id q) (q_id doc) then doc :: rest
      else q :: replaceQuote doc rest
  end.

Definition writeQuote (w : World) (doc : Quote) : World * option Exn :=
  let (fault, w1) := takeFault w in
  if fault then (w1, Some StoreFailure)
  else if negb (isSome (findQuoteById w1 (q_id doc))) then (w1, Some DocumentNotFound)
  else match quoteIndexConflict doc (otherQuotes doc (quotes w1)) with
       | Some e => (w1, Some e)
       | None => (set_quotes (replaceQuote doc (quotes w1)) w1, None)
       end.

(** *** Schema validators run by [save()]

    The first failing path is reported. A [required] string path rejects
    the empty string. *)

(** [maxlength: n] and [minlength: n], on the JavaScript length. *)
Definition exceeds (s : string) (n : nat) : bool := Nat.ltb n (js_length s).

Definition shorter (s : string) (n : nat) : bool := Nat.ltb (js_length s) n.

Definition opt_exceeds (s : option string) (n : nat) : bool :=
  match s with Some x => exceeds x n | None => false end.

(** The path of a field of the [i]-th element of an array of
    subdocuments, as in [statusHistory.0.notes]. *)
Definition elementPath (array : string) (i : nat) (field : string) : string :=
  array ++ "." ++ NilEmpty.string_of_uint (Nat.to_uint i) ++ "." ++ field.

(** The validators of the [i]-th history entry. *)
Definition validateHistoryEntry (i : nat) (h : StatusHistoryEntry) : option Exn :=
  if negb (isSome (changedBy h)) then
    Some (ValidationError "WorkOrder" (elementPath "statusHistory" i "changedBy")
            "Path `changedBy` is required.")
  else if exceeds (notes h) 500 then
    Some (ValidationError "WorkOrder" (elementPath "statusHistory" i "notes")
            "Notas no pueden exceder 500 caracteres")
  else None.

(** The first error among the elements of an array, the first element
    having index [i]. *)
Fixpoint firstError {A} (f : nat -> A -> option Exn) (i : nat) (l : list A)
  : option Exn :=
  match l with
  | [] => None
  | x :: rest =>
      match f i x with Some e => Some e | None => firstError f (S i) rest end
  end.

Definition validateSnapshot (v : VehicleSnapshot) : option Exn :=
  if negb (truthy (vs_brand v)) then
    Some (ValidationError "WorkOrder" "vehicleSnapshot.brand" "Path `brand` is required.")
  else if negb (truthy (vs_model v)) then
    Some (ValidationError "WorkOrder" "vehicleSnapshot.model" "Path `model` is required.")
  else if negb (truthy (vs_licensePlate v)) then
    Some (ValidationError "WorkOrder" "vehicleSnapshot.licensePlate" "Path `licensePlate` is required.")
  else None.

Definition validateOrder (doc : WorkOrder) : option Exn :=
  if negb (isSome (quoteId doc)) then
    Some (ValidationError "WorkOrder" "quoteId" "Presupuesto es obligatorio")
  else match vehicleSnapshot doc with
  | None => Some (ValidationError "WorkOrder" "vehicleSnapshot" "Datos del vehículo son obligatorios")
  | Some v =>
    match validateSnapshot v with
    | Some e => Some e
    | None =>
      if negb (truthy (workDescription doc)) then
        Some (ValidationError "WorkOrder" "workDescription" "Descripción del trabajo es obligatoria")
      else if estimatedCost doc <? 0 then
        Some (ValidationError "WorkOrder" "estimatedCost" "Costo estimado no puede ser negativo")
      else if match finalCost doc with Some c => c <? 0 | None => false end then
        Some (ValidationError "WorkOrder" "finalCost" "Costo final no puede ser negativo")
      else if opt_exceeds (additionalNotes doc) 2000 then
        Some (ValidationError "WorkOrder" "additionalNotes"
                "Notas adicionales no pueden exceder 2000 caracteres")
      else if opt_exceeds (additionalWork doc) 2000 then
        Some (ValidationError "WorkOrder" "additionalWork"
                "Trabajos adicionales no pueden exceder 2000 caracteres")
      else firstError validateHistoryEntry 0 (statusHistory doc)
    end
  end.

Definition validateVehicle (maxY : Z) (v : Vehicle) : option Exn :=
  if negb (truthy (brand v)) then
    Some (ValidationError "Quote" "vehicle.brand" "Marca es obligatoria")
  else if exceeds (brand v) 100 then
    Some (ValidationError "Quote" "vehicle.brand" "Marca no puede exceder 100 caracteres")
  else if negb (truthy (model v)) then
    Some (ValidationError "Quote" "vehicle.model" "Modelo es obligatorio")
  else if exceeds (model v) 100 then
    Some (ValidationError "Quote" "vehicle.model" "Modelo no puede exceder 100 caracteres")
  else if year v <? 1950 then
    Some (ValidationError "Quote" "vehicle.year" "Año debe ser mayor a 1950")
  else if maxY <? year v then
    Some (ValidationError "Quote" "vehicle.year" "Año no puede ser mayor al próximo año")
  else if negb (truthy (licensePlate v)) then
    Some (ValidationError "Quote" "vehicle.licensePlate" "Patente es obligatoria")
  else if exceeds (licensePlate v) 20 then
    Some (ValidationError "Quote" "vehicle.licensePlate" "Patente no puede exceder 20 caracteres")
  else if mileage v <? 0 then
    Some (ValidationError "Quote" "vehicle.mileage" "Kilometraje no puede ser negativo")
  else None.

Definition validateTokenEntry (i : nat) (t : ApprovalToken) : option Exn :=
  if negb (truthy (token t)) then
    Some (ValidationError "Quote" (elementPath "approvalTokens" i "token")
            "Path `token` is required.")
  else None.

Definition validateQuote (maxY : Z) (doc : Quote) : option Exn :=
  if negb (isSome (clientId doc)) then
    Some (ValidationError "Quote" "clientId" "Cliente es obligatorio")
  else match vehicle doc with
  | None => Some (ValidationError "Quote" "vehicle" "Datos del vehículo son obligatorios")
  | Some v =>
    match validateVehicle maxY v with
    | Some e => Some e
    | None =>
      if negb (truthy (description doc)) then
        Some (ValidationError "Quote" "description" "Descripción es obligatoria")
      else if shorter (description doc) 20 then
        Some (ValidationError "Quote" "description"
                "Descripción debe tener al menos 20 caracteres")
      else if exceeds (description doc) 2000 then
        Some (ValidationError "Quote" "description"
                "Descripción no puede exceder 2000 caracteres")
      else if negb (truthy (proposedWork doc)) then
        Some (ValidationError "Quote" "proposedWork" "Trabajo propuesto es obligatorio")
      else if shorter (proposedWork doc) 20 then
        Some (ValidationError "Quote" "proposedWork"
                "Trabajo propuesto debe tener al menos 20 caracteres")
      else if exceeds (proposedWork doc) 2000 then
        Some (ValidationError "Quote" "proposedWork"
                "Trabajo propuesto no puede exceder 2000 caracteres")
      else if q_estimatedCost doc <? 0 then
        Some (ValidationError "Quote" "estimatedCost" "Costo debe ser mayor o igual a 0")
      else if opt_exceeds (q_notes doc) 1000 then
        Some (ValidationError "Quote" "notes" "Notas no pueden exceder 1000 caracteres")
      else firstError validateTokenEntry 0 (approvalTokens doc)
    end
  end.

(** *** pre('save') hooks: sequential display numbers *)

(** [String(n).padStart(4, '0')] *)
Fixpoint zeros (n : nat) : string :=
  match n with O => "" | S k => "0" ++ zeros k end.

Definition padStart4 (s : string) : string :=
  zeros (4 - String.length s) ++ s.

Definition decimal (n : nat) : string :=
  NilEmpty.string_of_uint (Nat.to_uint n).

Definition preSaveOrder (w : World) (this : WorkOrder) : WorkOrder :=
  if negb (match orderNumber this with Some s => truthy s | None => false end) then
    let count := List.length (orders w) in
    set_orderNumber (Some ("ORD-" ++ padStart4 (decimal (count + 1)))) this
  else this.

Definition preSaveQuote (w : World) (this : Quote) : Quote :=
  if negb (match quoteNumber this with Some s => truthy s | None => false end) then
    let count := List.length (quotes w) in
    set_quoteNumber (Some ("PRES-" ++ padStart4 (decimal (count + 1)))) this
  else this.

(** ** emailService.js *)

Record SendResult := {
  success : bool;
  send_error : option string
}.

Definition tickMail (w : World) : World := set_mailCalls (S (mailCalls w)) w.

(** [sendWithRetry(mailOptions, attempt)]. The argument [retriesLeft]
    stands for [maxRetries - 1 - attempt], so the test
    [attempt < this.maxRetries - 1] is [retriesLeft > 0]; the delays
    between attempts are not modelled. *)
Fixpoint sendWithRetry (retriesLeft : nat) (w : World) : World * SendResult :=
  match transport w (mailCalls w) with
  | None => (tickMail w, {| success := true; send_error := None |})
  | Some e =>
      match retriesLeft with
      | S r => sendWithRetry r (tickMail w)
      | O => (tickMail w, {| success := false; send_error := Some e |})
      end
  end.

Definition msg_no_email : string := "Cliente sin email válido".

Definition sendReadyNotification (w : World) (order : WorkOrder)
  : World * (Exn + SendResult) :=
  match match quoteId order with Some i => findQuoteById w i | None => None end with
  | None => (w, inl (TypeError "Cannot read properties of null (reading 'clientId')"))
  | Some quote =>
      let client :=
        match clientId quote with Some i => findClientById w i | None => None end in
      match client with
      | None => (w, inl (Error msg_no_email))
      | Some c =>
          if negb (truthy (c_email c)) then (w, inl (Error msg_no_email))
          else
            let (w1, result) := sendWithRetry (Z.to_nat (maxRetries w - 1)) w in
            (w1, inr result)
      end
  end.

(** ** WorkOrder.js: save, the post('save') hook and changeStatus *)

(** Outcome of an [async] method on a document: the world, the in-memory
    document and the exception thrown, if any. *)
Definition Outcome (D : Type) : Type := (World * D * option Exn)%type.

Definition push {A} (l : list A) (x : A) : list A := l ++ [x].

Definition sentNotification (t : Date) : Notification :=
  {| n_type := n_listo; n_method := email; n_status := enviado;
     n_attempts := 1; n_sentAt := Some t; n_error := None |}.

Definition failedNotification (message : string) : Notification :=
  {| n_type := n_listo; n_method := email; n_status := fallido;
     n_attempts := 1; n_sentAt := None; n_error := Some message |}.

(** The [catch (error)] block of the hook. *)
Definition readyHookCatch (save : World -> WorkOrder -> option (Outcome WorkOrder))
    (w : World) (doc : WorkOrder) (error : Exn) : option (Outcome WorkOrder) :=
  let doc1 :=
    set_notifications (push (notifications doc) (failedNotification (exn_message error))) doc in
  save w doc1.

(** The post('save') hook; [save] is [doc.save()]. *)
Definition postSaveOrder (save : World -> WorkOrder -> option (Outcome WorkOrder))
    (w : World) (doc : WorkOrder) : option (Outcome WorkOrder) :=
  if status_eqb (status doc) listo && negb (readyEmailSent doc) then
    match sendReadyNotification w doc with
    | (w1, inr _) =>
        let doc1 := set_readyEmailSent true doc in
        let doc2 := set_readyEmailSentAt (Some (now w1)) doc1 in
        let doc3 :=
          set_notifications (push (notifications doc2) (sentNotification (now w1))) doc2 in
        match save w1 doc3 with
        | None => None
        | Some (w2, doc4, None) => Some (w2, doc4, None)
        | Some (w2, doc4, Some error) => readyHookCatch save w2 doc4 error
        end
    | (w1, inl error) => readyHookCatch save w1 doc error
    end
  else Some (w, doc, None).

(** [doc.save()]: validation, pre('save') hook, write, post('save') hook.
    The hook saves the document again; that nested save is taken to run
    like any other (validation, write, hooks), so the hook may run again:
    [fuel] bounds the nesting, and [None] means the bound was reached. *)
Fixpoint saveOrder (fuel : nat) (isNew : bool) (w : World) (this : WorkOrder)
  : option (Outcome WorkOrder) :=
  match fuel with
  | O => None
  | S fuel' =>
      match validateOrder this with
      | Some e => Some (w, this, Some e)
      | None =>
          let this1 := preSaveOrder w this in
          match writeOrder isNew w this1 with
          | (w1, Some e) => Some (w1, this1, Some e)
          | (w1, None) => postSaveOrder (saveOrder fuel' false) w1 this1
          end
      end
  end.

Definition historyEntry (previous new : Status) (by_ : option ObjectId)
    (at_ : Date) (notes_ : string) : StatusHistoryEntry :=
  {| previousStatus := previous; newStatus := new; changedBy := by_;
     changedAt := at_; notes := notes_ |}.

(** [changeStatus(newStatus, changedBy, notes = '')] *)
Definition changeStatus (fuel : nat) (w : World) (this : WorkOrder)
    (newStatus : Status) (changedBy : option ObjectId) (notes : option string)
  : option (Outcome WorkOrder) :=
  let notes := match notes with Some s => s | None => "" end in
  match validateStatusTransition this newStatus with
  | Invalid error => Some (w, this, Some (Error error))
  | Valid =>
      let previousStatus := status this in
      let this1 := set_status newStatus this in
      let this2 :=
        set_statusHistory
          (push (statusHistory this1)
                (historyEntry previousStatus newStatus changedBy (now w) notes))
          this1 in
      let this3 :=
        if status_eqb newStatus entregado
        then set_actualDelivery (Some (now w)) this2 else this2 in
      saveOrder fuel false w this3
  end.

(** [WorkOrder.create(fields)]: a new document with the schema defaults,
    a fresh [_id] and the creation timestamp, then [save()]. *)
Definition castSnapshot (v : Vehicle) : VehicleSnapshot :=
  {| vs_brand := brand v; vs_model := model v; vs_year := year v;
     vs_licensePlate := licensePlate v; vs_mileage := mileage v |}.

Definition newWorkOrder (w : World) (quoteId_ : option ObjectId)
    (snapshot : option VehicleSnapshot) (workDescription_ : string)
    (estimatedCost_ : Z) (status_ : Status) : WorkOrder :=
  {| wo_id := nextId w; orderNumber := None; quoteId := quoteId_;
     mechanicId := None; vehicleSnapshot := snapshot;
     workDescription := workDescription_; estimatedCost := estimatedCost_;
     finalCost := None; status := status_; statusHistory := [];
     estimatedDelivery := None; actualDelivery := None;
     additionalNotes := None; additionalWork := None; notifications := [];
     readyEmailSent := false; readyEmailSentAt := None;
     wo_isDeleted := false; wo_deletedAt := None; wo_deletedBy := None;
     wo_createdAt := now w |}.

Definition createWorkOrder (fuel : nat) (w : World) (quoteId_ : option ObjectId)
    (snapshot : option VehicleSnapshot) (workDescription_ : string)
    (estimatedCost_ : Z) (status_ : Status) : option (Outcome WorkOrder) :=
  let doc := newWorkOrder w quoteId_ snapshot workDescription_ estimatedCost_ status_ in
  saveOrder fuel true (set_nextId (N.succ (nextId w)) w) doc.

(** ** Quote.js: token protocol

    (In this source tree the text of the Quote model follows the Mechanic
    model in [src/models/Mechanic.js].) *)

Inductive TokenValidation :=
| TokenInvalid (error : string)                          (* { valid: false, error } *)
| TokenValid (type_ : TokenType) (tokenObj : ApprovalToken). (* { valid: true, type, tokenObj } *)

Definition msg_invalid_token : string := "Token inválido".
Definition msg_token_used : string := "Token ya fue utilizado".
Definition msg_expired : string := "Token expirado".
Definition msg_already_processed : string := "Presupuesto ya fue procesado".

Definition hasToken (tok : string) (t : ApprovalToken) : bool :=
  String.eqb (token t) tok.

Definition validateToken (w : World) (this : Quote) (tok : string)
  : TokenValidation :=
  match js_find (hasToken tok) (approvalTokens this) with
  | None => TokenInvalid msg_invalid_token
  | Some tokenObj =>
      if used tokenObj then TokenInvalid msg_token_used
      else if validUntil this <? now w then TokenInvalid msg_expired
      else if negb (quoteStatus_eqb (q_status this) pending) then
        TokenInvalid msg_already_processed
      else TokenValid (type tokenObj) tokenObj
  end.

(** The assignments to [tokenObj], the first entry holding the string. *)
Definition redeem (t : ApprovalToken) (at_ : Date) (ip ua : option string)
  : ApprovalToken :=
  {| token := token t; type := type t; used := true; usedAt := Some at_;
     ipAddress := ip; userAgent := ua |}.

Fixpoint redeemFirst (tok : string) (at_ : Date) (ip ua : option string)
    (l : list ApprovalToken) : list ApprovalToken :=
  match l with
  | [] => []
  | t :: rest =>
      if hasToken tok t then redeem t at_ ip ua :: rest
      else t :: redeemFirst tok at_ ip ua rest
  end.

(** The body of the [forEach]: every entry with another string is burnt. *)
Definition invalidateOther (tok : string) (at_ : Date) (t : ApprovalToken)
  : ApprovalToken :=
  if negb (hasToken tok t) then
    {| token := token t; type := type t; used := true; usedAt := Some at_;
       ipAddress := ipAddress t; userAgent := userAgent t |}
  else t.

(** [quote.save()] *)
Definition saveQuote (w : World) (this : Quote) : Outcome Quote :=
  match validateQuote (maxYear w) this with
  | Some e => (w, this, Some e)
  | None =>
      let this1 := preSaveQuote w this in
      match writeQuote w this1 with
      | (w1, Some e) => (w1, this1, Some e)
      | (w1, None) => (w1, this1, None)
      end
  end.

Definition useToken (w : World) (this : Quote) (tok : string)
    (ip ua : option string) : Outcome Quote :=
  match js_find (hasToken tok) (approvalTokens this) with
  | Some _ =>
      let tokens1 := redeemFirst tok (now w) ip ua (approvalTokens this) in
      let tokens2 := map (invalidateOther tok (now w)) tokens1 in
      saveQuote w (set_approvalTokens tokens2 this)
  | None => (w, this, None)
  end.

(** [generateTokens()], given the two strings drawn by [uuidv4()]. *)
Definition freshToken (s : string) (ty : TokenType) : ApprovalToken :=
  {| token := s; type := ty; used := false; usedAt := None;
     ipAddress := None; userAgent := None |}.

Definition generateTokens (this : Quote) (approveToken rejectToken : string)
  : Quote :=
  set_approvalTokens [freshToken approveToken approve; freshToken rejectToken reject] this.

(** ** quoteController.js *)

Inductive Response :=
| Page (statusCode : Z) (heading : string)           (* res.status(c).send(html) *)
| ApprovedPage (quote : Quote) (order : WorkOrder)   (* the approved page *)
| RejectedPage (quote : Quote)                       (* the rejected page *)
| JsonError (statusCode : Z) (code message : string) (* res.status(c).json(error) *)
| JsonApproved (quote : Quote) (order : WorkOrder)   (* { success, data: { quote, order } } *)
| JsonRejected (quote : Quote)                       (* { success, data: { quote } } *)
| Unhandled (e : Exn).                               (* rejection handed to next(err) *)

Definition workDescriptionOf (quote : Quote) : string :=
  description quote ++ nl ++ nl ++ "Trabajo propuesto:" ++ nl ++ proposedWork quote.

(** GET /api/quotes/:id/approve?token=xxx *)
Definition approveQuote (fuel : nat) (w : World) (id : ObjectId)
    (tok : option string) (ip ua : option string) : option (World * Response) :=
  match tok with
  | None => Some (w, Page 400 "Token de aprobación no proporcionado")
  | Some tok =>
    if negb (truthy tok) then Some (w, Page 400 "Token de aprobación no proporcionado")
    else
    match findQuoteById w id with
    | None => Some (w, Page 404 "Presupuesto no encontrado")
    | Some quote =>
        let client :=          (* populate('clientId') *)
          match clientId quote with Some i => findClientById w i | None => None end in
        match validateToken w quote tok with
        | TokenInvalid error => Some (w, Page 400 error)
        | TokenValid _ _ =>
          (* await quote.useToken(token, req.ip, req.get('user-agent')) *)
          match useToken w quote tok ip ua with
          | (w1, _, Some e) => Some (w1, Unhandled e)
          | (w1, quote1, None) =>
            (* quote.status = 'approved'; await quote.save() *)
            match saveQuote w1 (set_q_status approved quote1) with
            | (w2, _, Some e) => Some (w2, Unhandled e)
            | (w2, quote2, None) =>
              (* const order = await WorkOrder.create({ ... }) *)
              match createWorkOrder fuel w2 (Some (q_id quote2))
                      (option_map castSnapshot (vehicle quote2))
                      (workDescriptionOf quote2) (q_estimatedCost quote2)
                      pendiente_asignacion with
              | None => None
              | Some (w3, _, Some e) => Some (w3, Unhandled e)
              | Some (w3, order, None) =>
                (* quote.workOrderId = order._id; await quote.save() *)
                match saveQuote w3 (set_workOrderId (Some (wo_id order)) quote2) with
                | (w4, _, Some e) => Some (w4, Unhandled e)
                | (w4, quote3, None) =>
                    Some (w4,
                          match client with
                          | Some _ => ApprovedPage quote3 order
                          | None =>   (* quote.clientId._id in the log metadata *)
                              Unhandled
                                (TypeError "Cannot read properties of null (reading '_id')")
                          end)
                end
              end
            end
          end
        end
    end
  end.

(** GET /api/quotes/:id/reject?token=xxx *)
Definition rejectQuote (w : World) (id : ObjectId)
    (tok : option string) (ip ua : option string) : World * Response :=
  match tok with
  | None => (w, Page 400 "Token de rechazo no proporcionado")
  | Some tok =>
    if negb (truthy tok) then (w, Page 400 "Token de rechazo no proporcionado")
    else
    match findQuoteById w id with
    | None => (w, Page 404 "Presupuesto no encontrado")
    | Some quote =>
        let client :=
          match clientId quote with Some i => findClientById w i | None => None end in
        match validateToken w quote tok with
        | TokenInvalid error => (w, Page 400 error)
        | TokenValid _ _ =>
            match useToken w quote tok ip ua with
            | (w1, _, Some e) => (w1, Unhandled e)
            | (w1, quote1, None) =>
                match saveQuote w1 (set_q_status rejected quote1) with
                | (w2, _, Some e) => (w2, Unhandled e)
                | (w2, quote2, None) =>
                    match client with
                    | Some _ => (w2, RejectedPage quote2)
                    | None =>
                        (w2, Unhandled
                               (TypeError "Cannot read properties of null (reading '_id')"))
                    end
                end
            end
        end
    end
  end.

(** PUT /api/quotes/:id/approve *)
Definition approveQuoteManual (fuel : nat) (w : World) (id : ObjectId)
  : option (World * Response) :=
  match findQuoteById w id with
  | None => Some (w, JsonError 404 "QUOTE_NOT_FOUND" "Presupuesto no encontrado")
  | Some quote =>
      if negb (quoteStatus_eqb (q_status quote) pending) then
        Some (w, JsonError 400 "QUOTE_ALREADY_PROCESSED" "El presupuesto ya fue procesado")
      else
        (* quote.status = 'approved'; await quote.save() *)
        match saveQuote w (set_q_status approved quote) with
        | (w1, _, Some e) => Some (w1, Unhandled e)
        | (w1, quote1, None) =>
          (* const order = await WorkOrder.create({ ... }) *)
          match createWorkOrder fuel w1 (Some (q_id quote1))
                  (option_map castSnapshot (vehicle quote1))
                  (workDescriptionOf quote1) (q_estimatedCost quote1)
                  pendiente_asignacion with
          | None => None
          | Some (w2, _, Some e) => Some (w2, Unhandled e)
          | Some (w2, order, None) =>
            (* quote.workOrderId = order._id; await quote.save() *)
            match saveQuote w2 (set_workOrderId (Some (wo_id order)) quote1) with
            | (w3, _, Some e) => Some (w3, Unhandled e)
            | (w3, quote2, None) => Some (w3, JsonApproved quote2 order)
            end
          end
        end
  end.

(** PUT /api/quotes/:id/reject *)
Definition rejectQuoteManual (w : World) (id : ObjectId) : World * Response :=
  match findQuoteById w id with
  | None => (w, JsonError 404 "QUOTE_NOT_FOUND" "Presupuesto no encontrado")
  | Some quote =>
      if negb (quoteStatus_eqb (q_status quote) pending) then
        (w, JsonError 400 "QUOTE_ALREADY_PROCESSED" "El presupuesto ya fue procesado")
      else
        match saveQuote w (set_q_status rejected quote) with
        | (w1, _, Some e) => (w1, Unhandled e)
        | (w1, quote1, None) => (w1, JsonRejected quote1)
        end
  end.

(** ** Quote.js: the toJSON transform

    [ret] is the plain object Mongoose builds from the document; an object
    is the list of its properties in insertion order. *)

#[local] Unset Elimination Schemes.
Inductive JSON :=
| JUndefined
| JNull
| JBool (b : bool)
| JNum (n : Z)
| JStr (s : string)
| JId (i : ObjectId)
| JDate (d : Date)
| JArr (items : list JSON)
| JObj (fields : list (string * JSON)).
#[local] Set Elimination Schemes.

Definition Obj := list (string * JSON).

(** [o[k]] *)
Fixpoint js_get (k : string) (o : Obj) : JSON :=
  match o with
  | [] => JUndefined
  | (k', v) :: rest => if String.eqb k' k then v else js_get k rest
  end.

(** [o[k] = v] *)
Fixpoint js_set (k : string) (v : JSON) (o : Obj) : Obj :=
  match o with
  | [] => [(k, v)]
  | (k', v') :: rest =>
      if String.eqb k' k then (k, v) :: rest else (k', v') :: js_set k v rest
  end.

(** [delete o[k]] *)
Definition js_delete (k : string) (o : Obj) : Obj :=
  filter (fun kv => negb (String.eqb (fst kv) k)) o.

Definition js_truthy (v : JSON) : bool :=
  match v with
  | JUndefined | JNull => false
  | JBool b => b
  | JNum n => negb (n =? 0)
  | JStr s => truthy s
  | JId _ | JDate _ | JArr _ | JObj _ => true
  end.

(** [v.k]: a property read throws on [undefined] and [null] ([None]) and
    gives [undefined] on the other values without properties. *)
Definition prop (v : JSON) (k : string) : option JSON :=
  match v with
  | JUndefined | JNull => None
  | JObj o => Some (js_get k o)
  | _ => Some JUndefined
  end.

(** [t => ({ type: t.type, used: t.used, usedAt: t.usedAt })] *)
Definition tokenView (t : JSON) : option JSON :=
  match prop t "type", prop t "used", prop t "usedAt" with
  | Some ty, Some u, Some at_ => Some (JObj [("type", ty); ("used", u); ("usedAt", at_)])
  | _, _, _ => None
  end.

(** [arr.map(f)] for an [f] that may throw. *)
Fixpoint js_map (f : JSON -> option JSON) (arr : list JSON) : option (list JSON) :=
  match arr with
  | [] => Some []
  | x :: rest =>
      match f x, js_map f rest with
      | Some y, Some ys => Some (y :: ys)
      | _, _ => None
      end
  end.

(** The [transform] of [quoteSchema.set('toJSON', ...)]; [None] is a
    thrown TypeError. *)
Definition toJSON_transform (ret : Obj) : option Obj :=
  let ret1 :=
    if js_truthy (js_get "approvalTokens" ret) then
      match js_get "approvalTokens" ret with
      | JArr ts =>
          match js_map tokenView ts with
          | Some views => Some (js_set "approvalTokens" (JArr views) ret)
          | None => None
          end
      | _ => None     (* .map is not a function *)
      end
    else Some ret in
  match ret1 with
  | None => None
  | Some ret2 =>
      if negb (js_truthy (js_get "isDeleted" ret2)) then
        Some (js_delete "deletedBy" (js_delete "deletedAt" ret2))
      else Some ret2
  end.

(** The plain object of a quote document: one property per schema path
    that has a value (an unset optional path is absent; [deletedAt] and
    [deletedBy] default to [null]). *)
Definition optField {A} (k : string) (f : A -> JSON) (v : option A) : Obj :=
  match v with Some x => [(k, f x)] | None => [] end.

Definition nullable {A} (f : A -> JSON) (v : option A) : JSON :=
  match v with Some x => f x | None => JNull end.

Definition tokenType_name (t : TokenType) : string :=
  match t with approve => "approve" | reject => "reject" end.

Definition quoteStatus_name (s : QuoteStatus) : string :=
  match s with pending => "pending" | approved => "approved" | rejected => "rejected" end.

Definition vehicleObject (v : Vehicle) : JSON :=
  JObj [("brand", JStr (brand v)); ("model", JStr (model v)); ("year", JNum (year v));
        ("licensePlate", JStr (licensePlate v)); ("mileage", JNum (mileage v))].

Definition tokenObject (t : ApprovalToken) : JSON :=
  JObj ([("token", JStr (token t)); ("type", JStr (tokenType_name (type t)));
         ("used", JBool (used t))]
        ++ optField "usedAt" JDate (usedAt t)
        ++ optField "ipAddress" JStr (ipAddress t)
        ++ optField "userAgent" JStr (userAgent t))%list.

Definition quoteToObject (q : Quote) : Obj :=
  ([("_id", JId (q_id q))]
   ++ optField "quoteNumber" JStr (quoteNumber q)
   ++ optField "clientId" JId (clientId q)
   ++ optField "vehicle" vehicleObject (vehicle q)
   ++ [("description", JStr (description q));
       ("proposedWork", JStr (proposedWork q));
       ("estimatedCost", JNum (q_estimatedCost q));
       ("validUntil", JDate (validUntil q));
       ("status", JStr (quoteStatus_name (q_status q)));
       ("approvalTokens", JArr (map tokenObject (approvalTokens q)));
       ("emailSent", JBool (emailSent q))]
   ++ optField "emailSentAt" JDate (emailSentAt q)
   ++ [("emailAttempts", JNum (emailAttempts q))]
   ++ optField "workOrderId" JId (workOrderId q)
   ++ optField "notes" JStr (q_notes q)
   ++ [("isDeleted", JBool (q_isDeleted q));
       ("deletedAt", nullable JDate (q_deletedAt q));
       ("deletedBy", nullable JId (q_deletedBy q));
       ("createdAt", JDate (q_createdAt q))])%list.

(** [quote.toJSON()] *)
Definition quoteToJSON (q : Quote) : option Obj :=
  toJSON_transform (quoteToObject q).

(** ** Scenario data (from the smoke test of the repository) *)

Definition sampleVehicle : Vehicle :=
  {| brand := "Toyota"; model := "Corolla"; year := 2020;
     licensePlate := "TEST123"; mileage := 50000 |}.

Definition sampleQuote : Quote :=
  {| q_id := 1%N; quoteNumber := Some "PRES-0001"; clientId := Some 10%N;
     vehicle := Some sampleVehicle;
     description := "Test description with more than twenty characters to pass validation";
     proposedWork := "Test proposed work with more than twenty characters as required";
     q_estimatedCost := 100000; validUntil := 604801000; q_status := pending;
     approvalTokens := [freshToken "tok-approve" approve; freshToken "tok-reject" reject];
     emailSent := true; emailSentAt := Some 1000; emailAttempts := 1;
     workOrderId := None; q_notes := None; q_isDeleted := false;
     q_deletedAt := None; q_deletedBy := None; q_createdAt := 1000 |}.

Definition sampleClient : Client :=
  {| c_id := 10%N; c_email := "test@example.com" |}.

Definition sampleOrder (s : Status) (mech : option ObjectId) : WorkOrder :=
  {| wo_id := 100%N; orderNumber := Some "ORD-0001"; quoteId := Some 1%N;
     mechanicId := mech; vehicleSnapshot := Some (castSnapshot sampleVehicle);
     workDescription := workDescriptionOf sampleQuote; estimatedCost := 100000;
     finalCost := None; status := s; statusHistory := [];
     estimatedDelivery := None; actualDelivery := None; additionalNotes := None;
     additionalWork := None; notifications := []; readyEmailSent := false;
     readyEmailSentAt := None; wo_isDeleted := false; wo_deletedAt := None;
     wo_deletedBy := None; wo_createdAt := 2000 |}.

(** A world holding the quote and its client, with the given orders, write
    faults and mail transport. *)
Definition sampleWorld (os : list WorkOrder) (fs : list bool)
    (tr : nat -> option string) : World :=
  {| quotes := [sampleQuote]; orders := os; clients := [sampleClient];
     now := 5000; nextId := 100%N; faults := fs; transport := tr;
     mailCalls := 0; maxRetries := 3; maxYear := 2027 |}.

Definition delivers : nat -> option string := fun _ => None.
Definition smtpDown : nat -> option string := fun _ => Some "SMTP down".

(** ** The transition table as the specification words it *)

Definition transitionTable : list (Status * Status) :=
  [ (pendiente_asignacion, asignada);
    (asignada, en_progreso); (asignada, pendiente_asignacion);
    (en_progreso, listo); (en_progreso, asignada);
    (listo, entregado); (listo, en_progreso) ].


(** ** Claims as worded, for the counterexamples *)

(** The reading of C1 as it is worded: permitted exactly when the pair is
    in the table. *)
Definition permitted_iff_in_table : Prop :=
  forall (o : WorkOrder) (t : Status),
    validateStatusTransition o t = Valid <-> In (status o, t) transitionTable.

(** The reading of C7 as it is worded: without a mechanic every request
    for [en_progreso] is refused with the missing-mechanic reason. *)
Definition refused_for_missing_mechanic : Prop :=
  forall o : WorkOrder,
    mechanicId o = None ->
    validateStatusTransition o en_progreso = Invalid msg_no_mechanic.

(** The reading of C9 as it is worded: the delivery time stamped by a
    successful change to [entregado] of a stored order is at or after the
    creation time. *)
Definition delivered_after_created : Prop :=
  forall fuel w o by_ notes_ w' o' delivered,
    findOrderById w (wo_id o) = Some o ->
    changeStatus fuel w o entregado by_ notes_ = Some (w', o', None) ->
    actualDelivery o' = Some delivered ->
    wo_createdAt o' <= delivered.

(** ** Projections used to state what a method leaves alone *)

(** The fields of an order that neither the hooks nor the write touch. *)
Definition core (o : WorkOrder) :=
  (wo_id o, quoteId o, mechanicId o, vehicleSnapshot o, workDescription o,
   estimatedCost o, finalCost o, status o, statusHistory o, actualDelivery o,
   (additionalNotes o, additionalWork o, wo_createdAt o)).

(** The parts of the world an order save never changes. *)
Definition env (w : World) :=
  (quotes w, clients w, now w, nextId w, transport w, maxRetries w, maxYear w).

(** What the store holds for an order after a method, relative to the
    in-memory document [d] it was called on: nothing was written, or the
    stored order carries the core fields of [d]. *)
Definition storeStep (w : World) (d : WorkOrder) (w' : World) : Prop :=
  orders w' = orders w \/
  exists s, findOrderById w' (wo_id d) = Some s /\ core s = core d.

(** Whether the post('save') hook sends for this document. *)
Definition hookFires (d : WorkOrder) : bool :=
  status_eqb (status d) listo && negb (readyEmailSent d).

(** Whether [sendReadyNotification] reaches the transport: the quote and
    its client exist and the client has an email. *)
Definition reachable (w : World) (d : WorkOrder) : bool :=
  match match quoteId d with Some i => findQuoteById w i | None => None end with
  | None => false
  | Some quote =>
      match match clientId quote with Some i => findClientById w i | None => None end with
      | None => false
      | Some c => truthy (c_email c)
      end
  end.

(** The contract every [doc.save()] of an order meets; the hook is proved
    against it. *)
Definition SaveSpec (save : World -> WorkOrder -> option (Outcome WorkOrder)) : Prop :=
  forall w d w' d' e,
    save w d = Some (w', d', e) ->
    core d' = core d /\ env w' = env w /\ storeStep w d w' /\
    (e = None -> findOrderById w' (wo_id d) = Some d').

(** ** Inputs of the notification scenarios *)

(** An order being worked on, the store holding it, and a mail transport
    that refuses every message. *)
Definition orderInProgress : WorkOrder := sampleOrder en_progreso (Some 7%N).

Definition worldSmtpDown : World := sampleWorld [orderInProgress] [] smtpDown.

(** The same order in a world where the client record is gone, so that
    [sendReadyNotification] throws before reaching the transport. *)
Definition worldNoClient : World :=
  {| quotes := [sampleQuote]; orders := [orderInProgress]; clients := [];
     now := 5000; nextId := 101%N; faults := []; transport := delivers;
     mailCalls := 0; maxRetries := 3; maxYear := 2027 |}.

(** A ready order whose notification has been sent. *)
Definition orderReady : WorkOrder :=
  set_readyEmailSent true (sampleOrder listo (Some 7%N)).

(** A ready order whose creation time is ahead of the clock of the world
    that stores it. *)
Definition orderCreatedAhead : WorkOrder :=
  {| wo_id := 100%N; orderNumber := Some "ORD-0001"; quoteId := Some 1%N;
     mechanicId := Some 7%N; vehicleSnapshot := Some (castSnapshot sampleVehicle);
     workDescription := workDescriptionOf sampleQuote; estimatedCost := 100000;
     finalCost := None; status := listo; statusHistory := [];
     estimatedDelivery := None; actualDelivery := None; additionalNotes := None;
     additionalWork := None; notifications := []; readyEmailSent := true;
     readyEmailSentAt := None; wo_isDeleted := false; wo_deletedAt := None;
     wo_deletedBy := None; wo_createdAt := 10000 |}.

Definition worldClockBehind : World := sampleWorld [orderCreatedAhead] [] delivers.

(** ** Vocabulary of the token claims *)

(** [t] is the first entry of [l] holding the string [tok]: the entry
    [find(t => t.token === token)] returns. *)
Definition firstWith (tok : string) (l : list ApprovalToken) (t : ApprovalToken)
  : Prop :=
  exists before after,
    l = (before ++ t :: after)%list /\ token t = tok /\
    forall u, In u before -> token u <> tok.

(** The parts of the world a quote save never changes. *)
Definition quoteEnv (w : World) :=
  (orders w, clients w, now w, nextId w, transport w, mailCalls w,
   maxRetries w, maxYear w).

(** ** Vocabulary of the approval claims *)


(** Whether the datastore accepts the next write. *)
Definition nextWriteAccepted (w : World) : bool := negb (fst (takeFault w)).

(** The reading of C2 as it is worded, for the manual handler: when the
    handler fails, the quote's status change is not committed. *)
Definition approval_all_or_nothing : Prop :=
  forall fuel w id w' e,
    approveQuoteManual fuel w id = Some (w', Unhandled e) ->
    findQuoteById w' id = findQuoteById w id.

(** The reading of the second half of C2 as it is worded: a redeemed token
    never coexists with a quote that is still pending. *)
Definition redemption_then_status : Prop :=
  forall fuel w id tok ip ua w' r q',
    approveQuote fuel w id (Some tok) ip ua = Some (w', r) ->
    findQuoteById w' id = Some q' ->
    (exists t, In t (approvalTokens q') /\ used t = true) ->
    q_status q' <> pending.


(** The sample world with the approve link already visited once by the
    datastore schedule [fs]. *)
Definition worldPending (fs : list bool) : World := sampleWorld [] fs delivers.

(** The steps both approval handlers run once the quote is to be approved
    (status, order creation, link), written once for the proofs; [respond]
    builds the success response. *)
Definition approvalSteps (fuel : nat) (w : World) (quote : Quote)
    (respond : Quote -> WorkOrder -> Response) : option (World * Response) :=
  let quote1 := set_q_status approved quote in
  match saveQuote w quote1 with
  | (w1, _, Some e) => Some (w1, Unhandled e)
  | (w1, quote2, None) =>
      match createWorkOrder fuel w1 (Some (q_id quote2))
              (option_map castSnapshot (vehicle quote2))
              (workDescriptionOf quote2) (q_estimatedCost quote2)
              pendiente_asignacion with
      | None => None
      | Some (w2, _, Some e) => Some (w2, Unhandled e)
      | Some (w2, order, None) =>
          let quote3 := set_workOrderId (Some (wo_id order)) quote2 in
          match saveQuote w2 quote3 with
          | (w3, _, Some e) => Some (w3, Unhandled e)
          | (w3, quote4, None) => Some (w3, respond quote4 order)
          end
      end
  end.



(** The state after an approval whose order creation failed: the stored
    quote [q1] is approved and carries the link it had, and the order
    collection is as it was. *)
Definition approvedWithoutOrder (w : World) (q : Quote) (w' : World) (q1 : Quote)
  : Prop :=
  findQuoteById w' (q_id q) = Some q1 /\
  q_status q1 = approved /\
  workOrderId q1 = workOrderId q /\
  orders w' = orders w.

(** ** Vocabulary of the serialization claim *)

(** What the serialized quote shows of a token. *)
Definition tokenPublic (t : ApprovalToken) : JSON :=
  JObj [("type", JStr (tokenType_name (type t)));
        ("used", JBool (used t));
        ("usedAt", match usedAt t with Some d => JDate d | None => JUndefined end)].

(** A token with its string blanked. *)
Definition withoutString (t : ApprovalToken) : ApprovalToken :=
  {| token := ""; type := type t; used := used t; usedAt := usedAt t;
     ipAddress := ipAddress t; userAgent := userAgent t |}.

(** [q2] is [q1] with other token strings and nothing else changed. *)
Definition differOnlyInTokenStrings (q1 q2 : Quote) : Prop :=
  q2 = set_approvalTokens (approvalTokens q2) q1 /\
  map withoutString (approvalTokens q2) = map withoutString (approvalTokens q1).

(** The sample quote with other token strings. *)
Definition sampleQuoteOtherTokens : Quote :=
  set_approvalTokens
    [freshToken "0b5c9f0e" approve; freshToken "7d1a33c2" reject] sampleQuote.

(** The serialized quote, given the serialized token views. *)
Definition serializedWith (q : Quote) (views : list JSON) : Obj :=
  let ret := js_set "approvalTokens" (JArr views) (quoteToObject q) in
  if negb (js_truthy (js_get "isDeleted" ret))
  then js_delete "deletedBy" (js_delete "deletedAt" ret)
  else ret.

(** ** Proof automation *)

Ltac core_fields H :=
  unfold core in H; injection H; clear H; intros.

Ltac env_fields H :=
  unfold env in H; injection H; clear H; intros.

Ltac quote_options q :=
  destruct (quoteNumber q), (clientId q), (vehicle q), (emailSentAt q),
    (workOrderId q), (q_notes q).

(** * Further methods and handlers

    The remaining methods of the three models, the handlers of the quote
    controller that the approval flow leaves aside, and the handlers of the
    order controller that write. *)

(** ** WorkOrder.js: soft delete and repair time *)

Definition set_deletion (flag : bool) (at_ : option Date) (by_ : option ObjectId)
    (o : WorkOrder) : WorkOrder :=
  {| wo_id := wo_id o; orderNumber := orderNumber o; quoteId := quoteId o;
     mechanicId := mechanicId o; vehicleSnapshot := vehicleSnapshot o;
     workDescription := workDescription o; estimatedCost := estimatedCost o;
     finalCost := finalCost o; status := status o;
     statusHistory := statusHistory o; estimatedDelivery := estimatedDelivery o;
     actualDelivery := actualDelivery o; additionalNotes := additionalNotes o;
     additionalWork := additionalWork o; notifications := notifications o;
     readyEmailSent := readyEmailSent o; readyEmailSentAt := readyEmailSentAt o;
     wo_isDeleted := flag; wo_deletedAt := at_;
     wo_deletedBy := by_; wo_createdAt := wo_createdAt o |}.

Module WorkOrderDoc.

Definition msg_cannot_delete : string :=
  "Solo se pueden eliminar órdenes en estado pendiente de asignación".

(** [canDelete()] *)
Definition canDelete (this : WorkOrder) : bool :=
  status_eqb (status this) pendiente_asignacion && negb (wo_isDeleted this).

(** [softDelete(deletedBy)] *)
Definition softDelete (fuel : nat) (w : World) (this : WorkOrder)
    (deletedBy : option ObjectId) : option (Outcome WorkOrder) :=
  if negb (canDelete this) then Some (w, this, Some (Error msg_cannot_delete))
  else saveOrder fuel false w (set_deletion true (Some (now w)) deletedBy this).

End WorkOrderDoc.

Record RepairTime := {
  days : Z;
  hours : Z;
  totalHours : Z
}.

Definition msPerHour : Z := 1000 * 60 * 60.
Definition msPerDay : Z := 1000 * 60 * 60 * 24.

(** [getRepairTime()]: [%] is the remainder with the sign of the dividend
    ([Z.rem]) and [Math.floor(a / b)], for [b > 0], is [Z.div]. *)
Definition getRepairTime (this : WorkOrder) : option RepairTime :=
  match actualDelivery this with
  | None => None
  | Some end_ =>
      let start := wo_createdAt this in
      let diffMs := end_ - start in
      let diffDays := diffMs / msPerDay in
      let diffHours := Z.rem diffMs msPerDay / msPerHour in
      Some {| days := diffDays; hours := diffHours;
              totalHours := diffMs / msPerHour |}
  end.

(** The [transform] of [workOrderSchema.set('toJSON', ...)], which is also
    the one of the mechanic schema. *)
Definition softDelete_transform (ret : Obj) : Obj :=
  if negb (js_truthy (js_get "isDeleted" ret)) then
    js_delete "deletedBy" (js_delete "deletedAt" ret)
  else ret.

(** ** The Mechanic model: the check before a delete *)

Record Mechanic := {
  mech_id : ObjectId;
  mech_userId : ObjectId;
  firstName : string;
  lastName1 : string;
  lastName2 : option string;
  phone : string;
  isActive : bool;
  mech_isDeleted : bool
}.

Inductive DeleteCheck :=
| CanDelete                           (* { canDelete: true } *)
| CannotDelete (reason : string).     (* { canDelete: false, reason } *)

Module MechanicDoc.

Definition msg_active_orders : string :=
  "Mecánico tiene órdenes de trabajo activas".

(** The filter of [WorkOrder.exists({ mechanicId, status: { $nin:
    ['entregado'] }, isDeleted: false })]. *)
Definition isActiveOrderOf (this : Mechanic) (o : WorkOrder) : bool :=
  opt_eqb N.eqb (mechanicId o) (Some (mech_id this))
  && negb (status_eqb (status o) entregado)
  && negb (wo_isDeleted o).

(** [canDelete()] *)
Definition canDelete (w : World) (this : Mechanic) : DeleteCheck :=
  let hasActiveOrders := existsb (isActiveOrderOf this) (orders w) in
  if hasActiveOrders then CannotDelete msg_active_orders else CanDelete.

End MechanicDoc.

(** ** The Quote model: edit and delete guards *)

Definition set_content (d pw : string) (cost : Z) (n : option string) (q : Quote)
  : Quote :=
  {| q_id := q_id q; quoteNumber := quoteNumber q; clientId := clientId q;
     vehicle := vehicle q; description := d;
     proposedWork := pw; q_estimatedCost := cost;
     validUntil := validUntil q; q_status := q_status q;
     approvalTokens := approvalTokens q; emailSent := emailSent q;
     emailSentAt := emailSentAt q; emailAttempts := emailAttempts q;
     workOrderId := workOrderId q; q_notes := n;
     q_isDeleted := q_isDeleted q; q_deletedAt := q_deletedAt q;
     q_deletedBy := q_deletedBy q; q_createdAt := q_createdAt q |}.

Definition set_email (sent : bool) (at_ : option Date) (attempts : Z) (q : Quote)
  : Quote :=
  {| q_id := q_id q; quoteNumber := quoteNumber q; clientId := clientId q;
     vehicle := vehicle q; description := description q;
     proposedWork := proposedWork q; q_estimatedCost := q_estimatedCost q;
     validUntil := validUntil q; q_status := q_status q;
     approvalTokens := approvalTokens q; emailSent := sent;
     emailSentAt := at_; emailAttempts := attempts;
     workOrderId := workOrderId q; q_notes := q_notes q;
     q_isDeleted := q_isDeleted q; q_deletedAt := q_deletedAt q;
     q_deletedBy := q_deletedBy q; q_createdAt := q_createdAt q |}.

Definition set_q_deletion (flag : bool) (at_ : option Date) (by_ : option ObjectId)
    (q : Quote) : Quote :=
  {| q_id := q_id q; quoteNumber := quoteNumber q; clientId := clientId q;
     vehicle := vehicle q; description := description q;
     proposedWork := proposedWork q; q_estimatedCost := q_estimatedCost q;
     validUntil := validUntil q; q_status := q_status q;
     approvalTokens := approvalTokens q; emailSent := emailSent q;
     emailSentAt := emailSentAt q; emailAttempts := emailAttempts q;
     workOrderId := workOrderId q; q_notes := q_notes q;
     q_isDeleted := flag; q_deletedAt := at_;
     q_deletedBy := by_; q_createdAt := q_createdAt q |}.

Module QuoteDoc.

Definition msg_cannot_delete : string := "No se puede eliminar este presupuesto".

(** [canEdit()] *)
Definition canEdit (this : Quote) : bool :=
  quoteStatus_eqb (q_status this) pending && negb (q_isDeleted this).

(** [canDelete()] *)
Definition canDelete (this : Quote) : bool :=
  quoteStatus_eqb (q_status this) pending
  && negb (isSome (workOrderId this))
  && negb (q_isDeleted this).

(** [softDelete(deletedBy)] *)
Definition softDelete (w : World) (this : Quote) (deletedBy : option ObjectId)
  : Outcome Quote :=
  if negb (canDelete this) then (w, this, Some (Error msg_cannot_delete))
  else saveQuote w (set_q_deletion true (Some (now w)) deletedBy this).

End QuoteDoc.

(** ** emailService.js: the quote mail *)

Module EmailService.

(** [sendQuoteEmail(quote, client, tokens)] *)
Definition sendQuoteEmail (w : World) : World * SendResult :=
  sendWithRetry (Z.to_nat (maxRetries w - 1)) w.

End EmailService.

(** ** Replies of the JSON handlers below *)

Inductive Reply (D : Type) :=
| Ok (message : string) (data : D)
      (* res.json({ success: true, data, message }) *)
| Fail (statusCode : Z) (code message : string) (details : option string)
      (* res.status(c).json({ success: false, error }) *)
| Thrown (e : Exn).
      (* rejection handed to next(err) *)

Arguments Ok {D} message data.
Arguments Fail {D} statusCode code message details.
Arguments Thrown {D} e.

(** ** quoteController.js: update and send *)

(** The fields of [req.body] read by [updateQuote]; [None] is
    [undefined]. *)
Record QuoteChanges := {
  b_description : option string;
  b_proposedWork : option string;
  b_estimatedCost : option Z;
  b_notes : option string
}.

(** The four conditional assignments of [updateQuote]. *)
Definition applyChanges (body : QuoteChanges) (quote : Quote) : Quote :=
  set_content
    (match b_description body with
     | Some d => if truthy d then d else description quote
     | None => description quote
     end)
    (match b_proposedWork body with
     | Some p => if truthy p then p else proposedWork quote
     | None => proposedWork quote
     end)
    (match b_estimatedCost body with
     | Some c => c
     | None => q_estimatedCost quote
     end)
    (match b_notes body with
     | Some n => Some n
     | None => q_notes quote
     end)
    quote.

(** PUT /api/quotes/:id *)
Definition updateQuote (w : World) (id : ObjectId) (body : QuoteChanges)
  : World * Reply Quote :=
  match findQuoteById w id with
  | None => (w, Fail 404 "QUOTE_NOT_FOUND" "Presupuesto no encontrado" None)
  | Some quote =>
      if negb (QuoteDoc.canEdit quote) then
        (w, Fail 400 "QUOTE_CANNOT_EDIT"
              "Solo se pueden editar presupuestos en estado pendiente" None)
      else
        match saveQuote w (applyChanges body quote) with
        | (w1, _, Some e) => (w1, Thrown e)
        | (w1, quote1, None) =>
            (w1, Ok "Presupuesto actualizado exitosamente" quote1)
        end
  end.

(** POST /api/quotes/:id/send-email; [approveToken] and [rejectToken] are
    the two strings drawn by [uuidv4()], taken to be held by no other
    stored quote (the index on [approvalTokens.token] is not modelled). *)
Definition sendQuoteEmail (w : World) (id : ObjectId)
    (approveToken rejectToken : string) : World * Reply (option Date) :=
  match findQuoteById w id with
  | None => (w, Fail 404 "QUOTE_NOT_FOUND" "Presupuesto no encontrado" None)
  | Some quote =>
      if negb (quoteStatus_eqb (q_status quote) pending) then
        (w, Fail 400 "QUOTE_ALREADY_PROCESSED" "El presupuesto ya fue procesado" None)
      else
        let client :=
          match clientId quote with Some i => findClientById w i | None => None end in
        if match client with Some c => negb (truthy (c_email c)) | None => true end then
          (w, Fail 400 "CLIENT_NO_EMAIL" "El cliente no tiene un email válido" None)
        else
          (* const tokens = quote.generateTokens(); await quote.save() *)
          match saveQuote w (generateTokens quote approveToken rejectToken) with
          | (w1, _, Some e) => (w1, Thrown e)
          | (w1, quote1, None) =>
              let (w2, result) := EmailService.sendQuoteEmail w1 in
              if negb (success result) then
                (* quote.emailAttempts += 1; await quote.save() *)
                match saveQuote w2
                        (set_email (emailSent quote1) (emailSentAt quote1)
                                   (emailAttempts quote1 + 1) quote1) with
                | (w3, _, Some e) => (w3, Thrown e)
                | (w3, _, None) =>
                    (w3, Fail 500 "EMAIL_SEND_FAILED"
                           "Error al enviar el correo electrónico" (send_error result))
                end
              else
                (* emailSent = true; emailSentAt = new Date(); emailAttempts += 1 *)
                match saveQuote w2
                        (set_email true (Some (now w2))
                                   (emailAttempts quote1 + 1) quote1) with
                | (w3, _, Some e) => (w3, Thrown e)
                | (w3, quote2, None) =>
                    (w3, Ok "Presupuesto enviado por correo exitosamente"
                           (emailSentAt quote2))
                end
          end
  end.

(** ** The order controller: assign and delete *)

Definition findMechanicById (mechanics : list Mechanic) (id : ObjectId)
  : option Mechanic :=
  List.find (fun m => N.eqb (mech_id m) id) mechanics.

(** PUT /api/orders/:id/assign; [mechanics] is the mechanic collection,
    which the handler only reads. *)
Definition assignMechanic (fuel : nat) (mechanics : list Mechanic) (w : World)
    (userId : option ObjectId) (id : ObjectId) (mechanicId_ : ObjectId)
  : option (World * Reply WorkOrder) :=
  match findOrderById w id with
  | None => Some (w, Fail 404 "ORDER_NOT_FOUND" "Orden de trabajo no encontrada" None)
  | Some order =>
      match findMechanicById mechanics mechanicId_ with
      | None => Some (w, Fail 404 "MECHANIC_NOT_FOUND" "Mecánico no encontrado" None)
      | Some mechanic =>
          if negb (isActive mechanic) then
            Some (w, Fail 400 "MECHANIC_INACTIVE" "El mecánico no está activo" None)
          else
            let order1 := set_mechanicId (Some mechanicId_) order in
            let saved :=
              if status_eqb (status order1) pendiente_asignacion then
                changeStatus fuel w order1 asignada userId (Some "Mecánico asignado")
              else saveOrder fuel false w order1 in
            match saved with
            | None => None
            | Some (w1, _, Some e) => Some (w1, Thrown e)
            | Some (w1, order2, None) =>
                Some (w1, Ok "Mecánico asignado exitosamente" order2)
            end
      end
  end.

(** DELETE /api/orders/:id *)
Definition deleteOrder (fuel : nat) (w : World) (userId : option ObjectId)
    (id : ObjectId) : option (World * Reply unit) :=
  match findOrderById w id with
  | None => Some (w, Fail 404 "ORDER_NOT_FOUND" "Orden de trabajo no encontrada" None)
  | Some order =>
      if wo_isDeleted order then
        Some (w, Fail 400 "ORDER_ALREADY_DELETED" "La orden ya está eliminada" None)
      else if negb (WorkOrderDoc.canDelete order) then
        Some (w, Fail 400 "CANNOT_DELETE_ORDER"
                   ("Solo se pueden eliminar órdenes en estado "
                      ++ dq ++ "pendiente_asignacion" ++ dq) None)
      else
        match WorkOrderDoc.softDelete fuel w order userId with
        | None => None
        | Some (w1, _, Some e) => Some (w1, Thrown e)
        | Some (w1, _, None) => Some (w1, Ok "Orden eliminada exitosamente" tt)
        end
  end.

(** ** Invariants of an order's life *)

(** The history [l] replays a walk through the transition table from
    [from] to [to]. *)
Fixpoint historyChain (from : Status) (l : list StatusHistoryEntry) (to : Status)
  : Prop :=
  match l with
  | [] => from = to
  | h :: rest =>
      previousStatus h = from /\
      In (previousStatus h, newStatus h) transitionTable /\
      historyChain (newStatus h) rest to
  end.

(** Work has started on the order. *)
Definition started (s : Status) : bool :=
  match s with
  | en_progreso | listo | entregado => true
  | pendiente_asignacion | asignada => false
  end.

(** An order on which work has started has a mechanic. *)
Definition staffed (o : WorkOrder) : Prop :=
  started (status o) = true -> mechanicId o <> None.

(** The deletion stamp of an order. *)
Definition deletion (o : WorkOrder) :=
  (wo_isDeleted o, wo_deletedAt o, wo_deletedBy o).

(** The document [changeStatus] saves once the transition is accepted. *)
Definition withNewStatus (w : World) (o : WorkOrder) (t : Status)
    (by_ : option ObjectId) (notes_ : option string) : WorkOrder :=
  let this1 := set_status t o in
  let this2 :=
    set_statusHistory
      (push (statusHistory this1)
            (historyEntry (status o) t by_ (now w)
               (match notes_ with Some s => s | None => "" end)))
      this1 in
  if status_eqb t entregado then set_actualDelivery (Some (now w)) this2 else this2.

(** The states of an order, in memory or stored, after a [changeStatus]
    on [o]: as [o], or with the new status and the new entry. *)
Definition movedOrNot (w : World) (o : WorkOrder) (t : Status)
    (by_ : option ObjectId) (notes_ : option string) (x : WorkOrder) : Prop :=
  mechanicId x = mechanicId o /\ wo_id x = wo_id o /\
  ((status x = status o /\ statusHistory x = statusHistory o) \/
   (validateStatusTransition o t = Valid /\ status x = t /\
    statusHistory x =
      (statusHistory o ++
         [historyEntry (status o) t by_ (now w)
            (match notes_ with Some s => s | None => "" end)])%list)).

(** Whether the client of the quote exists and has an address:
    [client && client.email]. *)
Definition hasAddress (w : World) (q : Quote) : bool :=
  match match clientId q with Some i => findClientById w i | None => None end with
  | Some c => truthy (c_email c)
  | None => false
  end.

(** Whether [save()] of the stored order [d] goes through when the hook
    has nothing to send: the validators pass and the datastore takes the
    write. *)
Definition orderSaveAccepted (w : World) (d : WorkOrder) : bool :=
  match validateOrder d with
  | Some _ => false
  | None => negb (isSome (snd (writeOrder false w (preSaveOrder w d))))
  end.

(** The same for a quote. *)
Definition quoteSaveAccepted (w : World) (q : Quote) : bool :=
  match validateQuote (maxYear w) q with
  | Some _ => false
  | None => negb (isSome (snd (writeQuote w (preSaveQuote w q))))
  end.

(** The document [assignMechanic] saves: the order with the mechanic and,
    for an order in [pendiente_asignacion], with the status [asignada] and
    its history entry. *)
Definition assignedDoc (w : World) (o : WorkOrder) (m : ObjectId)
    (userId : option ObjectId) : WorkOrder :=
  let order1 := set_mechanicId (Some m) o in
  if status_eqb (status order1) pendiente_asignacion then
    withNewStatus w order1 asignada userId (Some "Mecánico asignado")
  else order1.

(** What [sendQuoteEmail] leaves behind once the mail has been attempted:
    the pending quote holds the fresh pair of tokens and one more counted
    attempt; [sent] and [at_] give the sent flag and time from the quote as
    it was. *)
Definition quoteMailed (w : World) (id : ObjectId) (a r : string) (w' : World)
    (sent : Quote -> bool) (at_ : Quote -> option Date) : Prop :=
  exists q q',
    findQuoteById w id = Some q /\ q_status q = pending /\
    hasAddress w q = true /\
    findQuoteById w' id = Some q' /\ q_status q' = pending /\
    approvalTokens q' = [freshToken a approve; freshToken r reject] /\
    emailAttempts q' = emailAttempts q + 1 /\
    emailSent q' = sent q /\ emailSentAt q' = at_ q /\
    (mailCalls w < mailCalls w')%nat /\
    forall tok, tok <> a -> tok <> r ->
                validateToken w' q' tok = TokenInvalid msg_invalid_token.

Definition q_deletion (q : Quote) : bool * option Date * option ObjectId :=
  (q_isDeleted q, q_deletedAt q, q_deletedBy q).

(** ** The order controller: the ownership test and the status change *)

(** [req.user.role], of the enum of the user schema. *)
Inductive Role := role_admin | role_mechanic.

(** The text [toString()] gives: the hexadecimal digits of an ObjectId, or
    the printout of the fields of a document, which is never the text of
    an id. *)
Inductive Text :=
| IdText (i : ObjectId)
| DocumentText (m : Mechanic).

(** [a !== b] on texts, [None] being [undefined]; the right side is the
    text of an id in every use. *)
Definition differs (a : option Text) (b : Text) : bool :=
  match a, b with
  | Some (IdText i), IdText j => negb (N.eqb i j)
  | _, _ => true
  end.

(** [order.mechanicId] of an order loaded by [findById]: the find hook of
    the schema has populated the path, which holds the mechanic document
    the id refers to, or [null] when there is none. *)
Definition populatedMechanic (mechanics : list Mechanic) (order : WorkOrder)
  : option Mechanic :=
  match mechanicId order with
  | Some i => findMechanicById mechanics i
  | None => None
  end.

(** [Mechanic.findOne({ userId: req.userId })] *)
Definition findMechanicByUser (mechanics : list Mechanic) (userId : ObjectId)
  : option Mechanic :=
  List.find (fun m => N.eqb (mech_userId m) userId) mechanics.

(** [!mechanic || order.mechanicId?.toString() !== mechanic._id.toString()] *)
Definition notOwnOrder (mechanics : list Mechanic) (order : WorkOrder)
    (mechanic : option Mechanic) : bool :=
  match mechanic with
  | None => true
  | Some m =>
      differs (option_map DocumentText (populatedMechanic mechanics order))
              (IdText (mech_id m))
  end.

(** The test both handlers run for a caller of role 'mechanic'. *)
Definition forbidden (mechanics : list Mechanic) (role : Role) (userId : ObjectId)
    (order : WorkOrder) : bool :=
  match role with
  | role_mechanic =>
      notOwnOrder mechanics order (findMechanicByUser mechanics userId)
  | role_admin => false
  end.

      (* the same, with message: error.message *)


(** The most attempts one mail makes: [maxRetries], and one when
    [maxRetries] is below 1. *)
Definition mailBudget (w : World) : nat := Z.to_nat (Z.max 1 (maxRetries w)).

(** Whether the document has its display number ([this.orderNumber],
    [this.quoteNumber] truthy). *)
Definition numbered (n : option string) : bool :=
  match n with Some s => truthy s | None => false end.

(** ** The order controller: update *)

(** The fields of [req.body] read by [updateOrder]; [None] is
    [undefined]. *)
Record OrderChanges := {
  b_additionalNotes : option string;
  b_additionalWork : option string;
  b_finalCost : option Z;
  b_estimatedDelivery : option Date
}.

Definition set_details (notes_ work : option string) (cost : option Z)
    (delivery : option Date) (o : WorkOrder) : WorkOrder :=
  {| wo_id := wo_id o; orderNumber := orderNumber o; quoteId := quoteId o;
     mechanicId := mechanicId o; vehicleSnapshot := vehicleSnapshot o;
     workDescription := workDescription o; estimatedCost := estimatedCost o;
     finalCost := cost; status := status o;
     statusHistory := statusHistory o; estimatedDelivery := delivery;
     actualDelivery := actualDelivery o; additionalNotes := notes_;
     additionalWork := work; notifications := notifications o;
     readyEmailSent := readyEmailSent o; readyEmailSentAt := readyEmailSentAt o;
     wo_isDeleted := wo_isDeleted o; wo_deletedAt := wo_deletedAt o;
     wo_deletedBy := wo_deletedBy o; wo_createdAt := wo_createdAt o |}.

(** [if (x !== undefined) order.x = x] *)
Definition orElse {A} (given current : option A) : option A :=
  match given with Some v => Some v | None => current end.

(** The four conditional assignments of [updateOrder]. *)
Definition applyOrderChanges (body : OrderChanges) (order : WorkOrder) : WorkOrder :=
  set_details (orElse (b_additionalNotes body) (additionalNotes order))
              (orElse (b_additionalWork body) (additionalWork order))
              (orElse (b_finalCost body) (finalCost order))
              (orElse (b_estimatedDelivery body) (estimatedDelivery order))
              order.

(** PUT /api/orders/:id *)
Definition updateOrder (fuel : nat) (mechanics : list Mechanic) (w : World)
    (role : Role) (userId : ObjectId) (id : ObjectId) (body : OrderChanges)
  : option (World * Reply WorkOrder) :=
  match findOrderById w id with
  | None => Some (w, Fail 404 "ORDER_NOT_FOUND" "Orden de trabajo no encontrada" None)
  | Some order =>
      if forbidden mechanics role userId order then
        Some (w, Fail 403 "FORBIDDEN" "No tienes permiso para editar esta orden" None)
      else
        match saveOrder fuel false w (applyOrderChanges body order) with
        | None => None
        | Some (w1, _, Some e) => Some (w1, Thrown e)
        | Some (w1, order1, None) =>
            Some (w1, Ok "Orden actualizada exitosamente" order1)
        end
  end.

(** The life cycle of an order: what [updateOrder] does not write. *)
Definition lifeCycle (o : WorkOrder) :=
  (wo_id o, quoteId o, mechanicId o, status o, statusHistory o, actualDelivery o,
   deletion o).
(** * Status transitions *)

Lemma status_eqb_eq (a b : Status) : status_eqb a b = true <-> a = b.
Proof. destruct a, b; simpl; split; intro H; congruence. Qed.

Lemma includes_table (cur tgt : Status) :
  includes (transitions cur) tgt = true <-> In (cur, tgt) transitionTable.
Proof.
  destruct cur, tgt; simpl; split; intro H;
    try reflexivity; try discriminate;
    try (repeat (first [left; reflexivity | right]); fail);
    repeat match goal with
           | H : _ \/ _ |- _ => destruct H
           | H : (_, _) = (_, _) |- _ => discriminate H
           | H : False |- _ => destruct H
           end.
Qed.


(** C1, counterexample: an order in [asignada] without a mechanic asks for
    [en_progreso]; the pair is in the table and the request is refused. *)
Lemma C1_counterexample :
  In (status (sampleOrder asignada None), en_progreso) transitionTable /\
  validateStatusTransition (sampleOrder asignada None) en_progreso
    = Invalid msg_no_mechanic /\
  ~ permitted_iff_in_table.
Proof.
  split; [simpl; tauto|]. split; [reflexivity|].
  intro H. destruct (H (sampleOrder asignada None) en_progreso) as [_ H2].
  assert (Hin : In (status (sampleOrder asignada None), en_progreso) transitionTable)
    by (simpl; tauto).
  apply H2 in Hin. discriminate Hin.
Qed.

(** C1 (amended): a transition is permitted exactly when the pair
    (current, target) is in the table and, for target [en_progreso], a
    mechanic is assigned; for a pair outside the table [changeStatus]
    throws the reason naming both statuses and changes neither the
    document nor the store. *)
Theorem C1_transition_table (o : WorkOrder) (t : Status) :
  (validateStatusTransition o t = Valid <->
     In (status o, t) transitionTable /\
     (t = en_progreso -> mechanicId o <> None)) /\
  (~ In (status o, t) transitionTable ->
     forall fuel w by_ notes_,
       changeStatus fuel w o t by_ notes_
       = Some (w, o, Some (Error (msg_no_transition (status o) t)))).
Proof.
  split.
  - unfold validateStatusTransition.
    destruct (includes (transitions (status o)) t) eqn:Hinc; simpl.
    + apply includes_table in Hinc.
      destruct (status_eqb t en_progreso) eqn:Ht; simpl.
      * apply status_eqb_eq in Ht.
        destruct (mechanicId o) eqn:Hm; simpl; split; intro H;
          try discriminate; try reflexivity.
        -- split; [assumption|]. intros _. discriminate.
        -- destruct H as [_ H]. exfalso. apply (H Ht). reflexivity.
      * split; intro H; [|reflexivity].
        split; [assumption|]. intro Heq. subst t. discriminate Ht.
    + split; intro H; [discriminate|].
      destruct H as [H _]. apply includes_table in H. congruence.
  - intros Hnot fuel w by_ notes_. unfold changeStatus, validateStatusTransition.
    destruct (includes (transitions (status o)) t) eqn:Hinc; simpl.
    + apply includes_table in Hinc. contradiction.
    + reflexivity.
Qed.

(** Witness of C1 at the scenario of the specification: [asignada] to
    [listo] is refused and nothing changes. *)
Lemma C1_transition_table_witness :
  changeStatus 1 (sampleWorld [sampleOrder asignada (Some 7%N)] [] delivers)
    (sampleOrder asignada (Some 7%N)) listo (Some 3%N) None
  = Some (sampleWorld [sampleOrder asignada (Some 7%N)] [] delivers,
          sampleOrder asignada (Some 7%N),
          Some (Error (msg_no_transition asignada listo))).
Proof.
  apply (proj2 (C1_transition_table (sampleOrder asignada (Some 7%N)) listo)).
  simpl. intros H.
  repeat match goal with
         | H : _ \/ _ |- _ => destruct H
         | H : (_, _) = (_, _) |- _ => discriminate H
         | H : False |- _ => destruct H
         end.
Defined.


(** C7, counterexample: from [pendiente_asignacion] the table check comes
    first and gives its own reason. *)
Lemma C7_counterexample :
  validateStatusTransition (sampleOrder pendiente_asignacion None) en_progreso
    = Invalid (msg_no_transition pendiente_asignacion en_progreso) /\
  ~ refused_for_missing_mechanic.
Proof.
  split; [reflexivity|].
  intro H. specialize (H (sampleOrder pendiente_asignacion None) eq_refl).
  vm_compute in H. discriminate H.
Qed.

(** C7 (amended): for an order without a mechanic every request for
    [en_progreso] is refused and changes nothing; the reason is the
    missing-mechanic one when the table permits the pair, and the table's
    reason otherwise. *)
Theorem C7_no_mechanic_no_progress (o : WorkOrder) :
  mechanicId o = None ->
  exists reason,
    validateStatusTransition o en_progreso = Invalid reason /\
    (In (status o, en_progreso) transitionTable -> reason = msg_no_mechanic) /\
    (~ In (status o, en_progreso) transitionTable ->
       reason = msg_no_transition (status o) en_progreso) /\
    forall fuel w by_ notes_,
      changeStatus fuel w o en_progreso by_ notes_ = Some (w, o, Some (Error reason)).
Proof.
  intros Hm. unfold changeStatus, validateStatusTransition. rewrite Hm. simpl.
  destruct (includes (transitions (status o)) en_progreso) eqn:Hinc; simpl.
  - exists msg_no_mechanic. repeat split; try reflexivity.
    intros Hnot. apply includes_table in Hinc. contradiction.
  - exists (msg_no_transition (status o) en_progreso). repeat split; try reflexivity.
    intros Hin. apply includes_table in Hin. congruence.
Qed.

Lemma C7_no_mechanic_no_progress_witness :
  exists reason,
    validateStatusTransition (sampleOrder asignada None) en_progreso = Invalid reason /\
    (In (status (sampleOrder asignada None), en_progreso) transitionTable ->
       reason = msg_no_mechanic) /\
    (~ In (status (sampleOrder asignada None), en_progreso) transitionTable ->
       reason = msg_no_transition (status (sampleOrder asignada None)) en_progreso) /\
    forall fuel w by_ notes_,
      changeStatus fuel w (sampleOrder asignada None) en_progreso by_ notes_
      = Some (w, sampleOrder asignada None, Some (Error reason)).
Proof.
  apply (C7_no_mechanic_no_progress (sampleOrder asignada None)). reflexivity.
Defined.

(** * Saving an order *)

Lemma core_id d d' : core d' = core d -> wo_id d' = wo_id d.
Proof. intro H. core_fields H. assumption. Qed.

Lemma takeFault_spec w b w1 :
  takeFault w = (b, w1) ->
  env w1 = env w /\ orders w1 = orders w /\ mailCalls w1 = mailCalls w.
Proof.
  unfold takeFault. destruct (faults w); intro H; inversion H; subst; auto.
Qed.

Lemma find_replaceOrder doc l :
  isSome (find (fun o => N.eqb (wo_id o) (wo_id doc)) l) = true ->
  find (fun o => N.eqb (wo_id o) (wo_id doc)) (replaceOrder doc l) = Some doc.
Proof.
  induction l as [|o rest IH]; simpl; [discriminate|].
  destruct (N.eqb (wo_id o) (wo_id doc)) eqn:E; simpl.
  - intros _. rewrite N.eqb_refl. reflexivity.
  - intro H. rewrite E. auto.
Qed.

Lemma find_app_new doc l :
  find (fun o => N.eqb (wo_id o) (wo_id doc)) l = None ->
  find (fun o => N.eqb (wo_id o) (wo_id doc)) (l ++ [doc]) = Some doc.
Proof.
  induction l as [|o rest IH]; simpl.
  - intros _. rewrite N.eqb_refl. reflexivity.
  - destruct (N.eqb (wo_id o) (wo_id doc)); [discriminate|auto].
Qed.

Lemma writeOrder_spec isNew w d w1 e :
  writeOrder isNew w d = (w1, e) ->
  env w1 = env w /\ mailCalls w1 = mailCalls w /\
  match e with
  | Some _ => orders w1 = orders w
  | None => findOrderById w1 (wo_id d) = Some d
  end.
Proof.
  unfold writeOrder. destruct (takeFault w) as [fault w0] eqn:Hf.
  apply takeFault_spec in Hf. destruct Hf as (He & Ho & Hm).
  destruct fault; [intro H; inversion H; subst; auto|].
  destruct isNew.
  - destruct (findOrderById w0 (wo_id d)) eqn:Hfind; simpl.
    + intro H; inversion H; subst; auto.
    + destruct (orderIndexConflict d (orders w0)).
      * intro H; inversion H; subst; auto.
      * intro H; inversion H; subst. repeat split; auto.
        unfold findOrderById. simpl. apply find_app_new. exact Hfind.
  - destruct (findOrderById w0 (wo_id d)) eqn:Hfind; simpl.
    + destruct (orderIndexConflict d (otherOrders d (orders w0))).
      * intro H; inversion H; subst; auto.
      * intro H; inversion H; subst. repeat split; auto.
        unfold findOrderById. simpl. apply find_replaceOrder.
        unfold findOrderById in Hfind. rewrite Hfind. reflexivity.
    + intro H; inversion H; subst; auto.
Qed.

Lemma sendWithRetry_spec n : forall w w1 r,
  sendWithRetry n w = (w1, r) ->
  env w1 = env w /\ orders w1 = orders w /\ faults w1 = faults w.
Proof.
  induction n as [|n IH]; intros w w1 r; simpl;
    destruct (transport w (mailCalls w)); intro H;
    try (inversion H; subst; auto; fail).
  apply IH in H. destruct H as (He & Ho & Hfa). auto.
Qed.

Lemma sendReadyNotification_spec w d w1 r :
  sendReadyNotification w d = (w1, r) ->
  env w1 = env w /\ orders w1 = orders w /\ faults w1 = faults w.
Proof.
  unfold sendReadyNotification.
  destruct (match quoteId d with Some i => findQuoteById w i | None => None end);
    [|intro H; inversion H; subst; auto].
  destruct (match clientId q with Some i => findClientById w i | None => None end);
    [|intro H; inversion H; subst; auto].
  destruct (negb (truthy (c_email c))); [intro H; inversion H; subst; auto|].
  destruct (sendWithRetry (Z.to_nat (maxRetries w - 1)) w) as [w2 res] eqn:Hs.
  intro H; inversion H; subst. eapply sendWithRetry_spec; eauto.
Qed.

Lemma sendReadyNotification_reachable w d :
  reachable w d = true ->
  exists w1 res, sendReadyNotification w d = (w1, inr res).
Proof.
  unfold reachable, sendReadyNotification.
  destruct (match quoteId d with Some i => findQuoteById w i | None => None end);
    [|discriminate].
  destruct (match clientId q with Some i => findClientById w i | None => None end);
    [|discriminate].
  intro Hm. rewrite Hm. simpl.
  destruct (sendWithRetry (Z.to_nat (maxRetries w - 1)) w) as [w2 res].
  eauto.
Qed.

Lemma reachable_env w w1 d d1 :
  env w1 = env w -> core d1 = core d -> reachable w1 d1 = reachable w d.
Proof.
  intros He Hc.
  assert (Hq : quotes w1 = quotes w) by (env_fields He; assumption).
  assert (Hcl : clients w1 = clients w) by (env_fields He; assumption).
  assert (Hid : quoteId d1 = quoteId d) by (core_fields Hc; assumption).
  unfold reachable, findQuoteById, findClientById.
  rewrite Hq, Hcl, Hid. reflexivity.
Qed.

Lemma findOrderById_orders w w' i :
  orders w' = orders w -> findOrderById w' i = findOrderById w i.
Proof. unfold findOrderById. intros ->. reflexivity. Qed.

Lemma storeStep_trans w d w1 d1 w2 :
  storeStep w d w1 -> core d1 = core d -> storeStep w1 d1 w2 -> storeStep w d w2.
Proof.
  intros H1 Hc H2. pose proof (core_id _ _ Hc) as Hid.
  destruct H2 as [Ho2 | (s & Hs & Hcs)].
  - destruct H1 as [Ho1 | (s & Hs & Hcs)].
    + left. congruence.
    + right. exists s. split; [|assumption].
      rewrite (findOrderById_orders w1 w2 _ Ho2). assumption.
  - right. exists s. split; [rewrite <- Hid; assumption | congruence].
Qed.

Lemma preSaveOrder_core w d : core (preSaveOrder w d) = core d.
Proof. unfold preSaveOrder. destruct (negb _); reflexivity. Qed.

Lemma preSaveOrder_hook w d : hookFires (preSaveOrder w d) = hookFires d.
Proof. unfold preSaveOrder. destruct (negb _); reflexivity. Qed.

Lemma preSaveOrder_notifications w d :
  notifications (preSaveOrder w d) = notifications d /\
  readyEmailSent (preSaveOrder w d) = readyEmailSent d.
Proof. unfold preSaveOrder. destruct (negb _); split; reflexivity. Qed.

(** The hook is verified against any [doc.save()] that meets the contract;
    [saveOrder] is then shown to meet it by induction on the nesting
    bound. *)
Section Hook.

Variable save : World -> WorkOrder -> option (Outcome WorkOrder).
Hypothesis Hsave : SaveSpec save.

(** The hook on a document that the store holds. *)
Lemma postSaveOrder_spec w d w' d' e :
  findOrderById w (wo_id d) = Some d ->
  postSaveOrder save w d = Some (w', d', e) ->
  core d' = core d /\ env w' = env w /\ storeStep w d w' /\
  (e = None -> findOrderById w' (wo_id d) = Some d').
Proof.
  intros Hstored. unfold postSaveOrder.
  destruct (status_eqb (status d) listo && negb (readyEmailSent d)).
  2:{ intro H; inversion H; subst. repeat split; auto. left; reflexivity. }
  destruct (sendReadyNotification w d) as [w1 r] eqn:Hsend.
  apply sendReadyNotification_spec in Hsend. destruct Hsend as (He1 & Ho1 & _).
  assert (Hstep1 : storeStep w d w1) by (left; assumption).
  destruct r as [error | res].
  - (* the notification threw *)
    unfold readyHookCatch. intro H. apply Hsave in H.
    destruct H as (Hc & He & Hst & Hok). simpl in *.
    repeat split.
    + rewrite Hc. reflexivity.
    + congruence.
    + eapply storeStep_trans; [exact Hstep1 | | exact Hst]. reflexivity.
    + exact Hok.
  - (* the notification returned *)
    match goal with |- match save w1 ?doc with _ => _ end = _ -> _ =>
      set (doc3 := doc); assert (Hc3 : core doc3 = core d) by reflexivity end.
    destruct (save w1 doc3) as [[[w2 doc4] [error|]]|] eqn:Hs1; [| |discriminate].
    + (* the nested save threw: catch block *)
      apply Hsave in Hs1. destruct Hs1 as (Hc4 & He2 & Hst2 & _).
      unfold readyHookCatch. intro H. apply Hsave in H.
      destruct H as (Hc & He & Hst & Hok). simpl in *.
      assert (Hc4d : core doc4 = core d) by congruence.
      assert (Hstep2 : storeStep w d w2)
        by (eapply storeStep_trans; [exact Hstep1 | exact Hc3 | exact Hst2]).
      repeat split.
      * rewrite Hc. exact Hc4d.
      * congruence.
      * eapply storeStep_trans; [exact Hstep2 | | exact Hst]. exact Hc4d.
      * intro Hn. rewrite <- (core_id _ _ Hc4d). apply Hok. exact Hn.
    + apply Hsave in Hs1. destruct Hs1 as (Hc4 & He2 & Hst2 & Hok).
      intro H; inversion H; subst.
      repeat split.
      * congruence.
      * congruence.
      * eapply storeStep_trans; [exact Hstep1 | exact Hc3 | exact Hst2].
      * intros _. apply Hok. reflexivity.
Qed.

End Hook.

Lemma saveOrder_spec fuel : forall isNew, SaveSpec (saveOrder fuel isNew).
Proof.
  induction fuel as [|fuel IH]; intros isNew w d w' d' e; simpl; [discriminate|].
  destruct (validateOrder d).
  { intro H; inversion H; subst. repeat split; auto; [left; reflexivity|discriminate]. }
  pose proof (preSaveOrder_core w d) as Hpc.
  destruct (writeOrder isNew w (preSaveOrder w d)) as [w1 [err|]] eqn:Hw;
    apply writeOrder_spec in Hw; destruct Hw as (He1 & _ & Hres).
  { intro H; inversion H; subst. repeat split; auto; [left; assumption|discriminate]. }
  intro H. apply (postSaveOrder_spec _ (IH false)) in H; [|exact Hres].
  destruct H as (Hc & He & Hst & Hok).
  pose proof (core_id _ _ Hpc) as Hid.
  repeat split.
  - congruence.
  - congruence.
  - right. destruct Hst as [Ho | (s & Hs & Hcs)].
    + exists (preSaveOrder w d). split; [|assumption].
      rewrite (findOrderById_orders w1 w' _ Ho). rewrite <- Hid. exact Hres.
    + exists s. split; [rewrite <- Hid; assumption | congruence].
  - intro Hn. rewrite <- Hid. apply Hok. exact Hn.
Qed.

Lemma saveOrder_S fuel isNew w this :
  saveOrder (S fuel) isNew w this =
  match validateOrder this with
  | Some e => Some (w, this, Some e)
  | None =>
      match writeOrder isNew w (preSaveOrder w this) with
      | (w1, Some e) => Some (w1, preSaveOrder w this, Some e)
      | (w1, None) => postSaveOrder (saveOrder fuel false) w1 (preSaveOrder w this)
      end
  end.
Proof. reflexivity. Qed.

(** A save whose hook has nothing to send returns at once. *)
Lemma saveOrder_quiet k isNew w d :
  hookFires d = false ->
  exists w' d' e,
    saveOrder (S k) isNew w d = Some (w', d', e) /\ hookFires d' = false /\
    notifications d' = notifications d.
Proof.
  intro Hq. simpl. destruct (validateOrder d); [eauto 6|].
  destruct (writeOrder isNew w (preSaveOrder w d)) as [w1 [err|]].
  - do 3 eexists. split; [reflexivity|]. split.
    + rewrite preSaveOrder_hook. exact Hq.
    + apply preSaveOrder_notifications.
  - unfold postSaveOrder. fold (hookFires (preSaveOrder w d)).
    rewrite preSaveOrder_hook, Hq.
    do 3 eexists. split; [reflexivity|]. split.
    + rewrite preSaveOrder_hook. exact Hq.
    + apply preSaveOrder_notifications.
Qed.

(** A save returns within two levels when the notification can reach the
    transport (it then returns a result instead of throwing). *)
Lemma saveOrder_returns k isNew w d :
  hookFires d = false \/ reachable w d = true ->
  exists r, saveOrder (S (S k)) isNew w d = Some r.
Proof.
  intros [Hq | Hr].
  { destruct (saveOrder_quiet (S k) isNew w d Hq) as (w' & d' & e & H & _). eauto. }
  rewrite saveOrder_S. destruct (validateOrder d); [eauto|].
  destruct (writeOrder isNew w (preSaveOrder w d)) as [w1 [err|]] eqn:Hw; [eauto|].
  apply writeOrder_spec in Hw. destruct Hw as (He1 & _ & _).
  unfold postSaveOrder.
  destruct (status_eqb (status (preSaveOrder w d)) listo
            && negb (readyEmailSent (preSaveOrder w d))); [|eauto].
  assert (Hr1 : reachable w1 (preSaveOrder w d) = true)
    by (rewrite (reachable_env w w1 d (preSaveOrder w d) He1 (preSaveOrder_core w d));
        exact Hr).
  destruct (sendReadyNotification_reachable _ _ Hr1) as (w2 & res & Hs).
  rewrite Hs. cbv zeta.
  match goal with |- exists r, match saveOrder (S k) false w2 ?doc with _ => _ end = _ =>
    destruct (saveOrder_quiet k false w2 doc) as (w3 & d3 & e3 & Hq3 & Hh3 & _);
    [unfold hookFires; simpl; apply andb_false_r | rewrite Hq3] end.
  destruct e3 as [error|]; [|eauto].
  unfold readyHookCatch.
  match goal with |- exists r, saveOrder (S k) false w3 ?doc = _ =>
    destruct (saveOrder_quiet k false w3 doc) as (w4 & d4 & e4 & Hq4 & _) end.
  { unfold hookFires in *. simpl. exact Hh3. }
  rewrite Hq4. eauto.
Qed.

(** * changeStatus *)

Lemma saveOrder_ok_valid fuel isNew w d w' d' :
  saveOrder fuel isNew w d = Some (w', d', None) -> validateOrder d = None.
Proof.
  destruct fuel; [discriminate|]. rewrite saveOrder_S.
  destruct (validateOrder d); [intro H; inversion H | reflexivity].
Qed.

Lemma firstError_last {A} (f : nat -> A -> option Exn) l : forall i x,
  firstError f i (l ++ [x]) = None -> f (i + List.length l)%nat x = None.
Proof.
  induction l as [|y l IH]; intros i x; simpl.
  - rewrite Nat.add_0_r. destruct (f i x); [discriminate|reflexivity].
  - destruct (f i y); [discriminate|]. intro H. apply IH in H.
    rewrite <- Nat.add_succ_comm. exact H.
Qed.

Lemma validateOrder_history d :
  validateOrder d = None -> firstError validateHistoryEntry 0 (statusHistory d) = None.
Proof.
  unfold validateOrder.
  destruct (negb (isSome (quoteId d))); [discriminate|].
  destruct (vehicleSnapshot d); [|discriminate].
  destruct (validateSnapshot v); [discriminate|].
  destruct (negb (truthy (workDescription d))); [discriminate|].
  destruct (estimatedCost d <? 0); [discriminate|].
  destruct (match finalCost d with Some c => c <? 0 | None => false end); [discriminate|].
  destruct (opt_exceeds (additionalNotes d) 2000); [discriminate|].
  destruct (opt_exceeds (additionalWork d) 2000); [discriminate|].
  auto.
Qed.

Lemma validateHistoryEntry_ok i h :
  validateHistoryEntry i h = None ->
  isSome (changedBy h) = true /\ (js_length (notes h) <= 500)%nat.
Proof.
  unfold validateHistoryEntry, exceeds.
  destruct (isSome (changedBy h)); simpl; [|discriminate].
  destruct (Nat.ltb 500 (js_length (notes h))) eqn:E; [discriminate|].
  intros _. split; [reflexivity|]. apply Nat.ltb_ge in E. exact E.
Qed.

(** The document [changeStatus] hands to [save()] once the transition is
    accepted. *)
Lemma changeStatus_valid fuel w o t by_ notes_ :
  validateStatusTransition o t = Valid ->
  exists d,
    changeStatus fuel w o t by_ notes_ = saveOrder fuel false w d /\
    wo_id d = wo_id o /\ quoteId d = quoteId o /\ status d = t /\
    statusHistory d =
      (statusHistory o ++
        [historyEntry (status o) t by_ (now w)
           (match notes_ with Some s => s | None => "" end)])%list /\
    actualDelivery d =
      (if status_eqb t entregado then Some (now w) else actualDelivery o) /\
    wo_createdAt d = wo_createdAt o /\
    readyEmailSent d = readyEmailSent o /\
    notifications d = notifications o.
Proof.
  intro Hv. unfold changeStatus. rewrite Hv.
  destruct (status_eqb t entregado); eexists; repeat split; reflexivity.
Qed.

(** C6: when the transition is refused, [changeStatus] throws the reason
    and changes neither the document nor the store; whatever it returns,
    the store holds either what it held or an order with both the new
    status and the new history entry; and when it succeeds, the document is
    the stored one, has the new status and exactly one more history entry,
    whose fields are the previous status, the new status, the actor, the
    server time and the note, the note having a length of at most 500. It
    returns whenever the ready notification, if due, can reach the
    transport. *)
Theorem C6_changeStatus_history (fuel : nat) (w : World) (o : WorkOrder)
    (t : Status) (by_ : option ObjectId) (notes_ : option string) :
  let note := match notes_ with Some s => s | None => "" end in
  let entry :=
    {| previousStatus := status o; newStatus := t; changedBy := by_;
       changedAt := now w; notes := note |} in
  (forall reason,
     validateStatusTransition o t = Invalid reason ->
     changeStatus fuel w o t by_ notes_ = Some (w, o, Some (Error reason))) /\
  (forall w' o' e,
     changeStatus fuel w o t by_ notes_ = Some (w', o', e) ->
     (orders w' = orders w \/
      exists s, findOrderById w' (wo_id o) = Some s /\ status s = t /\
                statusHistory s = (statusHistory o ++ [entry])%list) /\
     (e = None ->
        findOrderById w' (wo_id o) = Some o' /\
        status o' = t /\
        statusHistory o' = (statusHistory o ++ [entry])%list /\
        by_ <> None /\
        (js_length note <= 500)%nat)) /\
  (validateStatusTransition o t = Valid ->
   t <> listo \/ readyEmailSent o = true \/ reachable w o = true ->
   exists r, changeStatus (S (S fuel)) w o t by_ notes_ = Some r).
Proof.
  cbv zeta. split; [|split].
  - intros reason Hv. unfold changeStatus. rewrite Hv. reflexivity.
  - intros w' o' e.
    destruct (validateStatusTransition o t) as [|reason] eqn:Hv.
    2:{ unfold changeStatus. rewrite Hv. intro H; inversion H; subst.
        split; [left; reflexivity | discriminate]. }
    destruct (changeStatus_valid fuel w o t by_ notes_ Hv)
      as (d & Hd & Hid & _ & Hst & Hh & _).
    unfold historyEntry in Hh.
    rewrite Hd. intro H.
    pose proof (saveOrder_spec fuel false _ _ _ _ _ H) as (Hc & _ & Hstep & Hok).
    split.
    + destruct Hstep as [Ho | (s & Hs & Hcs)]; [left; exact Ho|].
      right. exists s. rewrite <- Hid. split; [exact Hs|].
      core_fields Hcs. split; congruence.
    + intros ->. specialize (Hok eq_refl). rewrite <- Hid.
      split; [exact Hok|].
      apply saveOrder_ok_valid, validateOrder_history in H.
      rewrite Hh in H. apply firstError_last, validateHistoryEntry_ok in H.
      destruct H as (Hby & Hlen). simpl in Hby, Hlen.
      core_fields Hc. repeat split; try congruence.
      destruct by_; [discriminate | discriminate Hby].
  - intros Hv Hcase.
    destruct (changeStatus_valid (S (S fuel)) w o t by_ notes_ Hv)
      as (d & Hd & _ & Hq & Hst & _ & _ & _ & Hflag & _).
    rewrite Hd. apply saveOrder_returns.
    destruct Hcase as [Hnl | [Hsent | Hreach]].
    + left. unfold hookFires. rewrite Hst.
      destruct t; try reflexivity. congruence.
    + left. unfold hookFires. rewrite Hflag, Hsent. apply andb_false_r.
    + right. unfold reachable in *. rewrite Hq. exact Hreach.
Qed.

(** Witness of C6: the step [asignada] to [en_progreso] of the smoke test;
    the entry records both statuses, the actor, the clock reading 5000 and
    the note. *)
Lemma C6_changeStatus_history_witness :
  exists w' o',
    changeStatus 1 (sampleWorld [sampleOrder asignada (Some 7%N)] [] delivers)
      (sampleOrder asignada (Some 7%N)) en_progreso (Some 3%N) (Some "Starting work")
    = Some (w', o', None) /\
    findOrderById w' 100%N = Some o' /\
    status o' = en_progreso /\
    statusHistory o' =
      [{| previousStatus := asignada; newStatus := en_progreso;
          changedBy := Some 3%N; changedAt := 5000; notes := "Starting work" |}].
Proof.
  eexists. eexists. split; [vm_compute; reflexivity|].
  pose proof (C6_changeStatus_history 1
                (sampleWorld [sampleOrder asignada (Some 7%N)] [] delivers)
                (sampleOrder asignada (Some 7%N)) en_progreso (Some 3%N)
                (Some "Starting work")) as H.
  cbv zeta in H. destruct H as (_ & H & _).
  specialize (H _ _ None ltac:(vm_compute; reflexivity)).
  destruct H as (_ & H). specialize (H eq_refl).
  destruct H as (H1 & H2 & H3 & _). repeat split; assumption.
Defined.

(** [WorkOrder.create] stamps the creation time with the clock. *)
Lemma createWorkOrder_createdAt fuel w qi snap wd cost st w' o e :
  createWorkOrder fuel w qi snap wd cost st = Some (w', o, e) ->
  wo_createdAt o = now w.
Proof.
  unfold createWorkOrder. intro H.
  apply saveOrder_spec in H. destruct H as (Hc & _). core_fields Hc. assumption.
Qed.

(** C9, counterexample: an order whose creation time is the reading
    10000 is stored while the server clock reads 5000 (the clock was set
    back after the order was created, or the order was written by a host
    whose clock is ahead). Its delivery succeeds and stamps 5000, a time
    before the creation time. *)
Lemma C9_counterexample :
  (exists w' o',
     changeStatus 1 worldClockBehind orderCreatedAhead entregado (Some 3%N) None
     = Some (w', o', None) /\
     findOrderById w' 100%N = Some o' /\
     actualDelivery o' = Some 5000 /\ wo_createdAt o' = 10000) /\
  ~ delivered_after_created.
Proof.
  split.
  - eexists. eexists. split; [vm_compute; reflexivity|].
    split; [vm_compute; reflexivity|]. split; reflexivity.
  - intro H.
    assert (Hr : exists w' o',
               changeStatus 1 worldClockBehind orderCreatedAhead entregado
                 (Some 3%N) None = Some (w', o', None) /\
               actualDelivery o' = Some 5000 /\ wo_createdAt o' = 10000).
    { eexists. eexists. split; [vm_compute; reflexivity|]. split; reflexivity. }
    destruct Hr as (w' & o' & Hr & Hd & Hc).
    assert (Hstored : findOrderById worldClockBehind (wo_id orderCreatedAhead)
                      = Some orderCreatedAhead) by reflexivity.
    pose proof (H _ _ _ _ _ _ _ _ Hstored Hr Hd) as Hle.
    rewrite Hc in Hle. revert Hle. apply Z.lt_nge. reflexivity.
Qed.

(** C9 (amended): a successful change to [entregado] sets [actualDelivery]
    to the server time of the change, in the document and in the store,
    and leaves the creation time as it was; that time is at or after the
    creation time exactly when the clock at the change is not behind the
    creation time, which holds for an order stamped by [WorkOrder.create]
    on a clock that has not gone back since; a change to any other status
    leaves [actualDelivery] as it was. *)
Theorem C9_actual_delivery (fuel : nat) (w : World) (o : WorkOrder)
    (t : Status) (by_ : option ObjectId) (notes_ : option string)
    (w' : World) (o' : WorkOrder) :
  changeStatus fuel w o t by_ notes_ = Some (w', o', None) ->
  findOrderById w' (wo_id o) = Some o' /\
  wo_createdAt o' = wo_createdAt o /\
  (t = entregado ->
     actualDelivery o' = Some (now w) /\
     (forall delivered,
        actualDelivery o' = Some delivered ->
        (wo_createdAt o' <= delivered <-> wo_createdAt o <= now w)) /\
     (forall fuel0 w0 qi snap wd cost st w1 o0 e0,
        createWorkOrder fuel0 w0 qi snap wd cost st = Some (w1, o0, e0) ->
        wo_createdAt o = wo_createdAt o0 ->
        now w0 <= now w ->
        exists delivered, actualDelivery o' = Some delivered /\
                          wo_createdAt o' <= delivered)) /\
  (t <> entregado -> actualDelivery o' = actualDelivery o).
Proof.
  intro H.
  destruct (validateStatusTransition o t) as [|reason] eqn:Hv.
  2:{ unfold changeStatus in H. rewrite Hv in H. discriminate H. }
  destruct (changeStatus_valid fuel w o t by_ notes_ Hv)
    as (d & Hd & Hid & _ & _ & _ & Hdel & Hcr & _).
  rewrite Hd in H.
  pose proof (saveOrder_spec fuel false _ _ _ _ _ H) as (Hc & _ & _ & Hok).
  specialize (Hok eq_refl). rewrite Hid in Hok. core_fields Hc.
  assert (Hcr' : wo_createdAt o' = wo_createdAt o) by congruence.
  assert (Hdel' : actualDelivery o' =
                  if status_eqb t entregado then Some (now w) else actualDelivery o)
    by congruence.
  split; [exact Hok|]. split; [exact Hcr'|]. split.
  - intros ->. simpl in Hdel'. split; [exact Hdel'|]. split.
    + intros delivered Hdelivered. rewrite Hdel' in Hdelivered.
      inversion Hdelivered; subst delivered. rewrite Hcr'. tauto.
    + intros fuel0 w0 qi snap wd cost st w1 o0 e0 Hcreate Hsame Hclock.
      apply createWorkOrder_createdAt in Hcreate.
      exists (now w). split; [exact Hdel'|]. rewrite Hcr', Hsame, Hcreate.
      exact Hclock.
  - intro Hne. rewrite Hdel'. destruct t; try reflexivity. congruence.
Qed.

(** Witness of C9: a ready order created at the clock reading 2000 is
    delivered at the reading 5000. *)
Lemma C9_actual_delivery_witness :
  exists w' o',
    changeStatus 1 (sampleWorld [orderReady] [] delivers) orderReady
      entregado (Some 3%N) None
    = Some (w', o', None) /\
    actualDelivery o' = Some 5000 /\
    wo_createdAt o' = 2000 /\
    (wo_createdAt o' <= 5000 <-> 2000 <= 5000).
Proof.
  eexists. eexists. split; [vm_compute; reflexivity|].
  pose proof (C9_actual_delivery 1
                (sampleWorld [orderReady] [] delivers) orderReady
                entregado (Some 3%N) None _ _ ltac:(vm_compute; reflexivity)) as H.
  destruct H as (_ & Hcr & H & _). destruct (H eq_refl) as (H1 & H2 & _).
  split; [exact H1|]. split; [exact Hcr|]. exact (H2 _ H1).
Defined.

(** * The ready notification *)

(** C8, the code at the failing input: the order goes to [listo] while the
    transport refuses every one of the three attempts, so that
    [sendWithRetry] returns [{ success: false }]; the hook does not look at
    the result, sets [readyEmailSent] and logs the notification as
    [enviado], both in the document and in the store. *)
Theorem C8_ready_flag_after_failed_send :
  (forall n, transport worldSmtpDown n = Some "SMTP down") /\
  snd (sendWithRetry 2 worldSmtpDown)
    = {| success := false; send_error := Some "SMTP down" |} /\
  exists w' o',
    changeStatus 2 worldSmtpDown orderInProgress listo (Some 3%N)
      (Some "Work completed") = Some (w', o', None) /\
    mailCalls w' = 3%nat /\
    status o' = listo /\
    readyEmailSent o' = true /\
    notifications o' = [sentNotification 5000] /\
    findOrderById w' (wo_id o') = Some o'.
Proof.
  split; [intro n; reflexivity|]. split; [reflexivity|].
  eexists. eexists. split; [vm_compute; reflexivity|].
  repeat split.
Qed.

(** When the transport delivers, the same transition logs one [enviado]
    entry and sets the flag. *)
Lemma ready_notification_delivered :
  exists w' o',
    changeStatus 2 (sampleWorld [orderInProgress] [] delivers) orderInProgress
      listo (Some 3%N) (Some "Work completed") = Some (w', o', None) /\
    mailCalls w' = 1%nat /\
    readyEmailSent o' = true /\
    notifications o' = [sentNotification 5000] /\
    findOrderById w' (wo_id o') = Some o'.
Proof.
  eexists. eexists. split; [vm_compute; reflexivity|]. repeat split.
Qed.

(** Once the flag is set, a save adds nothing to the notification log:
    [saveOrder_quiet] with [readyEmailSent d = true]. *)
Lemma saved_again_no_second_entry k w d :
  readyEmailSent d = true ->
  exists w' d' e,
    saveOrder (S k) false w d = Some (w', d', e) /\
    notifications d' = notifications d.
Proof.
  intro Hs.
  destruct (saveOrder_quiet k false w d) as (w' & d' & e & H & _ & Hn).
  - unfold hookFires. rewrite Hs. apply andb_false_r.
  - eauto.
Qed.

Lemma sendReadyNotification_unreachable w d :
  reachable w d = false -> exists error, sendReadyNotification w d = (w, inl error).
Proof.
  unfold reachable, sendReadyNotification.
  destruct (match quoteId d with Some i => findQuoteById w i | None => None end);
    [|eauto].
  destruct (match clientId q with Some i => findClientById w i | None => None end);
    [|eauto].
  intros ->. simpl. eauto.
Qed.

Lemma otherOrders_replace d l :
  otherOrders d (replaceOrder d l) = otherOrders d l.
Proof.
  unfold otherOrders. induction l as [|o rest IH]; simpl; [reflexivity|].
  destruct (N.eqb (wo_id o) (wo_id d)) eqn:E; simpl.
  - rewrite N.eqb_refl. reflexivity.
  - rewrite E. simpl. rewrite IH. reflexivity.
Qed.

(** When [sendReadyNotification] throws on every call (the client or its
    email is missing), the catch block saves the document, which runs the
    hook, which throws again: in this model of [save()] the nesting never
    ends, whatever the bound. *)
Lemma ready_hook_never_returns fuel : forall w d number,
  validateOrder d = None ->
  hookFires d = true ->
  reachable w d = false ->
  faults w = [] ->
  orderNumber d = Some number -> truthy number = true ->
  isSome (findOrderById w (wo_id d)) = true ->
  orderIndexConflict d (otherOrders d (orders w)) = None ->
  saveOrder fuel false w d = None.
Proof.
  induction fuel as [|fuel IH]; intros w d number Hv Hh Hr Hf Hn Hn' Hfound Hidx;
    [reflexivity|].
  rewrite saveOrder_S, Hv.
  assert (Hpre : preSaveOrder w d = d)
    by (unfold preSaveOrder; rewrite Hn, Hn'; reflexivity).
  rewrite Hpre. unfold writeOrder, takeFault. rewrite Hf, Hfound. simpl.
  rewrite Hidx. unfold postSaveOrder. fold (hookFires d). rewrite Hh.
  set (w1 := set_orders (replaceOrder d (orders w)) w).
  assert (Hr1 : reachable w1 d = false) by exact Hr.
  destruct (sendReadyNotification_unreachable w1 d Hr1) as (error & Hs).
  rewrite Hs. unfold readyHookCatch.
  apply (IH w1 _ number); try assumption.
  - unfold w1, findOrderById. simpl.
    unfold findOrderById in Hfound. rewrite (find_replaceOrder d _ Hfound). reflexivity.
  - unfold w1. simpl.
    change (otherOrders _ (replaceOrder d (orders w)))
      with (otherOrders d (replaceOrder d (orders w))).
    rewrite otherOrders_replace. exact Hidx.
Qed.

Lemma ready_notification_without_client fuel :
  changeStatus fuel worldNoClient orderInProgress listo (Some 3%N) None = None.
Proof.
  unfold changeStatus. simpl.
  eapply ready_hook_never_returns; reflexivity.
Qed.

(** * The token protocol *)

Lemma hasToken_eq tok t : hasToken tok t = true <-> token t = tok.
Proof. unfold hasToken. apply String.eqb_eq. Qed.

Lemma hasToken_neq tok t : hasToken tok t = false <-> token t <> tok.
Proof. unfold hasToken. apply String.eqb_neq. Qed.

Lemma find_firstWith tok l t :
  js_find (hasToken tok) l = Some t <-> firstWith tok l t.
Proof.
  unfold js_find, firstWith. split.
  - revert t. induction l as [|x rest IH]; simpl; intros t H; [discriminate|].
    destruct (hasToken tok x) eqn:E.
    + inversion H; subst. exists [], rest. repeat split.
      * apply hasToken_eq; assumption.
      * intros u [].
    + destruct (IH t H) as (b & a & Hl & Ht & Hb).
      exists (x :: b), a. subst rest. repeat split; auto.
      intros u [<- | Hin]; [apply hasToken_neq; assumption | auto].
  - intros (b & a & -> & Ht & Hb).
    induction b as [|x b IH]; simpl.
    + apply hasToken_eq in Ht. rewrite Ht. reflexivity.
    + assert (E : hasToken tok x = false)
        by (apply hasToken_neq, Hb; left; reflexivity).
      rewrite E. apply IH. intros u Hu. apply Hb. right. assumption.
Qed.

Lemma find_none_absent tok l :
  js_find (hasToken tok) l = None <-> forall u, In u l -> token u <> tok.
Proof.
  unfold js_find. split.
  - intros H u Hu. apply hasToken_neq. exact (find_none _ _ H u Hu).
  - induction l as [|x rest IH]; simpl; intro H; [reflexivity|].
    assert (E : hasToken tok x = false) by (apply hasToken_neq, H; left; reflexivity).
    rewrite E. apply IH. intros u Hu. apply H. right. assumption.
Qed.

Lemma find_present tok l :
  In tok (map token l) -> exists t, js_find (hasToken tok) l = Some t.
Proof.
  intro Hin. destruct (js_find (hasToken tok) l) eqn:E; [eauto|].
  exfalso. apply in_map_iff in Hin. destruct Hin as (u & Hu & Hin).
  exact (proj1 (find_none_absent tok l) E u Hin Hu).
Qed.

Lemma quoteStatus_eqb_eq a b : quoteStatus_eqb a b = true <-> a = b.
Proof. destruct a, b; simpl; split; intro H; congruence. Qed.

(** A failed validation ends both public handlers with the error page and
    the world as it was. *)
Lemma handlers_refuse w q tok error id ip ua fuel :
  findQuoteById w id = Some q ->
  validateToken w q tok = TokenInvalid error ->
  (exists page, approveQuote fuel w id (Some tok) ip ua = Some (w, page)) /\
  (exists page, rejectQuote w id (Some tok) ip ua = (w, page)).
Proof.
  intros Hq Hv. unfold approveQuote, rejectQuote.
  destruct (negb (truthy tok)); [eauto|].
  rewrite Hq, Hv. eauto.
Qed.

(** C4: [validateToken] is a function of the quote, the clock and the
    string, and returns: the invalid-token error when no entry of the quote
    holds the string; otherwise, for the first entry holding it, the
    token-used error when the entry is marked used, else the expired error
    when [validUntil] is before the current time, else the
    already-processed error when the status is not [pending], else success
    with the entry's type. In each failure case the redemption handlers
    answer with the error and leave the world as it was. *)
Theorem C4_validateToken (w : World) (q : Quote) (tok : string) :
  ((forall u, In u (approvalTokens q) -> token u <> tok) ->
     validateToken w q tok = TokenInvalid msg_invalid_token) /\
  (forall t,
     firstWith tok (approvalTokens q) t ->
     (used t = true -> validateToken w q tok = TokenInvalid msg_token_used) /\
     (used t = false -> validUntil q < now w ->
        validateToken w q tok = TokenInvalid msg_expired) /\
     (used t = false -> now w <= validUntil q -> q_status q <> pending ->
        validateToken w q tok = TokenInvalid msg_already_processed) /\
     (used t = false -> now w <= validUntil q -> q_status q = pending ->
        validateToken w q tok = TokenValid (type t) t)) /\
  (forall error id ip ua fuel,
     validateToken w q tok = TokenInvalid error ->
     findQuoteById w id = Some q ->
     (exists page, approveQuote fuel w id (Some tok) ip ua = Some (w, page)) /\
     (exists page, rejectQuote w id (Some tok) ip ua = (w, page))).
Proof.
  split; [|split].
  - intro H. unfold validateToken.
    rewrite (proj2 (find_none_absent tok _) H). reflexivity.
  - intros t Ht. apply find_firstWith in Ht. unfold validateToken. rewrite Ht.
    repeat split.
    + intros ->. reflexivity.
    + intros -> Hexp. apply Z.ltb_lt in Hexp. rewrite Hexp. reflexivity.
    + intros -> Hexp Hst. apply Z.ltb_ge in Hexp. rewrite Hexp.
      destruct (quoteStatus_eqb (q_status q) pending) eqn:E; [|reflexivity].
      apply quoteStatus_eqb_eq in E. contradiction.
    + intros -> Hexp Hst. apply Z.ltb_ge in Hexp. rewrite Hexp, Hst. reflexivity.
  - intros error id ip ua fuel Hv Hq. eapply handlers_refuse; eassumption.
Qed.

(** Witness of C4: the approve token of the sample quote, still valid. *)
Lemma C4_validateToken_witness :
  validateToken (sampleWorld [] [] delivers) sampleQuote "tok-approve"
  = TokenValid approve (freshToken "tok-approve" approve).
Proof.
  pose proof (C4_validateToken (sampleWorld [] [] delivers) sampleQuote "tok-approve")
    as (_ & H & _).
  specialize (H (freshToken "tok-approve" approve)).
  assert (Hf : firstWith "tok-approve" (approvalTokens sampleQuote)
                 (freshToken "tok-approve" approve)).
  { exists [], [freshToken "tok-reject" reject]. repeat split. intros u []. }
  destruct (H Hf) as (_ & _ & _ & Hok).
  apply Hok; [reflexivity | vm_compute; discriminate | reflexivity].
Defined.

(** * Redemption *)

Lemma takeFault_quoteEnv w b w1 :
  takeFault w = (b, w1) -> quoteEnv w1 = quoteEnv w /\ quotes w1 = quotes w.
Proof.
  unfold takeFault. destruct (faults w); intro H; inversion H; subst; auto.
Qed.

Lemma find_replaceQuote doc l :
  isSome (find (fun q => N.eqb (q_id q) (q_id doc)) l) = true ->
  find (fun q => N.eqb (q_id q) (q_id doc)) (replaceQuote doc l) = Some doc.
Proof.
  induction l as [|o rest IH]; simpl; [discriminate|].
  destruct (N.eqb (q_id o) (q_id doc)) eqn:E; simpl.
  - intros _. rewrite N.eqb_refl. reflexivity.
  - intro H. rewrite E. auto.
Qed.

Lemma find_replaceQuote_other doc l i :
  i <> q_id doc ->
  find (fun q => N.eqb (q_id q) i) (replaceQuote doc l)
  = find (fun q => N.eqb (q_id q) i) l.
Proof.
  intro Hne. induction l as [|o rest IH]; simpl; [reflexivity|].
  destruct (N.eqb (q_id o) (q_id doc)) eqn:E; simpl.
  - apply N.eqb_eq in E.
    assert (E1 : N.eqb (q_id doc) i = false) by (apply N.eqb_neq; congruence).
    assert (E2 : N.eqb (q_id o) i = false) by (apply N.eqb_neq; congruence).
    rewrite E1, E2. reflexivity.
  - destruct (N.eqb (q_id o) i); [reflexivity | exact IH].
Qed.

Lemma writeQuote_spec w d w1 e :
  writeQuote w d = (w1, e) ->
  quoteEnv w1 = quoteEnv w /\
  match e with
  | Some _ => quotes w1 = quotes w
  | None =>
      quotes w1 = replaceQuote d (quotes w) /\
      findQuoteById w1 (q_id d) = Some d /\
      isSome (findQuoteById w (q_id d)) = true
  end.
Proof.
  unfold writeQuote. destruct (takeFault w) as [fault w0] eqn:Hf.
  apply takeFault_quoteEnv in Hf. destruct Hf as (He & Hq).
  destruct fault; [intro H; inversion H; subst; auto|].
  destruct (findQuoteById w0 (q_id d)) eqn:Hfind; simpl.
  - destruct (quoteIndexConflict d (otherQuotes d (quotes w0))).
    + intro H; inversion H; subst; auto.
    + intro H; inversion H; subst. simpl. repeat split; auto.
      * rewrite Hq. reflexivity.
      * unfold findQuoteById. simpl. apply find_replaceQuote.
        unfold findQuoteById in Hfind. rewrite Hfind. reflexivity.
      * unfold findQuoteById in *. rewrite <- Hq, Hfind. reflexivity.
  - intro H; inversion H; subst; auto.
Qed.

Lemma preSaveQuote_fields w q :
  q_id (preSaveQuote w q) = q_id q /\
  q_status (preSaveQuote w q) = q_status q /\
  approvalTokens (preSaveQuote w q) = approvalTokens q /\
  workOrderId (preSaveQuote w q) = workOrderId q /\
  vehicle (preSaveQuote w q) = vehicle q /\
  q_estimatedCost (preSaveQuote w q) = q_estimatedCost q /\
  description (preSaveQuote w q) = description q /\
  proposedWork (preSaveQuote w q) = proposedWork q /\
  validUntil (preSaveQuote w q) = validUntil q /\
  clientId (preSaveQuote w q) = clientId q.
Proof. unfold preSaveQuote. destruct (negb _); repeat split; reflexivity. Qed.

Lemma saveQuote_spec w q w' q' e :
  saveQuote w q = (w', q', e) ->
  quoteEnv w' = quoteEnv w /\
  match e with
  | Some _ => quotes w' = quotes w
  | None =>
      q' = preSaveQuote w q /\
      validateQuote (maxYear w) q = None /\
      quotes w' = replaceQuote q' (quotes w) /\
      findQuoteById w' (q_id q) = Some q'
  end.
Proof.
  unfold saveQuote. destruct (validateQuote (maxYear w) q).
  { intro H; inversion H; subst; auto. }
  destruct (writeQuote w (preSaveQuote w q)) as [w1 [err|]] eqn:Hw;
    apply writeQuote_spec in Hw; destruct Hw as (He & Hres);
    intro H; inversion H; subst; split; auto.
  destruct Hres as (Hq & Hf & _).
  destruct (preSaveQuote_fields w q) as (Hid & _).
  rewrite Hid in Hf. auto.
Qed.

(** The token list after [useToken]. *)
Lemma burnt_others tok at_ ip ua l u :
  In u (map (invalidateOther tok at_) (redeemFirst tok at_ ip ua l)) ->
  token u <> tok -> used u = true /\ usedAt u = Some at_.
Proof.
  intros Hin Hne. apply in_map_iff in Hin. destruct Hin as (v & <- & _).
  unfold invalidateOther in *.
  destruct (hasToken tok v) eqn:E; simpl in *.
  - apply hasToken_eq in E. contradiction.
  - split; reflexivity.
Qed.

Lemma hasToken_invalidateOther tok at_ v :
  hasToken tok (invalidateOther tok at_ v) = hasToken tok v.
Proof. unfold invalidateOther. destruct (negb _); reflexivity. Qed.

Lemma invalidateOther_same tok at_ v :
  hasToken tok v = true -> invalidateOther tok at_ v = v.
Proof. intro H. unfold invalidateOther. rewrite H. reflexivity. Qed.

Lemma burnt_first tok at_ ip ua l t :
  js_find (hasToken tok) l = Some t ->
  js_find (hasToken tok) (map (invalidateOther tok at_) (redeemFirst tok at_ ip ua l))
  = Some (redeem t at_ ip ua).
Proof.
  unfold js_find. induction l as [|x rest IH]; simpl; [discriminate|].
  destruct (hasToken tok x) eqn:E; simpl; rewrite hasToken_invalidateOther.
  - intro H; inversion H; subst.
    assert (E' : hasToken tok (redeem t at_ ip ua) = true) by exact E.
    rewrite E'. rewrite (invalidateOther_same _ _ _ E'). reflexivity.
  - intro H. rewrite E. apply IH. exact H.
Qed.

Lemma burnt_strings tok at_ ip ua l :
  map token (map (invalidateOther tok at_) (redeemFirst tok at_ ip ua l))
  = map token l.
Proof.
  rewrite map_map.
  assert (H : forall v, token (invalidateOther tok at_ v) = token v)
    by (intro v; unfold invalidateOther; destruct (negb _); reflexivity).
  induction l as [|x rest IH]; simpl; [reflexivity|].
  destruct (hasToken tok x); simpl.
  - rewrite H. simpl. f_equal. apply map_ext. exact H.
  - rewrite H, IH. reflexivity.
Qed.

Lemma burnt_types tok at_ ip ua l :
  map type (map (invalidateOther tok at_) (redeemFirst tok at_ ip ua l))
  = map type l.
Proof.
  rewrite map_map.
  assert (H : forall v, type (invalidateOther tok at_ v) = type v)
    by (intro v; unfold invalidateOther; destruct (negb _); reflexivity).
  induction l as [|x rest IH]; simpl; [reflexivity|].
  destruct (hasToken tok x); simpl.
  - rewrite H. simpl. f_equal. apply map_ext. exact H.
  - rewrite H, IH. reflexivity.
Qed.

Lemma redeemFirst_nodup tok at_ ip ua l v :
  NoDup (map token l) ->
  In v (redeemFirst tok at_ ip ua l) -> token v = tok -> used v = true.
Proof.
  induction l as [|x rest IH]; simpl; intros Hnd Hin Hv; [contradiction|].
  apply NoDup_cons_iff in Hnd. destruct Hnd as [Hnotin Hnd'].
  destruct (hasToken tok x) eqn:E.
  - destruct Hin as [<- | Hin]; [reflexivity|].
    exfalso. apply Hnotin. apply hasToken_eq in E. rewrite E, <- Hv.
    apply in_map. exact Hin.
  - destruct Hin as [<- | Hin].
    + apply hasToken_neq in E. contradiction.
    + apply IH; assumption.
Qed.

Lemma burnt_all tok at_ ip ua l u :
  NoDup (map token l) ->
  In u (map (invalidateOther tok at_) (redeemFirst tok at_ ip ua l)) ->
  used u = true.
Proof.
  intros Hnd Hin.
  destruct (String.eqb (token u) tok) eqn:E.
  - apply String.eqb_eq in E.
    apply in_map_iff in Hin. destruct Hin as (v & Hv & Hin).
    unfold invalidateOther in Hv. destruct (hasToken tok v) eqn:Ev; simpl in Hv.
    + subst u. eapply redeemFirst_nodup; eauto.
    + subst u. simpl in E. apply hasToken_neq in Ev. contradiction.
  - apply String.eqb_neq in E. eapply burnt_others; eauto.
Qed.

(** After a successful [useToken] the quote is stored, and the entry that
    [find] returns for any string of the quote is marked used. *)
Lemma tokens_after_redemption w q tok ip ua t w' q' :
  firstWith tok (approvalTokens q) t ->
  useToken w q tok ip ua = (w', q', None) ->
  findQuoteById w' (q_id q) = Some q' /\
  approvalTokens q' =
    map (invalidateOther tok (now w))
        (redeemFirst tok (now w) ip ua (approvalTokens q)) /\
  forall s, In s (map token (approvalTokens q)) ->
            exists u, js_find (hasToken s) (approvalTokens q') = Some u /\
                      used u = true.
Proof.
  intros Hfirst Huse. apply find_firstWith in Hfirst.
  unfold useToken in Huse. rewrite Hfirst in Huse.
  apply saveQuote_spec in Huse. destruct Huse as (_ & Hq' & _ & _ & Hfound).
  simpl in Hfound. split; [exact Hfound|].
  assert (Htok : approvalTokens q' =
                 map (invalidateOther tok (now w))
                     (redeemFirst tok (now w) ip ua (approvalTokens q))).
  { rewrite Hq'. destruct (preSaveQuote_fields w
      (set_approvalTokens
         (map (invalidateOther tok (now w))
              (redeemFirst tok (now w) ip ua (approvalTokens q))) q))
      as (_ & _ & H & _). exact H. }
  split; [exact Htok|].
  intros s Hs.
  rewrite <- (burnt_strings tok (now w) ip ua), <- Htok in Hs.
  destruct (find_present _ _ Hs) as (u & Hu). exists u. split; [exact Hu|].
  destruct (String.eqb s tok) eqn:E.
  - apply String.eqb_eq in E. subst s.
    rewrite Htok, (burnt_first tok (now w) ip ua _ _ Hfirst) in Hu.
    inversion Hu. reflexivity.
  - apply String.eqb_neq in E.
    pose proof (proj1 (find_firstWith _ _ _) Hu) as (b & a & Hl & Htk & _).
    assert (Hin : In u (approvalTokens q'))
      by (rewrite Hl; apply in_or_app; right; left; reflexivity).
    rewrite Htok in Hin.
    apply (burnt_others tok (now w) ip ua _ u Hin). congruence.
Qed.

(** C5: a successful [useToken] on a string held by the quote stores the
    quote; the first entry holding the presented string is then marked
    used, its [usedAt] is the server time, its [ipAddress] and [userAgent]
    are the ones given, and its type is as before; every entry holding
    another string is marked used at the same time as well (all entries,
    when the strings are distinct, as for a generated pair); the strings
    and types are kept. Afterwards
    [validateToken] answers token-used for every string of the quote, and
    the approve and reject handlers refuse it with that error and leave the
    world as it is. *)
Theorem C5_useToken_burns_all (w : World) (q : Quote) (tok : string)
    (ip ua : option string) (t : ApprovalToken) (w' : World) (q' : Quote) :
  firstWith tok (approvalTokens q) t ->
  useToken w q tok ip ua = (w', q', None) ->
  findQuoteById w' (q_id q) = Some q' /\
  (exists u,
     firstWith tok (approvalTokens q') u /\
     type u = type t /\ used u = true /\ usedAt u = Some (now w) /\
     ipAddress u = ip /\ userAgent u = ua) /\
  (forall u, In u (approvalTokens q') -> token u <> tok ->
     used u = true /\ usedAt u = Some (now w)) /\
  (NoDup (map token (approvalTokens q)) ->
     forall u, In u (approvalTokens q') -> used u = true) /\
  map token (approvalTokens q') = map token (approvalTokens q) /\
  map type (approvalTokens q') = map type (approvalTokens q) /\
  (forall s, In s (map token (approvalTokens q)) ->
     (forall w2, validateToken w2 q' s = TokenInvalid msg_token_used) /\
     (truthy s = true -> forall fuel ip2 ua2,
        approveQuote fuel w' (q_id q) (Some s) ip2 ua2
          = Some (w', Page 400 msg_token_used) /\
        rejectQuote w' (q_id q) (Some s) ip2 ua2 = (w', Page 400 msg_token_used))).
Proof.
  intros Hfirst Huse.
  destruct (tokens_after_redemption w q tok ip ua t w' q' Hfirst Huse)
    as (Hfound & Htok & Hfind).
  apply find_firstWith in Hfirst.
  assert (Hused : forall s, In s (map token (approvalTokens q)) ->
                  forall w2, validateToken w2 q' s = TokenInvalid msg_token_used).
  { intros s Hs w2. unfold validateToken.
    destruct (Hfind s Hs) as (u & Hu & Hun). rewrite Hu, Hun. reflexivity. }
  split; [exact Hfound|]. split.
  { exists (redeem t (now w) ip ua). split.
    - apply find_firstWith. rewrite Htok.
      exact (burnt_first tok (now w) ip ua _ _ Hfirst).
    - simpl. repeat split; reflexivity. }
  repeat split.
  - rewrite Htok in H. eapply burnt_others; eauto.
  - rewrite Htok in H. eapply burnt_others; eauto.
  - intros Hnd u Hu. rewrite Htok in Hu. eapply burnt_all; eauto.
  - rewrite Htok. apply burnt_strings.
  - rewrite Htok. apply burnt_types.
  - apply Hused. assumption.
  - unfold approveQuote. rewrite H0. simpl. rewrite Hfound.
    rewrite (Hused s H w'). reflexivity.
  - unfold rejectQuote. rewrite H0. simpl. rewrite Hfound.
    rewrite (Hused s H w'). reflexivity.
Qed.

(** Witness of C5: the reject token of the sample quote is redeemed; both
    tokens are then used, and a second redemption is refused. *)
Lemma C5_useToken_burns_all_witness :
  exists w' q',
    useToken (sampleWorld [] [] delivers) sampleQuote "tok-reject"
      (Some "10.0.0.1") (Some "curl") = (w', q', None) /\
    (forall u, In u (approvalTokens q') -> used u = true) /\
    (exists u,
       firstWith "tok-reject" (approvalTokens q') u /\
       type u = reject /\ used u = true /\ usedAt u = Some 5000 /\
       ipAddress u = Some "10.0.0.1" /\ userAgent u = Some "curl") /\
    rejectQuote w' 1%N (Some "tok-reject") (Some "10.0.0.1") (Some "curl")
      = (w', Page 400 msg_token_used).
Proof.
  eexists. eexists. split; [vm_compute; reflexivity|].
  assert (Hf : firstWith "tok-reject" (approvalTokens sampleQuote)
                 (freshToken "tok-reject" reject)).
  { exists [freshToken "tok-approve" approve], []. repeat split.
    intros u [<- | []]. discriminate. }
  pose proof (C5_useToken_burns_all (sampleWorld [] [] delivers) sampleQuote
                "tok-reject" (Some "10.0.0.1") (Some "curl") _ _ _ Hf
                ltac:(vm_compute; reflexivity))
    as (_ & Hpresented & _ & Hall & _ & _ & Hsecond).
  split; [|split; [exact Hpresented|]].
  - apply Hall. vm_compute.
    repeat constructor; simpl; intuition discriminate.
  - destruct (Hsecond "tok-reject" ltac:(simpl; tauto)) as (_ & H2).
    destruct (H2 eq_refl 1%nat (Some "10.0.0.1") (Some "curl")) as (_ & H3).
    exact H3.
Defined.

(** * Approval *)

Lemma existsb_false {A} (f : A -> bool) l :
  existsb f l = false -> forall x, In x l -> f x = false.
Proof.
  induction l as [|y l IH]; simpl; intros H x Hin; [contradiction|].
  apply orb_false_iff in H. destruct H as [Hy Hl].
  destruct Hin as [<- | Hin]; auto.
Qed.

Lemma orderIndexConflict_none d l :
  orderIndexConflict d l = None ->
  forall x, In x l -> opt_eqb N.eqb (quoteId x) (quoteId d) = false.
Proof.
  unfold orderIndexConflict.
  destruct (existsb (fun o => opt_eqb String.eqb (orderNumber o) (orderNumber d)) l);
    [discriminate|].
  destruct (existsb (fun o => opt_eqb N.eqb (quoteId o) (quoteId d)) l) eqn:E;
    [discriminate|].
  intros _. exact (existsb_false _ _ E).
Qed.

(** [WorkOrder.create] of an order in [pendiente_asignacion]: it returns at
    the first level, and either throws with the collection as it was or
    appends the new order. *)
Lemma createWorkOrder_spec k w qi snap wd cost :
  exists w' o e,
    createWorkOrder (S k) w qi snap wd cost pendiente_asignacion = Some (w', o, e) /\
    quotes w' = quotes w /\ clients w' = clients w /\ now w' = now w /\
    maxYear w' = maxYear w /\
    match e with
    | Some _ => orders w' = orders w
    | None =>
        orders w' = (orders w ++ [o])%list /\
        findOrderById w (wo_id o) = None /\
        (forall x, In x (orders w) -> opt_eqb N.eqb (quoteId x) qi = false) /\
        quoteId o = qi /\ status o = pendiente_asignacion /\
        vehicleSnapshot o = snap /\ estimatedCost o = cost /\
        workDescription o = wd /\ mechanicId o = None /\
        statusHistory o = [] /\ wo_createdAt o = now w
    end.
Proof.
  unfold createWorkOrder. rewrite saveOrder_S.
  set (doc := newWorkOrder w qi snap wd cost pendiente_asignacion).
  set (w0 := set_nextId (N.succ (nextId w)) w).
  destruct (validateOrder doc).
  { do 3 eexists. split; [reflexivity|]. repeat split. }
  unfold writeOrder.
  destruct (takeFault w0) as [fault w1] eqn:Hf.
  apply takeFault_spec in Hf. destruct Hf as (He & Ho & _). env_fields He.
  destruct fault.
  { do 3 eexists. split; [reflexivity|]. repeat split; assumption. }
  destruct (findOrderById w1 (wo_id (preSaveOrder w0 doc))) eqn:Hfind; simpl.
  { do 3 eexists. split; [reflexivity|]. repeat split; assumption. }
  destruct (orderIndexConflict (preSaveOrder w0 doc) (orders w1)) eqn:Hidx.
  { do 3 eexists. split; [reflexivity|]. repeat split; assumption. }
  unfold postSaveOrder.
  change (status (preSaveOrder w0 doc)) with pendiente_asignacion.
  cbn [status_eqb andb].
  do 3 eexists. split; [reflexivity|].
  repeat split; try assumption; try reflexivity.
  - simpl. rewrite Ho. reflexivity.
  - rewrite <- (findOrderById_orders w w1 _ Ho). exact Hfind.
  - intros x Hx. change (orders w) with (orders w0) in Hx. rewrite <- Ho in Hx.
    exact (orderIndexConflict_none _ _ Hidx x Hx).
Qed.

Lemma validateQuote_status y s q :
  validateQuote y (set_q_status s q) = validateQuote y q.
Proof. reflexivity. Qed.

Lemma validateQuote_link y v q :
  validateQuote y (set_workOrderId v q) = validateQuote y q.
Proof. reflexivity. Qed.

Lemma validateQuote_preSave y w q :
  validateQuote y (preSaveQuote w q) = validateQuote y q.
Proof. unfold preSaveQuote. destruct (negb _); reflexivity. Qed.

Lemma preSaveQuote_numbered w q :
  match quoteNumber (preSaveQuote w q) with Some s => truthy s | None => false end = true.
Proof.
  unfold preSaveQuote.
  destruct (match quoteNumber q with Some s => truthy s | None => false end) eqn:E;
    simpl; [exact E | reflexivity].
Qed.

Lemma otherQuotes_replace d l :
  otherQuotes d (replaceQuote d l) = otherQuotes d l.
Proof.
  unfold otherQuotes. induction l as [|o rest IH]; simpl; [reflexivity|].
  destruct (N.eqb (q_id o) (q_id d)) eqn:E; simpl.
  - rewrite N.eqb_refl. reflexivity.
  - rewrite E. simpl. rewrite IH. reflexivity.
Qed.

(** A quote that has just been saved is saved again, with another status
    or link, whenever the datastore accepts the write: neither a validator
    nor an index can refuse it. *)
Lemma saveQuote_again w q w1 q1 (change : Quote -> Quote) :
  saveQuote w q = (w1, q1, None) ->
  (forall x, validateQuote (maxYear w) (change x) = validateQuote (maxYear w) x) ->
  (forall x, quoteNumber (change x) = quoteNumber x) ->
  (forall x, q_id (change x) = q_id x) ->
  nextWriteAccepted w1 = true ->
  exists w2,
    saveQuote w1 (change q1) = (w2, change q1, None) /\
    findQuoteById w2 (q_id q) = Some (change q1) /\
    quoteEnv w2 = quoteEnv (snd (takeFault w1)).
Proof.
  intros Hs Hval Hnum Hid Hacc.
  unfold saveQuote in Hs.
  destruct (validateQuote (maxYear w) q) eqn:Hv; [inversion Hs|].
  destruct (writeQuote w (preSaveQuote w q)) as [w1' [err|]] eqn:Hw; inversion Hs; subst.
  clear Hs. unfold writeQuote in Hw.
  destruct (takeFault w) as [fault w0] eqn:Hf.
  pose proof (takeFault_quoteEnv _ _ _ Hf) as (He0 & Hq0).
  destruct fault; [inversion Hw|].
  destruct (findQuoteById w0 (q_id (preSaveQuote w q))) eqn:Hfind; simpl in Hw;
    [|inversion Hw].
  destruct (quoteIndexConflict (preSaveQuote w q)
              (otherQuotes (preSaveQuote w q) (quotes w0))) eqn:Hidx; inversion Hw; subst.
  clear Hw.
  set (q1 := preSaveQuote w q) in *.
  set (w1 := set_quotes (replaceQuote q1 (quotes w0)) w0) in *.
  assert (Hmax : maxYear w1 = maxYear w).
  { unfold w1. simpl. unfold quoteEnv in He0. injection He0. intros. assumption. }
  unfold saveQuote. rewrite Hmax, Hval. unfold q1 at 1.
  rewrite validateQuote_preSave, Hv. fold q1.
  assert (Hpre : preSaveQuote w1 (change q1) = change q1).
  { unfold preSaveQuote. rewrite Hnum. unfold q1.
    rewrite preSaveQuote_numbered. reflexivity. }
  rewrite Hpre. unfold writeQuote.
  unfold nextWriteAccepted in Hacc.
  destruct (takeFault w1) as [fault2 w2] eqn:Hf2. simpl in Hacc.
  destruct fault2; [discriminate|].
  pose proof (takeFault_quoteEnv _ _ _ Hf2) as (He2 & Hq2).
  assert (Hfind2 : findQuoteById w2 (q_id (change q1)) = Some q1).
  { unfold findQuoteById. rewrite Hq2, Hid. unfold w1. simpl.
    apply find_replaceQuote. unfold findQuoteById in Hfind. rewrite Hfind. reflexivity. }
  rewrite Hfind2. simpl.
  assert (Hidx2 : quoteIndexConflict (change q1) (otherQuotes (change q1) (quotes w2)) = None).
  { rewrite Hq2. unfold w1. simpl.
    unfold otherQuotes. rewrite Hid. fold (otherQuotes q1 (replaceQuote q1 (quotes w0))).
    rewrite otherQuotes_replace.
    unfold quoteIndexConflict in *. rewrite Hnum. exact Hidx. }
  rewrite Hidx2.
  eexists. split; [reflexivity|]. split.
  - unfold findQuoteById. simpl.
    destruct (preSaveQuote_fields w q) as (Hidq & _). fold q1 in Hidq.
    rewrite <- Hidq, <- (Hid q1). apply find_replaceQuote.
    unfold findQuoteById in Hfind2. rewrite Hfind2. reflexivity.
  - reflexivity.
Qed.

Lemma findQuoteById_id w id q : findQuoteById w id = Some q -> q_id q = id.
Proof.
  unfold findQuoteById. intro H. apply find_some in H.
  destruct H as [_ H]. apply N.eqb_eq. exact H.
Qed.

Lemma findQuoteById_quotes w w' i :
  quotes w' = quotes w -> findQuoteById w' i = findQuoteById w i.
Proof. unfold findQuoteById. intros ->. reflexivity. Qed.

Lemma quoteEnv_orders w w' : quoteEnv w' = quoteEnv w -> orders w' = orders w.
Proof. unfold quoteEnv. intro H. injection H. intros. assumption. Qed.








Lemma createWorkOrder_fail fuel w qi snap wd cost w' o e :
  createWorkOrder fuel w qi snap wd cost pendiente_asignacion = Some (w', o, Some e) ->
  quotes w' = quotes w /\ orders w' = orders w.
Proof.
  destruct fuel as [|k]; [discriminate|].
  destruct (createWorkOrder_spec k w qi snap wd cost)
    as (w2 & o2 & e2 & Hc & Hq & _ & _ & _ & Hres).
  rewrite Hc. intro H; inversion H; subst. auto.
Qed.

(** C2, counterexample: the sample quote is approved through its token
    while the datastore rejects the third write, the order creation. The
    handler ends in the exception; the stored quote is approved, both its
    tokens are used, and there is neither an order nor a link. With the
    second write rejected instead, the tokens are used and the quote is
    still pending. *)
Lemma C2_counterexample :
  (exists w' q',
     approveQuote 1 (worldPending [false; false; true]) 1%N (Some "tok-approve")
       (Some "10.0.0.1") None = Some (w', Unhandled StoreFailure) /\
     findQuoteById w' 1%N = Some q' /\
     q_status q' = approved /\ workOrderId q' = None /\
     map used (approvalTokens q') = [true; true] /\
     orders w' = []) /\
  ~ approval_all_or_nothing /\
  ~ redemption_then_status.
Proof.
  split; [|split].
  - eexists. eexists. split; [vm_compute; reflexivity|].
    split; [vm_compute; reflexivity|]. repeat split.
  - intro H.
    assert (Hr : exists w',
               approveQuoteManual 1 (worldPending [false; true]) 1%N
                 = Some (w', Unhandled StoreFailure) /\
               option_map q_status (findQuoteById w' 1%N) = Some approved).
    { eexists. split; [vm_compute; reflexivity|]. vm_compute. reflexivity. }
    destruct Hr as (w' & Hr & Hst).
    apply H in Hr. rewrite Hr in Hst. vm_compute in Hst. discriminate Hst.
  - intro H.
    assert (Hr : exists w' q',
               approveQuote 1 (worldPending [false; true]) 1%N (Some "tok-approve")
                 (Some "10.0.0.1") None = Some (w', Unhandled StoreFailure) /\
               findQuoteById w' 1%N = Some q' /\
               q_status q' = pending /\
               map used (approvalTokens q') = [true; true]).
    { eexists. eexists. split; [vm_compute; reflexivity|].
      split; [vm_compute; reflexivity|]. split; reflexivity. }
    destruct Hr as (w' & q' & Hr & Hf & Hst & Hu).
    apply (H _ _ _ _ _ _ _ _ _ Hr Hf); [|exact Hst].
    destruct (approvalTokens q') as [|t rest]; [discriminate|].
    exists t. split; [left; reflexivity|]. inversion Hu. reflexivity.
Qed.

(** C2 (amended): approval is a sequence of separate writes without
    rollback. When the status write is accepted and the order creation then
    fails, the handler ends in that exception, the stored quote is approved
    (in the token path with the burnt tokens) and not linked, and no order
    is added. After a successful redemption the status write is committed
    whenever the datastore accepts it: no validator and no index can
    refuse it. *)
Theorem C2_approval_commits_stepwise (fuel : nat) (w : World) (id : ObjectId)
    (q : Quote) :
  findQuoteById w id = Some q ->
  (q_status q = pending ->
   forall w1 q1 w2 o e,
     saveQuote w (set_q_status approved q) = (w1, q1, None) ->
     createWorkOrder fuel w1 (Some (q_id q1))
       (option_map castSnapshot (vehicle q1)) (workDescriptionOf q1)
       (q_estimatedCost q1) pendiente_asignacion = Some (w2, o, Some e) ->
     approveQuoteManual fuel w id = Some (w2, Unhandled e) /\
     approvedWithoutOrder w q w2 q1) /\
  (forall tok ip ua ty t w0 q0,
     truthy tok = true ->
     validateToken w q tok = TokenValid ty t ->
     useToken w q tok ip ua = (w0, q0, None) ->
     (forall w1 q1 w2 o e,
        saveQuote w0 (set_q_status approved q0) = (w1, q1, None) ->
        createWorkOrder fuel w1 (Some (q_id q1))
          (option_map castSnapshot (vehicle q1)) (workDescriptionOf q1)
          (q_estimatedCost q1) pendiente_asignacion = Some (w2, o, Some e) ->
        approveQuote fuel w id (Some tok) ip ua = Some (w2, Unhandled e) /\
        approvedWithoutOrder w q w2 q1 /\
        approvalTokens q1 = approvalTokens q0 /\
        forall s, In s (map token (approvalTokens q)) ->
                  validateToken w2 q1 s = TokenInvalid msg_token_used) /\
     (nextWriteAccepted w0 = true ->
      exists w1 q1,
        saveQuote w0 (set_q_status approved q0) = (w1, q1, None) /\
        findQuoteById w1 id = Some q1 /\
        q_status q1 = approved /\
        approvalTokens q1 = approvalTokens q0)).
Proof.
  intro Hq. pose proof (findQuoteById_id _ _ _ Hq) as Hid. split.
  - intros Hp w1 q1 w2 o e Hs Hc.
    unfold approveQuoteManual. rewrite Hq, Hp. simpl.
    rewrite Hs, Hc. split; [reflexivity|].
    apply saveQuote_spec in Hs. destruct Hs as (He1 & Hq1 & _ & _ & Hf1).
    apply createWorkOrder_fail in Hc. destruct Hc as (Hq2 & Ho2).
    destruct (preSaveQuote_fields w (set_q_status approved q))
      as (_ & Hst & _ & Hwo & _).
    rewrite <- Hq1 in Hst, Hwo. simpl in Hst, Hwo, Hf1.
    unfold approvedWithoutOrder. repeat split; try assumption.
    + rewrite (findQuoteById_quotes w1 w2 _ Hq2). exact Hf1.
    + rewrite Ho2. apply quoteEnv_orders. exact He1.
  - intros tok ip ua ty t w0 q0 Htruthy Hval Huse.
    assert (Hfirst : exists t0, firstWith tok (approvalTokens q) t0).
    { unfold validateToken in Hval.
      destruct (js_find (hasToken tok) (approvalTokens q)) eqn:E; [|discriminate].
      exists a. apply find_firstWith. exact E. }
    destruct Hfirst as (t0 & Hfirst).
    pose proof (tokens_after_redemption w q tok ip ua t0 w0 q0 Hfirst Huse)
      as (Hf0 & _ & Hburnt).
    assert (Hsave0 : exists burnt, useToken w q tok ip ua = saveQuote w burnt /\
                                   q_id burnt = q_id q /\ workOrderId burnt = workOrderId q).
    { unfold useToken. apply find_firstWith in Hfirst. rewrite Hfirst.
      eexists. repeat split. }
    destruct Hsave0 as (burnt & Hsave0 & Hidb & Hwob). rewrite Hsave0 in Huse.
    pose proof (saveQuote_spec _ _ _ _ _ Huse) as (He0 & Hq0 & _ & _ & _).
    destruct (preSaveQuote_fields w burnt) as (Hid0 & _ & _ & Hwo0 & _).
    rewrite <- Hq0 in Hid0, Hwo0.
    split.
    + intros w1 q1 w2 o e Hs Hc.
      unfold approveQuote. rewrite Htruthy. simpl.
      rewrite Hq, Hval, Hsave0, Huse, Hs, Hc. split; [reflexivity|].
      apply saveQuote_spec in Hs. destruct Hs as (He1 & Hq1 & _ & _ & Hf1).
      apply createWorkOrder_fail in Hc. destruct Hc as (Hq2 & Ho2).
      destruct (preSaveQuote_fields w0 (set_q_status approved q0))
        as (_ & Hst & Htk & Hwo & _).
      rewrite <- Hq1 in Hst, Htk, Hwo. simpl in Hst, Htk, Hwo, Hf1.
      assert (Htokens : approvalTokens q1 = approvalTokens q0) by exact Htk.
      split; [|split; [exact Htokens|]].
      * unfold approvedWithoutOrder. repeat split.
        -- rewrite (findQuoteById_quotes w1 w2 _ Hq2). congruence.
        -- exact Hst.
        -- congruence.
        -- rewrite Ho2, (quoteEnv_orders _ _ He1). apply quoteEnv_orders. exact He0.
      * intros s Hs. unfold validateToken. rewrite Htokens.
        destruct (Hburnt s Hs) as (u & Hu & Hun). rewrite Hu, Hun. reflexivity.
    + intro Hacc.
      destruct (saveQuote_again w burnt w0 q0 (set_q_status approved) Huse
                  (fun x => eq_refl) (fun x => eq_refl) (fun x => eq_refl) Hacc)
        as (w2 & Hs2 & Hf2 & _).
      exists w2, (set_q_status approved q0). repeat split.
      * exact Hs2.
      * rewrite <- Hid, <- Hidb. exact Hf2.
Qed.

(** Witness of C2: the manual approval of the sample quote with the order
    creation rejected by the datastore. *)
Lemma C2_approval_commits_stepwise_witness :
  exists w2 q1 e,
    approveQuoteManual 1 (worldPending [false; true]) 1%N = Some (w2, Unhandled e) /\
    approvedWithoutOrder (worldPending [false; true]) sampleQuote w2 q1.
Proof.
  pose proof (C2_approval_commits_stepwise 1 (worldPending [false; true]) 1%N
                sampleQuote eq_refl) as (H & _).
  specialize (H eq_refl).
  do 3 eexists. eapply H.
  - vm_compute. reflexivity.
  - vm_compute. reflexivity.
Defined.

(** * Serialization *)

Lemma js_map_tokenView ts :
  js_map tokenView (map tokenObject ts) = Some (map tokenPublic ts).
Proof.
  induction ts as [|t rest IH]; simpl; [reflexivity|].
  rewrite IH. unfold tokenView, tokenPublic, tokenObject, prop.
  destruct (usedAt t), (ipAddress t), (userAgent t); reflexivity.
Qed.

Lemma tokenPublic_withoutString t : tokenPublic (withoutString t) = tokenPublic t.
Proof. reflexivity. Qed.

Lemma tokenPublic_map ts1 ts2 :
  map withoutString ts2 = map withoutString ts1 ->
  map tokenPublic ts2 = map tokenPublic ts1.
Proof.
  intro H.
  assert (E : forall ts, map tokenPublic ts = map tokenPublic (map withoutString ts))
    by (intro ts; rewrite map_map; reflexivity).
  rewrite (E ts1), (E ts2), H. reflexivity.
Qed.

Lemma toObject_tokens q :
  js_get "approvalTokens" (quoteToObject q)
  = JArr (map tokenObject (approvalTokens q)).
Proof. unfold quoteToObject. quote_options q; reflexivity. Qed.

Lemma toObject_set q ts views :
  js_set "approvalTokens" (JArr views) (quoteToObject (set_approvalTokens ts q))
  = js_set "approvalTokens" (JArr views) (quoteToObject q).
Proof. unfold quoteToObject. simpl. quote_options q; reflexivity. Qed.

Lemma quoteToJSON_eq q :
  quoteToJSON q = Some (serializedWith q (map tokenPublic (approvalTokens q))).
Proof.
  unfold quoteToJSON, toJSON_transform. rewrite toObject_tokens.
  cbn [js_truthy]. rewrite js_map_tokenView. unfold serializedWith.
  destruct (negb _); reflexivity.
Qed.

Lemma serializedWith_get q views :
  js_get "approvalTokens" (serializedWith q views) = JArr views.
Proof.
  unfold serializedWith, quoteToObject.
  quote_options q; destruct (q_isDeleted q); reflexivity.
Qed.

Lemma serializedWith_set q ts views :
  serializedWith (set_approvalTokens ts q) views = serializedWith q views.
Proof. unfold serializedWith. rewrite toObject_set. reflexivity. Qed.

(** C10: the serialized quote shows, for each approval token, exactly the
    properties [type], [used] and [usedAt]; it has no [token] property, and
    two quotes that differ only in their token strings serialize to the
    same object (so the same [approvalTokens]). *)
Theorem C10_toJSON_hides_token_strings (q1 q2 : Quote) :
  differOnlyInTokenStrings q1 q2 ->
  exists ret1 ret2,
    quoteToJSON q1 = Some ret1 /\
    quoteToJSON q2 = Some ret2 /\
    js_get "approvalTokens" ret1 = JArr (map tokenPublic (approvalTokens q1)) /\
    (forall view, In view (map tokenPublic (approvalTokens q1)) ->
                  prop view "token" = Some JUndefined) /\
    js_get "approvalTokens" ret2 = js_get "approvalTokens" ret1 /\
    ret2 = ret1.
Proof.
  intros (Hq2 & Hts).
  exists (serializedWith q1 (map tokenPublic (approvalTokens q1))),
         (serializedWith q2 (map tokenPublic (approvalTokens q2))).
  assert (Heq : serializedWith q2 (map tokenPublic (approvalTokens q2))
                = serializedWith q1 (map tokenPublic (approvalTokens q1))).
  { rewrite (tokenPublic_map _ _ Hts). rewrite Hq2 at 1. apply serializedWith_set. }
  split; [apply quoteToJSON_eq|].
  split; [apply quoteToJSON_eq|].
  split; [apply serializedWith_get|].
  split.
  - intros view Hin. apply in_map_iff in Hin. destruct Hin as (t & <- & _).
    reflexivity.
  - rewrite Heq. split; reflexivity.
Qed.

(** Witness of C10: the sample quote and the same quote with two other
    token strings. *)
Lemma C10_toJSON_hides_token_strings_witness :
  exists ret,
    quoteToJSON sampleQuote = Some ret /\
    quoteToJSON sampleQuoteOtherTokens = Some ret /\
    js_get "approvalTokens" ret =
      JArr [JObj [("type", JStr "approve"); ("used", JBool false); ("usedAt", JUndefined)];
            JObj [("type", JStr "reject"); ("used", JBool false); ("usedAt", JUndefined)]].
Proof.
  destruct (C10_toJSON_hides_token_strings sampleQuote sampleQuoteOtherTokens)
    as (ret1 & ret2 & H1 & H2 & H3 & _ & _ & Heq).
  - split; reflexivity.
  - exists ret1. subst ret2. repeat split; assumption.
Defined.

(** * Further properties: mail retries *)

Lemma sendWithRetry_transport n : forall w,
  transport (fst (sendWithRetry n w)) = transport w.
Proof.
  induction n as [|n IH]; intro w; simpl;
    destruct (transport w (mailCalls w)); try reflexivity.
  rewrite IH. reflexivity.
Qed.

Lemma sendWithRetry_calls n : forall w,
  (mailCalls w < mailCalls (fst (sendWithRetry n w)) <= mailCalls w + S n)%nat.
Proof.
  induction n as [|n IH]; intro w; simpl.
  - destruct (transport w (mailCalls w)); simpl; lia.
  - destruct (transport w (mailCalls w)); simpl; [|lia].
    specialize (IH (tickMail w)). simpl in IH. lia.
Qed.

(** X1: [sendWithRetry] calls the transport at least once and at most
    [retriesLeft + 1] times, stops at the first delivery, reports success
    exactly when that delivery happened, and otherwise gives up after the
    last attempt with that attempt's error. *)
Theorem sendWithRetry_bounded (n : nat) (w : World) :
  exists k : nat,
    (k <= n)%nat /\
    mailCalls (fst (sendWithRetry n w)) = (mailCalls w + S k)%nat /\
    (forall j, (j < k)%nat -> transport w (mailCalls w + j)%nat <> None) /\
    match transport w (mailCalls w + k)%nat with
    | None => snd (sendWithRetry n w) = {| success := true; send_error := None |}
    | Some e =>
        k = n /\
        snd (sendWithRetry n w) = {| success := false; send_error := Some e |}
    end.
Proof.
  revert w. induction n as [|n IH]; intro w.
  - exists 0%nat. simpl. rewrite Nat.add_0_r.
    destruct (transport w (mailCalls w)) eqn:E; simpl;
      (split; [lia|]); (split; [lia|]); (split; [intros j Hj; lia|]); auto.
  - simpl. destruct (transport w (mailCalls w)) eqn:E.
    + destruct (IH (tickMail w)) as (k & Hk & Hcalls & Hbefore & Hlast).
      exists (S k). simpl in *.
      split; [lia|]. split; [rewrite Hcalls; lia|]. split.
      * intros j Hj. destruct j as [|j].
        -- rewrite Nat.add_0_r, E. discriminate.
        -- replace (mailCalls w + S j)%nat with (S (mailCalls w + j)) by lia.
           apply Hbefore. lia.
      * replace (mailCalls w + S k)%nat with (S (mailCalls w + k)) by lia.
        destruct (transport w (S (mailCalls w + k))).
        -- destruct Hlast as (-> & Hr). split; [reflexivity | exact Hr].
        -- exact Hlast.
    + exists 0%nat. simpl. rewrite Nat.add_0_r, E.
      split; [lia|]. split; [lia|]. split; [intros j Hj; lia | reflexivity].
Qed.

(** X2: both mails of the service make at most [maxRetries] attempts, and
    one attempt when [maxRetries] is below 1; a ready notification that
    reaches the transport never throws. *)
Theorem mail_attempts_bounded (w : World) (order : WorkOrder) :
  (mailCalls w < mailCalls (fst (EmailService.sendQuoteEmail w))
               <= mailCalls w + Z.to_nat (Z.max 1 (maxRetries w)))%nat /\
  (mailCalls w <= mailCalls (fst (sendReadyNotification w order))
               <= mailCalls w + Z.to_nat (Z.max 1 (maxRetries w)))%nat /\
  (reachable w order = true ->
   exists result, snd (sendReadyNotification w order) = inr result /\
                  (mailCalls w < mailCalls (fst (sendReadyNotification w order)))%nat) /\
  (reachable w order = false ->
   exists error, sendReadyNotification w order = (w, inl error)).
Proof.
  assert (Hbound : forall w0,
            (mailCalls w0 < mailCalls (fst (sendWithRetry (Z.to_nat (maxRetries w0 - 1)) w0))
             <= mailCalls w0 + Z.to_nat (Z.max 1 (maxRetries w0)))%nat).
  { intro w0.
    pose proof (sendWithRetry_calls (Z.to_nat (maxRetries w0 - 1)) w0). lia. }
  split; [apply Hbound|]. split; [|split].
  - unfold sendReadyNotification.
    destruct (match quoteId order with Some i => findQuoteById w i | None => None end);
      [|simpl; lia].
    destruct (match clientId q with Some i => findClientById w i | None => None end);
      [|simpl; lia].
    destruct (negb (truthy (c_email c))); [simpl; lia|].
    pose proof (Hbound w) as Hb.
    destruct (sendWithRetry (Z.to_nat (maxRetries w - 1)) w) as [w1 r]. simpl in *. lia.
  - intro Hr. unfold reachable in Hr. unfold sendReadyNotification.
    destruct (match quoteId order with Some i => findQuoteById w i | None => None end);
      [|discriminate].
    destruct (match clientId q with Some i => findClientById w i | None => None end);
      [|discriminate].
    rewrite Hr. simpl. pose proof (Hbound w) as Hb.
    destruct (sendWithRetry (Z.to_nat (maxRetries w - 1)) w) as [w1 r]. simpl in *.
    exists r. split; [reflexivity | lia].
  - apply sendReadyNotification_unreachable.
Qed.

(** * Further properties: repair time *)

Lemma msPerDay_hours : msPerDay = 24 * msPerHour.
Proof. reflexivity. Qed.

(** X3: for an order delivered at or after its creation, [getRepairTime]
    splits the elapsed time into whole days and 0 to 23 remaining hours,
    with [totalHours = 24 * days + hours], [totalHours] being the elapsed
    whole hours; it answers [null] exactly when there is no delivery
    date. *)
Theorem getRepairTime_split (o : WorkOrder) :
  (actualDelivery o = None <-> getRepairTime o = None) /\
  (forall delivered,
     actualDelivery o = Some delivered ->
     wo_createdAt o <= delivered ->
     exists t,
       getRepairTime o = Some t /\
       0 <= days t /\ 0 <= hours t < 24 /\
       totalHours t = 24 * days t + hours t /\
       msPerHour * totalHours t <= delivered - wo_createdAt o
         < msPerHour * (totalHours t + 1)).
Proof.
  split.
  - unfold getRepairTime. destruct (actualDelivery o); split; intro H;
      try reflexivity; discriminate.
  - intros delivered Hd Hle. unfold getRepairTime. rewrite Hd.
    eexists. split; [reflexivity|]. cbn [days hours totalHours].
    set (a := delivered - wo_createdAt o).
    assert (Ha : 0 <= a) by (unfold a; lia).
    assert (HH : 0 < msPerHour) by reflexivity.
    assert (HD : 0 < msPerDay) by reflexivity.
    rewrite (Z.rem_mod_nonneg a msPerDay Ha HD).
    pose proof (Z.div_mod a msPerDay ltac:(lia)) as Hdm.
    pose proof (Z.mod_pos_bound a msPerDay HD) as Hmb.
    assert (Hdiv : a / msPerHour = 24 * (a / msPerDay) + (a mod msPerDay) / msPerHour).
    { rewrite Hdm at 1. rewrite msPerDay_hours at 1.
      replace (24 * msPerHour * (a / msPerDay) + a mod msPerDay)
        with ((24 * (a / msPerDay)) * msPerHour + a mod msPerDay) by ring.
      rewrite Z.div_add_l by lia. reflexivity. }
    split; [apply Z.div_pos; lia|].
    split.
    + split; [apply Z.div_pos; lia|].
      apply Z.div_lt_upper_bound; [lia|].
      replace (msPerHour * 24) with msPerDay by reflexivity. apply Hmb.
    + split; [exact Hdiv|].
      pose proof (Z.div_mod a msPerHour ltac:(lia)) as Hdh.
      pose proof (Z.mod_pos_bound a msPerHour HH) as Hmh.
      clear Hdiv Hdm Hmb HD. unfold msPerHour in *. lia.
Qed.

Lemma getRepairTime_split_witness :
  exists t,
    getRepairTime (set_actualDelivery (Some 93600000) (sampleOrder entregado (Some 7%N)))
      = Some t /\
    days t = 1 /\ hours t = 1 /\ totalHours t = 25.
Proof.
  destruct (getRepairTime_split
              (set_actualDelivery (Some 93600000) (sampleOrder entregado (Some 7%N))))
    as (_ & H).
  destruct (H 93600000 eq_refl ltac:(vm_compute; discriminate)) as (t & Ht & _).
  exists t. split; [exact Ht|].
  vm_compute in Ht. inversion Ht. repeat split.
Defined.

(** * Further properties: what a save keeps *)

Section Keeps.

Context {A : Type} (f : WorkOrder -> A).
Hypothesis f_orderNumber : forall v o, f (set_orderNumber v o) = f o.
Hypothesis f_notifications : forall v o, f (set_notifications v o) = f o.
Hypothesis f_readyEmailSent : forall v o, f (set_readyEmailSent v o) = f o.
Hypothesis f_readyEmailSentAt : forall v o, f (set_readyEmailSentAt v o) = f o.

Lemma preSaveOrder_keeps w d : f (preSaveOrder w d) = f d.
Proof. unfold preSaveOrder. destruct (negb _); [apply f_orderNumber | reflexivity]. Qed.

(** A field that the two hooks do not assign is the same after a save. *)
Lemma saveOrder_keeps fuel : forall isNew w d w' d' e,
  saveOrder fuel isNew w d = Some (w', d', e) -> f d' = f d.
Proof.
  induction fuel as [|fuel IH]; intros isNew w d w' d' e; [discriminate|].
  rewrite saveOrder_S. destruct (validateOrder d).
  { intro H; inversion H; subst. reflexivity. }
  destruct (writeOrder isNew w (preSaveOrder w d)) as [w1 [err|]].
  { intro H; inversion H; subst. apply preSaveOrder_keeps. }
  unfold postSaveOrder, readyHookCatch.
  destruct (status_eqb (status (preSaveOrder w d)) listo
            && negb (readyEmailSent (preSaveOrder w d))).
  2:{ intro H; inversion H; subst. apply preSaveOrder_keeps. }
  destruct (sendReadyNotification w1 (preSaveOrder w d)) as [w2 [error|res]].
  - intro H. apply IH in H. rewrite H, f_notifications. apply preSaveOrder_keeps.
  - cbv zeta.
    match goal with |- match saveOrder fuel false w2 ?doc with _ => _ end = _ -> _ =>
      assert (Hdoc : f doc = f d)
        by (rewrite f_notifications, f_readyEmailSentAt, f_readyEmailSent;
            apply preSaveOrder_keeps);
      destruct (saveOrder fuel false w2 doc) as [[[w3 d3] [error|]]|] eqn:Hs;
        [| |discriminate] end.
    + apply IH in Hs. intro H. apply IH in H.
      rewrite H, f_notifications, Hs. exact Hdoc.
    + apply IH in Hs. intro H; inversion H; subst. congruence.
Qed.

End Keeps.

Lemma saveOrder_keeps_deletion fuel isNew w d w' d' e :
  saveOrder fuel isNew w d = Some (w', d', e) -> deletion d' = deletion d.
Proof. apply (saveOrder_keeps deletion); reflexivity. Qed.

Lemma map_id_replaceOrder d l :
  map wo_id (replaceOrder d l) = map wo_id l.
Proof.
  induction l as [|o rest IH]; simpl; [reflexivity|].
  destruct (N.eqb (wo_id o) (wo_id d)) eqn:E; simpl.
  - apply N.eqb_eq in E. rewrite E. reflexivity.
  - rewrite IH. reflexivity.
Qed.

Lemma writeOrder_update_ids w d w1 e :
  writeOrder false w d = (w1, e) -> map wo_id (orders w1) = map wo_id (orders w).
Proof.
  unfold writeOrder. destruct (takeFault w) as [fault w0] eqn:Hf.
  apply takeFault_spec in Hf. destruct Hf as (_ & Ho & _).
  destruct fault; [intro H; inversion H; subst; rewrite Ho; reflexivity|].
  destruct (negb (isSome (findOrderById w0 (wo_id d)))).
  { intro H; inversion H; subst. rewrite Ho. reflexivity. }
  destruct (orderIndexConflict d (otherOrders d (orders w0))).
  { intro H; inversion H; subst. rewrite Ho. reflexivity. }
  intro H; inversion H; subst. simpl. rewrite map_id_replaceOrder, Ho. reflexivity.
Qed.

(** The save of a stored document adds no document and removes none. *)
Lemma saveOrder_update_ids fuel : forall w d w' d' e,
  saveOrder fuel false w d = Some (w', d', e) ->
  map wo_id (orders w') = map wo_id (orders w).
Proof.
  induction fuel as [|fuel IH]; intros w d w' d' e; [discriminate|].
  rewrite saveOrder_S. destruct (validateOrder d).
  { intro H; inversion H; subst. reflexivity. }
  destruct (writeOrder false w (preSaveOrder w d)) as [w1 [err|]] eqn:Hw;
    apply writeOrder_update_ids in Hw.
  { intro H; inversion H; subst. exact Hw. }
  unfold postSaveOrder, readyHookCatch.
  destruct (status_eqb (status (preSaveOrder w d)) listo
            && negb (readyEmailSent (preSaveOrder w d))).
  2:{ intro H; inversion H; subst. exact Hw. }
  destruct (sendReadyNotification w1 (preSaveOrder w d)) as [w2 [error|res]] eqn:Hs;
    apply sendReadyNotification_spec in Hs; destruct Hs as (_ & Ho2 & _).
  - intro H. apply IH in H. congruence.
  - cbv zeta.
    match goal with |- match saveOrder fuel false w2 ?doc with _ => _ end = _ -> _ =>
      destruct (saveOrder fuel false w2 doc) as [[[w3 d3] [error|]]|] eqn:Hs;
        [| |discriminate] end.
    + apply IH in Hs. intro H. apply IH in H. congruence.
    + apply IH in Hs. intro H; inversion H; subst. congruence.
Qed.

Lemma findOrderById_id w id o : findOrderById w id = Some o -> wo_id o = id.
Proof.
  unfold findOrderById. intro H. apply find_some in H.
  destruct H as [_ H]. apply N.eqb_eq. exact H.
Qed.

(** * Further properties: a save without notification *)

(** When the hook has nothing to send, [save()] is validation, pre-save
    hook and write. *)
Lemma saveOrder_plain k isNew w d :
  hookFires d = false ->
  saveOrder (S k) isNew w d
  = Some (match validateOrder d with
          | Some e => (w, d, Some e)
          | None =>
              let (w1, e) := writeOrder isNew w (preSaveOrder w d) in
              (w1, preSaveOrder w d, e)
          end).
Proof.
  intro Hq. rewrite saveOrder_S. destruct (validateOrder d); [reflexivity|].
  destruct (writeOrder isNew w (preSaveOrder w d)) as [w1 [e|]]; [reflexivity|].
  unfold postSaveOrder. fold (hookFires (preSaveOrder w d)).
  rewrite preSaveOrder_hook, Hq. reflexivity.
Qed.

Lemma saveOrder_accepted k w d :
  hookFires d = false ->
  orderSaveAccepted w d = true ->
  exists w', saveOrder (S k) false w d = Some (w', preSaveOrder w d, None).
Proof.
  intros Hq Hacc. rewrite (saveOrder_plain k false w d Hq).
  unfold orderSaveAccepted in Hacc.
  destruct (validateOrder d); [discriminate|].
  destruct (writeOrder false w (preSaveOrder w d)) as [w1 [e|]];
    [discriminate | eauto].
Qed.

Lemma saveOrder_refused k w d :
  hookFires d = false ->
  orderSaveAccepted w d = false ->
  exists w' d' e,
    saveOrder (S k) false w d = Some (w', d', Some e) /\ orders w' = orders w.
Proof.
  intros Hq Hacc. rewrite (saveOrder_plain k false w d Hq).
  unfold orderSaveAccepted in Hacc.
  destruct (validateOrder d) as [e|]; [exists w, d, e; split; reflexivity|].
  destruct (writeOrder false w (preSaveOrder w d)) as [w1 [e|]] eqn:Hw;
    [|discriminate].
  apply writeOrder_spec in Hw. destruct Hw as (_ & _ & Ho).
  exists w1, (preSaveOrder w d), e. split; [reflexivity | exact Ho].
Qed.

(** * Further properties: soft delete of an order *)

Lemma softDelete_spec (fuel : nat) (w : World) (this : WorkOrder)
    (by_ : option ObjectId) (w' : World) (o' : WorkOrder) (e : option Exn) :
  WorkOrderDoc.softDelete fuel w this by_ = Some (w', o', e) ->
  map wo_id (orders w') = map wo_id (orders w) /\
  (e = None ->
   status this = pendiente_asignacion /\ wo_isDeleted this = false /\
   findOrderById w' (wo_id this) = Some o' /\
   deletion o' = (true, Some (now w), by_) /\
   core o' = core this /\
   WorkOrderDoc.canDelete o' = false).
Proof.
  unfold WorkOrderDoc.softDelete.
  destruct (WorkOrderDoc.canDelete this) eqn:Hcan; simpl.
  2:{ intro H; inversion H; subst. split; [reflexivity | discriminate]. }
  intro H. split; [exact (saveOrder_update_ids _ _ _ _ _ _ H)|].
  intros ->.
  unfold WorkOrderDoc.canDelete in Hcan. apply andb_true_iff in Hcan.
  destruct Hcan as (Hst & Hdel). apply status_eqb_eq in Hst.
  apply negb_true_iff in Hdel.
  pose proof (saveOrder_spec _ _ _ _ _ _ _ H) as (Hc & _ & _ & Hok).
  pose proof (saveOrder_keeps_deletion _ _ _ _ _ _ _ H) as Hd.
  specialize (Hok eq_refl). simpl in Hok, Hd.
  repeat split; try assumption.
  unfold WorkOrderDoc.canDelete. unfold deletion in Hd. injection Hd. intros _ _ ->.
  apply andb_false_r.
Qed.

(** X4: [softDelete] throws and changes nothing unless the order is in
    [pendiente_asignacion] and not yet deleted; whatever it returns, the
    collection holds the same documents; on success the stored order
    carries the flag, the clock reading and the actor, keeps every other
    field of the life cycle, and cannot be deleted again. It returns at the
    first level of the save bound. *)
Theorem softDelete_order (fuel : nat) (w : World) (this : WorkOrder)
    (by_ : option ObjectId) :
  (WorkOrderDoc.canDelete this = false ->
   WorkOrderDoc.softDelete fuel w this by_
   = Some (w, this, Some (Error WorkOrderDoc.msg_cannot_delete))) /\
  (forall w' o' e,
     WorkOrderDoc.softDelete fuel w this by_ = Some (w', o', e) ->
     map wo_id (orders w') = map wo_id (orders w) /\
     (e = None ->
      status this = pendiente_asignacion /\ wo_isDeleted this = false /\
      findOrderById w' (wo_id this) = Some o' /\
      deletion o' = (true, Some (now w), by_) /\
      core o' = core this /\
      WorkOrderDoc.canDelete o' = false)) /\
  (exists r, WorkOrderDoc.softDelete (S fuel) w this by_ = Some r).
Proof.
  unfold WorkOrderDoc.softDelete. split; [|split].
  - intros ->. reflexivity.
  - intros w' o' e. fold (WorkOrderDoc.softDelete fuel w this by_).
    apply softDelete_spec.
  - destruct (negb (WorkOrderDoc.canDelete this)) eqn:Hcan; [eauto|].
    apply negb_false_iff in Hcan.
    unfold WorkOrderDoc.canDelete in Hcan. apply andb_true_iff in Hcan.
    destruct Hcan as (Hst & _). apply status_eqb_eq in Hst.
    destruct (saveOrder_quiet fuel false w
                (set_deletion true (Some (now w)) by_ this))
      as (w' & d' & e & H & _).
    + unfold hookFires. simpl. rewrite Hst. reflexivity.
    + eauto.
Qed.

(** X5: [deleteOrder] answers 404 ORDER_NOT_FOUND for an absent order,
    400 ORDER_ALREADY_DELETED for a deleted one and 400
    CANNOT_DELETE_ORDER for an undeleted one that has left
    [pendiente_asignacion], each time leaving the world as it was. For an
    undeleted order in [pendiente_asignacion] it returns at the first level
    of the save bound: when the save is refused (a validator or the
    datastore) it passes the exception on and the stored orders are as
    they were; when the save goes through it answers with success, the
    stored order has the deletion stamp (flag, clock reading, caller) and
    its other core fields as before, and the same request is from then on
    refused as already deleted. No answer adds or removes an order. *)
Theorem deleteOrder_cases (fuel : nat) (w : World) (userId : option ObjectId)
    (id : ObjectId) :
  (findOrderById w id = None ->
   deleteOrder fuel w userId id
   = Some (w, Fail 404 "ORDER_NOT_FOUND" "Orden de trabajo no encontrada" None)) /\
  (forall o, findOrderById w id = Some o ->
     (wo_isDeleted o = true ->
      deleteOrder fuel w userId id
      = Some (w, Fail 400 "ORDER_ALREADY_DELETED" "La orden ya está eliminada" None)) /\
     (wo_isDeleted o = false -> status o <> pendiente_asignacion ->
      deleteOrder fuel w userId id
      = Some (w, Fail 400 "CANNOT_DELETE_ORDER"
                   ("Solo se pueden eliminar órdenes en estado "
                      ++ dq ++ "pendiente_asignacion" ++ dq) None)) /\
     (wo_isDeleted o = false -> status o = pendiente_asignacion ->
      (orderSaveAccepted w (set_deletion true (Some (now w)) userId o) = false ->
       exists w' e,
         deleteOrder (S fuel) w userId id = Some (w', Thrown e) /\
         orders w' = orders w) /\
      (orderSaveAccepted w (set_deletion true (Some (now w)) userId o) = true ->
       exists w' o',
         deleteOrder (S fuel) w userId id
         = Some (w', Ok "Orden eliminada exitosamente" tt) /\
         findOrderById w' id = Some o' /\
         core o' = core o /\
         wo_isDeleted o' = true /\ wo_deletedAt o' = Some (now w) /\
         wo_deletedBy o' = userId /\
         forall fuel2 user2,
           deleteOrder fuel2 w' user2 id
           = Some (w', Fail 400 "ORDER_ALREADY_DELETED"
                        "La orden ya está eliminada" None)))) /\
  (forall w' r,
     deleteOrder fuel w userId id = Some (w', r) ->
     map wo_id (orders w') = map wo_id (orders w)).
Proof.
  split; [|split].
  - intro Hfind. unfold deleteOrder. rewrite Hfind. reflexivity.
  - intros o Hfind. pose proof (findOrderById_id _ _ _ Hfind) as Hid.
    split; [|split].
    + intro Hdel. unfold deleteOrder. rewrite Hfind, Hdel. reflexivity.
    + intros Hdel Hst. unfold deleteOrder, WorkOrderDoc.canDelete.
      rewrite Hfind, Hdel.
      destruct (status_eqb (status o) pendiente_asignacion) eqn:E;
        [apply status_eqb_eq in E; contradiction | reflexivity].
    + intros Hdel Hst.
      assert (Hcan : WorkOrderDoc.canDelete o = true)
        by (unfold WorkOrderDoc.canDelete; rewrite Hst, Hdel; reflexivity).
      assert (Hquiet : hookFires (set_deletion true (Some (now w)) userId o) = false)
        by (unfold hookFires; simpl; rewrite Hst; reflexivity).
      assert (Hsoft : WorkOrderDoc.softDelete (S fuel) w o userId
                      = saveOrder (S fuel) false w
                          (set_deletion true (Some (now w)) userId o))
        by (unfold WorkOrderDoc.softDelete; rewrite Hcan; reflexivity).
      split.
      * intro Hacc.
        destruct (saveOrder_refused fuel w _ Hquiet Hacc) as (w' & d' & e & Hs & Ho).
        exists w', e. unfold deleteOrder. rewrite Hfind, Hdel, Hcan. simpl.
        rewrite Hsoft, Hs. split; [reflexivity | exact Ho].
      * intro Hacc.
        destruct (saveOrder_accepted fuel w _ Hquiet Hacc) as (w' & Hs).
        rewrite <- Hsoft in Hs.
        destruct (softDelete_spec _ _ _ _ _ _ _ Hs) as (_ & Hok).
        destruct (Hok eq_refl) as (_ & _ & Hf & Hd & Hc & _).
        rewrite Hid in Hf. unfold deletion in Hd. injection Hd.
        intros Hby Hat Hflag.
        exists w', (preSaveOrder w (set_deletion true (Some (now w)) userId o)).
        split; [unfold deleteOrder; rewrite Hfind, Hdel, Hcan; simpl;
                rewrite Hs; reflexivity|].
        split; [exact Hf|]. split; [exact Hc|]. split; [exact Hflag|].
        split; [exact Hat|]. split; [exact Hby|].
        intros fuel2 user2. unfold deleteOrder. rewrite Hf, Hflag. reflexivity.
  - intros w' r. unfold deleteOrder.
    destruct (findOrderById w id) as [o|]; [|intro H; inversion H; reflexivity].
    destruct (wo_isDeleted o); [intro H; inversion H; reflexivity|].
    destruct (negb (WorkOrderDoc.canDelete o)); [intro H; inversion H; reflexivity|].
    destruct (WorkOrderDoc.softDelete fuel w o userId) as [[[w1 o1] e]|] eqn:Hs;
      [|discriminate].
    destruct (softDelete_spec _ _ _ _ _ _ _ Hs) as (Hids & _).
    destruct e; intro H; inversion H; subst; exact Hids.
Qed.

(** The sample order is deleted by the staff; a second request is refused. *)
Lemma deleteOrder_cases_witness :
  exists w' o',
    deleteOrder 1 (sampleWorld [sampleOrder pendiente_asignacion None] [] delivers)
      (Some 3%N) 100%N = Some (w', Ok "Orden eliminada exitosamente" tt) /\
    findOrderById w' 100%N = Some o' /\
    wo_isDeleted o' = true /\ wo_deletedAt o' = Some 5000 /\
    wo_deletedBy o' = Some 3%N /\
    deleteOrder 1 w' (Some 3%N) 100%N
    = Some (w', Fail 400 "ORDER_ALREADY_DELETED" "La orden ya está eliminada" None).
Proof.
  destruct (deleteOrder_cases 0
              (sampleWorld [sampleOrder pendiente_asignacion None] [] delivers)
              (Some 3%N) 100%N) as (_ & H & _).
  destruct (H (sampleOrder pendiente_asignacion None) eq_refl) as (_ & _ & H3).
  destruct (H3 eq_refl eq_refl) as (_ & Hok).
  destruct (Hok ltac:(vm_compute; reflexivity))
    as (w' & o' & Hr & Hf & _ & Hflag & Hat & Hby & Hagain).
  exists w', o'. split; [exact Hr|]. split; [exact Hf|]. split; [exact Hflag|].
  split; [exact Hat|]. split; [exact Hby|]. apply Hagain.
Defined.

(** * Further properties: the life of an order *)

Lemma historyChain_push from l to next by_ at_ notes_ :
  historyChain from l to ->
  In (to, next) transitionTable ->
  historyChain from (l ++ [historyEntry to next by_ at_ notes_]) next.
Proof.
  revert from. induction l as [|h rest IH]; simpl; intros from Hc Hin.
  - subst to. repeat split. exact Hin.
  - destruct Hc as (Hp & Ht & Hrest). repeat split; auto.
Qed.

Lemma changeStatus_keeps_deletion fuel w o t by_ notes_ w' o' e :
  changeStatus fuel w o t by_ notes_ = Some (w', o', e) -> deletion o' = deletion o.
Proof.
  unfold changeStatus. destruct (validateStatusTransition o t).
  - destruct (status_eqb t entregado); intro H;
      apply saveOrder_keeps_deletion in H; exact H.
  - intro H; inversion H; subst. reflexivity.
Qed.

Lemma changeStatus_update_ids fuel w o t by_ notes_ w' o' e :
  changeStatus fuel w o t by_ notes_ = Some (w', o', e) ->
  map wo_id (orders w') = map wo_id (orders w).
Proof.
  unfold changeStatus. destruct (validateStatusTransition o t).
  - apply saveOrder_update_ids.
  - intro H; inversion H; subst. reflexivity.
Qed.

Lemma validation_in_table o t :
  validateStatusTransition o t = Valid ->
  In (status o, t) transitionTable /\ (t = en_progreso -> mechanicId o <> None).
Proof.
  unfold validateStatusTransition.
  destruct (includes (transitions (status o)) t) eqn:Hinc; simpl; [|discriminate].
  apply includes_table in Hinc.
  destruct (status_eqb t en_progreso) eqn:Ht; simpl.
  - destruct (mechanicId o); simpl; [|discriminate].
    intros _. split; [assumption | intros _; discriminate].
  - intros _. split; [assumption|]. intro Heq. subst t. discriminate Ht.
Qed.

Lemma changeStatus_eq fuel w o t by_ notes_ :
  validateStatusTransition o t = Valid ->
  changeStatus fuel w o t by_ notes_
  = saveOrder fuel false w (withNewStatus w o t by_ notes_).
Proof. intro Hv. unfold changeStatus, withNewStatus. rewrite Hv. reflexivity. Qed.

Lemma withNewStatus_fields w o t by_ notes_ :
  wo_id (withNewStatus w o t by_ notes_) = wo_id o /\
  mechanicId (withNewStatus w o t by_ notes_) = mechanicId o /\
  status (withNewStatus w o t by_ notes_) = t /\
  statusHistory (withNewStatus w o t by_ notes_) =
    (statusHistory o ++
       [historyEntry (status o) t by_ (now w)
          (match notes_ with Some s => s | None => "" end)])%list.
Proof.
  unfold withNewStatus. destruct (status_eqb t entregado); repeat split.
Qed.

(** What [changeStatus] leaves in memory and in the store, whatever the
    outcome of its save. *)
Lemma changeStatus_outcomes fuel w o t by_ notes_ w' o' e :
  changeStatus fuel w o t by_ notes_ = Some (w', o', e) ->
  findOrderById w (wo_id o) = Some o ->
  movedOrNot w o t by_ notes_ o' /\
  exists stored,
    findOrderById w' (wo_id o) = Some stored /\
    movedOrNot w o t by_ notes_ stored.
Proof.
  intros H Hstored. unfold movedOrNot.
  destruct (validateStatusTransition o t) as [|reason] eqn:Hv.
  2:{ unfold changeStatus in H. rewrite Hv in H. inversion H; subst.
      split; [ | exists o'; split; [exact Hstored|] ];
        (split; [reflexivity | split; [reflexivity | left; split; reflexivity]]). }
  rewrite (changeStatus_eq fuel w o t by_ notes_ Hv) in H.
  destruct (withNewStatus_fields w o t by_ notes_) as (Hid & Hm & Hst & Hh).
  pose proof (saveOrder_spec _ _ _ _ _ _ _ H) as (Hc & _ & Hstep & _).
  assert (Hmoved : forall x, core x = core (withNewStatus w o t by_ notes_) ->
            mechanicId x = mechanicId o /\ wo_id x = wo_id o /\
            ((status x = status o /\ statusHistory x = statusHistory o) \/
             (Valid = Valid /\ status x = t /\
              statusHistory x =
                (statusHistory o ++
                   [historyEntry (status o) t by_ (now w)
                      (match notes_ with Some s => s | None => "" end)])%list))).
  { intros x Hx. core_fields Hx. repeat split; try congruence.
    right. repeat split; congruence. }
  split; [apply Hmoved; exact Hc|].
  destruct Hstep as [Ho | (s & Hs & Hcs)].
  - exists o. split.
    + rewrite (findOrderById_orders w w' _ Ho). exact Hstored.
    + auto.
  - exists s. rewrite Hid in Hs. split; [exact Hs | apply Hmoved; exact Hcs].
Qed.

(** X6: the status history replays the life of the order. When the
    history of a stored order walks the transition table from a first
    status to its current status, then after any [changeStatus],
    successful or not, the document in memory and the stored order each
    carry such a history again; a successful change adds exactly one
    entry. *)
Theorem history_replays (fuel : nat) (w : World) (o : WorkOrder) (t : Status)
    (by_ : option ObjectId) (notes_ : option string) (w' : World)
    (o' : WorkOrder) (e : option Exn) (first : Status) :
  findOrderById w (wo_id o) = Some o ->
  historyChain first (statusHistory o) (status o) ->
  changeStatus fuel w o t by_ notes_ = Some (w', o', e) ->
  historyChain first (statusHistory o') (status o') /\
  (forall stored, findOrderById w' (wo_id o) = Some stored ->
                  historyChain first (statusHistory stored) (status stored)) /\
  (e = None -> List.length (statusHistory o') = S (List.length (statusHistory o))).
Proof.
  intros Hstored Hchain H.
  destruct (changeStatus_outcomes _ _ _ _ _ _ _ _ _ H Hstored)
    as (Hmem & stored & Hfind & Hsto).
  assert (Hkeep : forall x, movedOrNot w o t by_ notes_ x ->
                  historyChain first (statusHistory x) (status x)).
  { intros x (_ & _ & [(Hs & Hh) | (Hv & Hs & Hh)]).
    - rewrite Hs, Hh. exact Hchain.
    - rewrite Hs, Hh. apply historyChain_push; [exact Hchain|].
      apply validation_in_table. exact Hv. }
  split; [apply Hkeep, Hmem|]. split.
  - intros s Hs. rewrite Hfind in Hs. inversion Hs; subst. apply Hkeep, Hsto.
  - intros ->.
    destruct (validateStatusTransition o t) as [|reason] eqn:Hv.
    + rewrite (changeStatus_eq fuel w o t by_ notes_ Hv) in H.
      apply saveOrder_spec in H. destruct H as (Hc & _).
      destruct (withNewStatus_fields w o t by_ notes_) as (_ & _ & _ & Hh).
      core_fields Hc.
      replace (statusHistory o') with (statusHistory (withNewStatus w o t by_ notes_))
        by (symmetry; assumption).
      rewrite Hh, length_app. simpl. lia.
    + unfold changeStatus in H. rewrite Hv in H. discriminate H.
Qed.

Lemma history_replays_witness :
  exists w' o',
    changeStatus 1 (sampleWorld [sampleOrder asignada (Some 7%N)] [] delivers)
      (sampleOrder asignada (Some 7%N)) en_progreso (Some 3%N) None
    = Some (w', o', None) /\
    historyChain asignada (statusHistory o') (status o').
Proof.
  pose proof (history_replays 1
                (sampleWorld [sampleOrder asignada (Some 7%N)] [] delivers)
                (sampleOrder asignada (Some 7%N)) en_progreso (Some 3%N) None
                _ _ None asignada eq_refl eq_refl ltac:(vm_compute; reflexivity))
    as (H & _).
  eexists. eexists. split; [vm_compute; reflexivity | exact H].
Defined.

Lemma table_into_later s t :
  In (s, t) transitionTable ->
  match t with
  | listo => s = en_progreso
  | entregado => s = listo
  | _ => True
  end.
Proof.
  destruct s, t; simpl; intro H; try exact I; try reflexivity;
    repeat match goal with
           | H : _ \/ _ |- _ => destruct H
           | H : (_, _) = (_, _) |- _ => discriminate H
           | H : False |- _ => destruct H
           end.
Qed.

(** X7: an order on which work has started (in progress, ready or
    delivered) has a mechanic, and [changeStatus] keeps it so, in memory
    and in the store, whatever its outcome. *)
Theorem started_orders_staffed (fuel : nat) (w : World) (o : WorkOrder)
    (t : Status) (by_ : option ObjectId) (notes_ : option string) (w' : World)
    (o' : WorkOrder) (e : option Exn) :
  findOrderById w (wo_id o) = Some o ->
  staffed o ->
  changeStatus fuel w o t by_ notes_ = Some (w', o', e) ->
  staffed o' /\
  (forall stored, findOrderById w' (wo_id o) = Some stored -> staffed stored).
Proof.
  intros Hstored Hstaffed H.
  destruct (changeStatus_outcomes _ _ _ _ _ _ _ _ _ H Hstored)
    as (Hmem & stored & Hfind & Hsto).
  assert (Hkeep : forall x, movedOrNot w o t by_ notes_ x -> staffed x).
  { intros x (Hm & _ & [(Hs & _) | (Hv & Hs & _)]); unfold staffed in *.
    - rewrite Hs, Hm. exact Hstaffed.
    - rewrite Hs, Hm. intro Hstart.
      destruct (validation_in_table _ _ Hv) as (Hin & Hguard).
      destruct t; try discriminate Hstart.
      + apply Hguard. reflexivity.
      + apply Hstaffed. rewrite (table_into_later _ _ Hin); reflexivity.
      + apply Hstaffed. rewrite (table_into_later _ _ Hin); reflexivity. }
  split; [apply Hkeep, Hmem|].
  intros s Hs. rewrite Hfind in Hs. inversion Hs; subst. apply Hkeep, Hsto.
Qed.

Lemma started_orders_staffed_witness :
  exists w' o',
    changeStatus 1 (sampleWorld [sampleOrder asignada (Some 7%N)] [] delivers)
      (sampleOrder asignada (Some 7%N)) en_progreso (Some 3%N) None
    = Some (w', o', None) /\
    staffed o'.
Proof.
  assert (Hs : staffed (sampleOrder asignada (Some 7%N)))
    by (intro Hx; discriminate Hx).
  pose proof (started_orders_staffed 1
                (sampleWorld [sampleOrder asignada (Some 7%N)] [] delivers)
                (sampleOrder asignada (Some 7%N)) en_progreso (Some 3%N) None
                _ _ None eq_refl Hs ltac:(vm_compute; reflexivity))
    as (H & _).
  eexists. eexists. split; [vm_compute; reflexivity | exact H].
Defined.

(** X8: the order that [WorkOrder.create] stores for an approval is in
    [pendiente_asignacion] and has an empty history, no mechanic, no
    delivery date (so no repair time), no deletion stamp and a display
    number: it satisfies both invariants above and can be soft deleted. *)
Theorem created_order_fresh (fuel : nat) (w : World) (qi : option ObjectId)
    (snap : option VehicleSnapshot) (wd : string) (cost : Z) (w' : World)
    (o : WorkOrder) :
  createWorkOrder fuel w qi snap wd cost pendiente_asignacion = Some (w', o, None) ->
  findOrderById w' (wo_id o) = Some o /\
  status o = pendiente_asignacion /\
  mechanicId o = None /\
  actualDelivery o = None /\
  wo_isDeleted o = false /\ wo_deletedAt o = None /\ wo_deletedBy o = None /\
  historyChain pendiente_asignacion (statusHistory o) (status o) /\
  statusHistory o = [] /\
  staffed o /\
  getRepairTime o = None /\
  WorkOrderDoc.canDelete o = true /\
  exists number, orderNumber o = Some number /\ truthy number = true.
Proof.
  unfold createWorkOrder. intro H.
  pose proof (saveOrder_spec _ _ _ _ _ _ _ H) as (Hc & _ & _ & Hok).
  pose proof (saveOrder_keeps_deletion _ _ _ _ _ _ _ H) as Hd.
  specialize (Hok eq_refl). simpl in Hok.
  pose proof (core_id _ _ Hc) as Hid. simpl in Hid.
  core_fields Hc. unfold deletion in Hd. simpl in *. injection Hd.
  intros Hdby Hdat Hdel.
  assert (Hst : status o = pendiente_asignacion) by assumption.
  assert (Hh : statusHistory o = []) by assumption.
  assert (Hmech : mechanicId o = None) by assumption.
  assert (Hnotdel : actualDelivery o = None) by assumption.
  split; [rewrite Hid; exact Hok|].
  split; [exact Hst|]. split; [exact Hmech|]. split; [exact Hnotdel|].
  split; [exact Hdel|]. split; [exact Hdat|]. split; [exact Hdby|].
  split; [rewrite Hh, Hst; reflexivity|].
  split; [exact Hh|].
  split; [unfold staffed; rewrite Hst; discriminate|].
  split.
  { unfold getRepairTime.
    replace (actualDelivery o) with (@None Date) by (symmetry; assumption).
    reflexivity. }
  split; [unfold WorkOrderDoc.canDelete; rewrite Hst, Hdel; reflexivity|].
  (* the number comes from the pre('save') hook *)
  destruct fuel as [|k]; [discriminate|]. rewrite saveOrder_S in H.
  match type of H with match validateOrder ?doc with _ => _ end = _ =>
    destruct (validateOrder doc); [discriminate|];
    destruct (writeOrder true (set_nextId (N.succ (nextId w)) w)
                (preSaveOrder (set_nextId (N.succ (nextId w)) w) doc))
      as [w1 [err|]]; [discriminate|];
    unfold postSaveOrder in H; simpl in H; inversion H
  end.
  eexists. split; reflexivity.
Qed.

Lemma created_order_fresh_witness :
  exists w' o,
    createWorkOrder 1 (worldPending []) (Some 1%N)
      (Some (castSnapshot sampleVehicle)) (workDescriptionOf sampleQuote) 100000
      pendiente_asignacion = Some (w', o, None) /\
    orderNumber o = Some "ORD-0001" /\
    status o = pendiente_asignacion /\
    mechanicId o = None /\
    statusHistory o = [] /\
    WorkOrderDoc.canDelete o = true.
Proof.
  pose proof (created_order_fresh 1 (worldPending []) (Some 1%N)
                (Some (castSnapshot sampleVehicle)) (workDescriptionOf sampleQuote)
                100000 _ _ ltac:(vm_compute; reflexivity))
    as (_ & Hst & Hmech & _ & _ & _ & _ & _ & Hh & _ & _ & Hcan & _).
  eexists. eexists. split; [vm_compute; reflexivity|].
  split; [reflexivity|]. split; [exact Hst|]. split; [exact Hmech|].
  split; [exact Hh | exact Hcan].
Defined.

(** * Further properties: assigning a mechanic *)

Lemma findMechanicById_id mechanics id m :
  findMechanicById mechanics id = Some m -> mech_id m = id.
Proof.
  unfold findMechanicById. intro H. apply find_some in H.
  destruct H as [_ H]. apply N.eqb_eq. exact H.
Qed.

(** What a successful [assignMechanic] leaves in the store. *)
Lemma assignMechanic_ok (fuel : nat) (mechanics : list Mechanic) (w : World)
    (userId : option ObjectId) (id m : ObjectId) (w' : World) (msg : string)
    (o' : WorkOrder) :
  assignMechanic fuel mechanics w userId id m = Some (w', Ok msg o') ->
  exists o mech,
    findOrderById w id = Some o /\
    findMechanicById mechanics m = Some mech /\ isActive mech = true /\
    findOrderById w' id = Some o' /\
    mechanicId o' = Some m /\
    deletion o' = deletion o /\
    (status o = pendiente_asignacion ->
     status o' = asignada /\
     statusHistory o' =
       (statusHistory o ++
          [historyEntry pendiente_asignacion asignada userId (now w)
             "Mecánico asignado"])%list) /\
    (status o <> pendiente_asignacion ->
     status o' = status o /\ statusHistory o' = statusHistory o).
Proof.
  unfold assignMechanic.
  destruct (findOrderById w id) as [o|] eqn:Hfind; [|discriminate].
  pose proof (findOrderById_id _ _ _ Hfind) as Hid.
  destruct (findMechanicById mechanics m) as [mech|] eqn:Hmech; [|discriminate].
  destruct (isActive mech) eqn:Hact; simpl; [|discriminate].
  destruct (status_eqb (status o) pendiente_asignacion) eqn:Hst.
  - (* first assignment: changeStatus *)
    apply status_eqb_eq in Hst.
    assert (Hv : validateStatusTransition (set_mechanicId (Some m) o) asignada = Valid)
      by (unfold validateStatusTransition; simpl; rewrite Hst; reflexivity).
    rewrite (changeStatus_eq fuel w _ asignada userId (Some "Mecánico asignado") Hv).
    destruct (saveOrder fuel false w _) as [[[w1 o1] [e|]]|] eqn:Hs;
      [discriminate| |discriminate].
    intro H; inversion H; subst w1 o1 msg.
    pose proof (saveOrder_spec _ _ _ _ _ _ _ Hs) as (Hc & _ & _ & Hok).
    pose proof (saveOrder_keeps_deletion _ _ _ _ _ _ _ Hs) as Hd.
    destruct (withNewStatus_fields w (set_mechanicId (Some m) o) asignada userId
                (Some "Mecánico asignado")) as (Hid1 & Hm1 & Hst1 & Hh1).
    specialize (Hok eq_refl). rewrite Hid1 in Hok. simpl in Hok, Hm1, Hh1.
    rewrite Hid in Hok.
    unfold withNewStatus, push, historyEntry in Hc. simpl in Hc. rewrite Hst in Hc.
    assert (Hmo : mechanicId o' = Some m) by (core_fields Hc; assumption).
    assert (Hso : status o' = asignada) by (core_fields Hc; assumption).
    assert (Hho : statusHistory o' =
                  (statusHistory o ++
                     [historyEntry pendiente_asignacion asignada userId (now w)
                        "Mecánico asignado"])%list)
      by (core_fields Hc; assumption).
    assert (Hdo : deletion o' = deletion o) by (rewrite Hd; reflexivity).
    exists o, mech.
    split; [first [assumption | reflexivity]|].
    split; [first [assumption | reflexivity]|].
    split; [first [assumption | reflexivity]|].
    split; [exact Hok|]. split; [exact Hmo|]. split; [exact Hdo|].
    split; [intros _; split; assumption | intro Hne; contradiction].
  - (* reassignment: plain save *)
    destruct (saveOrder fuel false w (set_mechanicId (Some m) o))
      as [[[w1 o1] [e|]]|] eqn:Hs; [discriminate| |discriminate].
    intro H; inversion H; subst w1 o1 msg.
    pose proof (saveOrder_spec _ _ _ _ _ _ _ Hs) as (Hc & _ & _ & Hok).
    pose proof (saveOrder_keeps_deletion _ _ _ _ _ _ _ Hs) as Hd.
    specialize (Hok eq_refl). simpl in Hok. rewrite Hid in Hok.
    assert (Hne : status o <> pendiente_asignacion)
      by (intro Heq; rewrite Heq in Hst; discriminate).
    assert (Hmo : mechanicId o' = Some m) by (core_fields Hc; assumption).
    assert (Hso : status o' = status o) by (core_fields Hc; assumption).
    assert (Hho : statusHistory o' = statusHistory o) by (core_fields Hc; assumption).
    exists o, mech.
    split; [first [assumption | reflexivity]|].
    split; [first [assumption | reflexivity]|].
    split; [first [assumption | reflexivity]|].
    split; [exact Hok|]. split; [exact Hmo|]. split; [exact Hd|].
    split; [intro Heq; contradiction | intros _; split; assumption].
Qed.

Lemma assignedDoc_quiet w o m userId :
  hookFires o = false -> hookFires (assignedDoc w o m userId) = false.
Proof.
  intro Hq. unfold assignedDoc. simpl.
  destruct (status_eqb (status o) pendiente_asignacion); [reflexivity | exact Hq].
Qed.

Lemma assignMechanic_save fuel mechanics w userId id m o mech :
  findOrderById w id = Some o ->
  findMechanicById mechanics m = Some mech ->
  isActive mech = true ->
  assignMechanic fuel mechanics w userId id m
  = match saveOrder fuel false w (assignedDoc w o m userId) with
    | None => None
    | Some (w1, _, Some e) => Some (w1, Thrown e)
    | Some (w1, order2, None) => Some (w1, Ok "Mecánico asignado exitosamente" order2)
    end.
Proof.
  intros Hfind Hmech Hact. unfold assignMechanic, assignedDoc.
  rewrite Hfind, Hmech, Hact. cbv zeta. simpl negb. cbv iota.
  destruct (status_eqb (status (set_mechanicId (Some m) o)) pendiente_asignacion)
    eqn:Hst; [|reflexivity].
  simpl in Hst. apply status_eqb_eq in Hst.
  rewrite (changeStatus_eq fuel w _ asignada userId (Some "Mecánico asignado"));
    [reflexivity|].
  unfold validateStatusTransition. simpl. rewrite Hst. reflexivity.
Qed.

(** X9: [assignMechanic] answers 404 ORDER_NOT_FOUND for an absent order,
    404 MECHANIC_NOT_FOUND for an absent mechanic and 400
    MECHANIC_INACTIVE for an inactive one, each time leaving the world as
    it was. Otherwise, for an order with no notification due, it returns
    at the first level of the save bound: with success when the save goes
    through, and passing the exception on, the stored orders being as they
    were, when a validator or the datastore refuses the save. After a
    success the stored order is the one returned and has the mechanic; an
    order that was in [pendiente_asignacion] is now [asignada] with one
    more history entry (from [pendiente_asignacion] to [asignada], by the
    caller, at the clock reading, noted "Mecánico asignado"); an order in
    any other status, delivered included, keeps its status and its
    history. No answer adds or removes an order. *)
Theorem assignMechanic_cases (fuel : nat) (mechanics : list Mechanic) (w : World)
    (userId : option ObjectId) (id m : ObjectId) :
  (findOrderById w id = None ->
   assignMechanic fuel mechanics w userId id m
   = Some (w, Fail 404 "ORDER_NOT_FOUND" "Orden de trabajo no encontrada" None)) /\
  (forall o, findOrderById w id = Some o ->
     (findMechanicById mechanics m = None ->
      assignMechanic fuel mechanics w userId id m
      = Some (w, Fail 404 "MECHANIC_NOT_FOUND" "Mecánico no encontrado" None)) /\
     (forall mech, findMechanicById mechanics m = Some mech ->
        (isActive mech = false ->
         assignMechanic fuel mechanics w userId id m
         = Some (w, Fail 400 "MECHANIC_INACTIVE" "El mecánico no está activo" None)) /\
        (isActive mech = true -> hookFires o = false ->
         (orderSaveAccepted w (assignedDoc w o m userId) = true ->
          exists w' o',
            assignMechanic (S fuel) mechanics w userId id m
            = Some (w', Ok "Mecánico asignado exitosamente" o')) /\
         (orderSaveAccepted w (assignedDoc w o m userId) = false ->
          exists w' e,
            assignMechanic (S fuel) mechanics w userId id m = Some (w', Thrown e) /\
            orders w' = orders w)))) /\
  (forall w' r,
     assignMechanic fuel mechanics w userId id m = Some (w', r) ->
     map wo_id (orders w') = map wo_id (orders w) /\
     (forall c code msg d, r = Fail c code msg d -> w' = w) /\
     (forall msg o', r = Ok msg o' ->
        exists o mech,
          findOrderById w id = Some o /\
          findMechanicById mechanics m = Some mech /\ isActive mech = true /\
          findOrderById w' id = Some o' /\
          mechanicId o' = Some m /\
          deletion o' = deletion o /\
          (status o = pendiente_asignacion ->
           status o' = asignada /\
           statusHistory o' =
             (statusHistory o ++
                [{| previousStatus := pendiente_asignacion; newStatus := asignada;
                    changedBy := userId; changedAt := now w;
                    notes := "Mecánico asignado" |}])%list) /\
          (status o <> pendiente_asignacion ->
           status o' = status o /\ statusHistory o' = statusHistory o))).
Proof.
  split; [|split].
  - intro Hfind. unfold assignMechanic. rewrite Hfind. reflexivity.
  - intros o Hfind. split.
    + intro Hmech. unfold assignMechanic. rewrite Hfind, Hmech. reflexivity.
    + intros mech Hmech. split.
      * intro Hact. unfold assignMechanic. rewrite Hfind, Hmech, Hact. reflexivity.
      * intros Hact Hq.
        pose proof (assignedDoc_quiet w o m userId Hq) as Hquiet.
        rewrite (assignMechanic_save (S fuel) _ _ _ _ _ _ _ Hfind Hmech Hact).
        split; intro Hacc.
        -- destruct (saveOrder_accepted fuel w _ Hquiet Hacc) as (w' & ->). eauto.
        -- destruct (saveOrder_refused fuel w _ Hquiet Hacc)
             as (w' & d' & e & -> & Ho). eauto.
  - intros w' r H. split; [|split].
    + (* no order added or removed *)
      revert H. unfold assignMechanic.
      destruct (findOrderById w id) as [o|]; [|intro H; inversion H; reflexivity].
      destruct (findMechanicById mechanics m) as [mech|];
        [|intro H; inversion H; reflexivity].
      destruct (negb (isActive mech)); [intro H; inversion H; reflexivity|].
      cbv zeta.
      destruct (status_eqb (status (set_mechanicId (Some m) o)) pendiente_asignacion).
      * destruct (changeStatus fuel w _ asignada userId _) as [[[w1 o1] e]|] eqn:Hs;
          [|discriminate].
        apply changeStatus_update_ids in Hs.
        destruct e; intro H; inversion H; subst; exact Hs.
      * destruct (saveOrder fuel false w _) as [[[w1 o1] e]|] eqn:Hs; [|discriminate].
        apply saveOrder_update_ids in Hs.
        destruct e; intro H; inversion H; subst; exact Hs.
    + (* refusals *)
      intros c code msg d Hr. subst r. revert H. unfold assignMechanic.
      destruct (findOrderById w id) as [o|]; [|intro H; inversion H; reflexivity].
      destruct (findMechanicById mechanics m) as [mech|];
        [|intro H; inversion H; reflexivity].
      destruct (negb (isActive mech)); [intro H; inversion H; reflexivity|].
      cbv zeta.
      destruct (status_eqb (status (set_mechanicId (Some m) o)) pendiente_asignacion).
      * destruct (changeStatus fuel w _ asignada userId _) as [[[w1 o1] [e|]]|];
          discriminate.
      * destruct (saveOrder fuel false w _) as [[[w1 o1] [e|]]|]; discriminate.
    + intros msg o' Hr. subst r.
      exact (assignMechanic_ok _ _ _ _ _ _ _ _ _ H).
Qed.

(** The first assignment of the sample order. *)
Lemma assignMechanic_cases_witness :
  exists w' o',
    assignMechanic 1
      [{| mech_id := 7%N; mech_userId := 20%N; firstName := "Test";
          lastName1 := "Mechanic"; lastName2 := None; phone := "+56912345678";
          isActive := true; mech_isDeleted := false |}]
      (sampleWorld [sampleOrder pendiente_asignacion None] [] delivers)
      (Some 3%N) 100%N 7%N
    = Some (w', Ok "Mecánico asignado exitosamente" o') /\
    status o' = asignada /\ mechanicId o' = Some 7%N /\
    statusHistory o' =
      [{| previousStatus := pendiente_asignacion; newStatus := asignada;
          changedBy := Some 3%N; changedAt := 5000;
          notes := "Mecánico asignado" |}].
Proof.
  destruct (assignMechanic_cases 0
      [{| mech_id := 7%N; mech_userId := 20%N; firstName := "Test";
          lastName1 := "Mechanic"; lastName2 := None; phone := "+56912345678";
          isActive := true; mech_isDeleted := false |}]
      (sampleWorld [sampleOrder pendiente_asignacion None] [] delivers)
      (Some 3%N) 100%N 7%N) as (_ & Hforward & _).
  destruct (Hforward (sampleOrder pendiente_asignacion None) eq_refl) as (_ & H).
  destruct (H _ eq_refl) as (_ & H2).
  destruct (H2 eq_refl eq_refl) as (Hok & _).
  destruct (Hok ltac:(vm_compute; reflexivity)) as (w' & o' & Hr).
  destruct (assignMechanic_cases 1
      [{| mech_id := 7%N; mech_userId := 20%N; firstName := "Test";
          lastName1 := "Mechanic"; lastName2 := None; phone := "+56912345678";
          isActive := true; mech_isDeleted := false |}]
      (sampleWorld [sampleOrder pendiente_asignacion None] [] delivers)
      (Some 3%N) 100%N 7%N) as (_ & _ & Hback).
  destruct (Hback _ _ Hr) as (_ & _ & Hfacts).
  destruct (Hfacts _ _ eq_refl) as (o & mech & Ho & _ & _ & _ & Hm & _ & Hp & _).
  vm_compute in Ho. inversion Ho; subst o.
  exists w', o'. split; [exact Hr|].
  destruct (Hp eq_refl) as (Hst & Hh).
  split; [exact Hst|]. split; [exact Hm | exact Hh].
Defined.

(** X10: once a mechanic has been assigned, the validator is the table
    alone: the stored order may move to exactly the statuses the table
    lists for its current status, [en_progreso] included. *)
Theorem assigned_order_follows_table (fuel : nat) (mechanics : list Mechanic)
    (w : World) (userId : option ObjectId) (id m : ObjectId) (w' : World)
    (msg : string) (o' : WorkOrder) :
  assignMechanic fuel mechanics w userId id m = Some (w', Ok msg o') ->
  forall t,
    validateStatusTransition o' t = Valid <-> In (status o', t) transitionTable.
Proof.
  intros H t.
  destruct (assignMechanic_ok _ _ _ _ _ _ _ _ _ H)
    as (o & mech & _ & _ & _ & _ & Hm & _).
  split.
  - intro Hv. apply validation_in_table in Hv. apply Hv.
  - intro Hin. apply includes_table in Hin.
    unfold validateStatusTransition. rewrite Hin, Hm. simpl.
    rewrite andb_false_r. reflexivity.
Qed.

Lemma assigned_order_follows_table_witness :
  exists w' o',
    assignMechanic 1
      [{| mech_id := 7%N; mech_userId := 20%N; firstName := "Test";
          lastName1 := "Mechanic"; lastName2 := None; phone := "+56912345678";
          isActive := true; mech_isDeleted := false |}]
      (sampleWorld [sampleOrder pendiente_asignacion None] [] delivers)
      (Some 3%N) 100%N 7%N
    = Some (w', Ok "Mecánico asignado exitosamente" o') /\
    validateStatusTransition o' en_progreso = Valid.
Proof.
  pose proof (assigned_order_follows_table 1
      [{| mech_id := 7%N; mech_userId := 20%N; firstName := "Test";
          lastName1 := "Mechanic"; lastName2 := None; phone := "+56912345678";
          isActive := true; mech_isDeleted := false |}]
      (sampleWorld [sampleOrder pendiente_asignacion None] [] delivers)
      (Some 3%N) 100%N 7%N _ _ _ ltac:(vm_compute; reflexivity)) as H.
  eexists. eexists. split; [vm_compute; reflexivity|].
  apply H. simpl. tauto.
Defined.

Lemma existsb_true_in {A} (f : A -> bool) l x :
  In x l -> f x = true -> existsb f l = true.
Proof. intros Hin Hf. apply existsb_exists. eauto. Qed.

(** X11: [Mechanic.canDelete] allows the delete exactly when every order
    of the mechanic is delivered or deleted. After a successful assignment
    to an order that is neither, the mechanic cannot be deleted, and the
    order itself can no longer be deleted: [deleteOrder] refuses and
    changes nothing. *)
Theorem assigned_mechanic_protected (fuel : nat) (mechanics : list Mechanic)
    (w : World) (userId : option ObjectId) (id m : ObjectId) (w' : World)
    (msg : string) (o' : WorkOrder) :
  assignMechanic fuel mechanics w userId id m = Some (w', Ok msg o') ->
  (forall this,
     MechanicDoc.canDelete w' this = CanDelete <->
     forall o, In o (orders w') -> mechanicId o = Some (mech_id this) ->
               status o = entregado \/ wo_isDeleted o = true) /\
  (forall mech,
     findMechanicById mechanics m = Some mech ->
     status o' <> entregado -> wo_isDeleted o' = false ->
     MechanicDoc.canDelete w' mech = CannotDelete MechanicDoc.msg_active_orders) /\
  (forall fuel2 user2, exists c code text,
     deleteOrder fuel2 w' user2 id = Some (w', Fail c code text None)).
Proof.
  intro H.
  destruct (assignMechanic_ok _ _ _ _ _ _ _ _ _ H)
    as (o & mech0 & Ho & Hmech0 & _ & Ho' & Hm & Hdel & Hpend & Hother).
  split; [|split].
  - intro this. unfold MechanicDoc.canDelete.
    destruct (existsb (MechanicDoc.isActiveOrderOf this) (orders w')) eqn:E.
    + split; [discriminate|]. intro Hall. exfalso.
      apply existsb_exists in E. destruct E as (x & Hin & Hx).
      unfold MechanicDoc.isActiveOrderOf in Hx.
      apply andb_true_iff in Hx. destruct Hx as (Hx & Hnd).
      apply andb_true_iff in Hx. destruct Hx as (Hxm & Hne).
      apply negb_true_iff in Hnd. apply negb_true_iff in Hne.
      assert (Hmx : mechanicId x = Some (mech_id this)).
      { destruct (mechanicId x) as [i|]; simpl in Hxm; [|discriminate].
        apply N.eqb_eq in Hxm. congruence. }
      destruct (Hall x Hin Hmx) as [Hs | Hd].
      * rewrite Hs in Hne. discriminate.
      * congruence.
    + split; [|reflexivity]. intros _ x Hin Hmx.
      pose proof (existsb_false _ _ E x Hin) as Hx.
      unfold MechanicDoc.isActiveOrderOf in Hx. rewrite Hmx in Hx. simpl in Hx.
      rewrite N.eqb_refl in Hx. simpl in Hx.
      destruct (status_eqb (status x) entregado) eqn:Hs.
      * left. apply status_eqb_eq. exact Hs.
      * right. simpl in Hx. apply negb_false_iff in Hx. exact Hx.
  - intros mech Hmech Hne Hnd. unfold MechanicDoc.canDelete.
    rewrite (existsb_true_in _ _ o'); [reflexivity| |].
    + unfold findOrderById in Ho'. apply find_some in Ho'. apply Ho'.
    + unfold MechanicDoc.isActiveOrderOf.
      rewrite Hm, (findMechanicById_id _ _ _ Hmech), Hnd. simpl.
      rewrite N.eqb_refl. simpl.
      destruct (status_eqb (status o') entregado) eqn:Hs; [|reflexivity].
      apply status_eqb_eq in Hs. contradiction.
  - intros fuel2 user2. unfold deleteOrder. rewrite Ho'.
    destruct (wo_isDeleted o') eqn:Hd; [eauto|].
    assert (Hcan : WorkOrderDoc.canDelete o' = false).
    { unfold WorkOrderDoc.canDelete.
      destruct (status_eqb (status o) pendiente_asignacion) eqn:Hs.
      - apply status_eqb_eq in Hs. destruct (Hpend Hs) as (-> & _). reflexivity.
      - assert (Hne : status o <> pendiente_asignacion)
          by (intro Heq; rewrite Heq in Hs; discriminate).
        destruct (Hother Hne) as (-> & _). rewrite Hs. reflexivity. }
    rewrite Hcan. simpl. eauto.
Qed.

Lemma assigned_mechanic_protected_witness :
  exists w' o',
    assignMechanic 1
      [{| mech_id := 7%N; mech_userId := 20%N; firstName := "Test";
          lastName1 := "Mechanic"; lastName2 := None; phone := "+56912345678";
          isActive := true; mech_isDeleted := false |}]
      (sampleWorld [sampleOrder pendiente_asignacion None] [] delivers)
      (Some 3%N) 100%N 7%N
    = Some (w', Ok "Mecánico asignado exitosamente" o') /\
    exists c code text,
      deleteOrder 1 w' (Some 3%N) 100%N = Some (w', Fail c code text None).
Proof.
  pose proof (assigned_mechanic_protected 1
      [{| mech_id := 7%N; mech_userId := 20%N; firstName := "Test";
          lastName1 := "Mechanic"; lastName2 := None; phone := "+56912345678";
          isActive := true; mech_isDeleted := false |}]
      (sampleWorld [sampleOrder pendiente_asignacion None] [] delivers)
      (Some 3%N) 100%N 7%N _ _ _ ltac:(vm_compute; reflexivity)) as (_ & _ & H).
  eexists. eexists. split; [vm_compute; reflexivity|].
  apply (H 1%nat (Some 3%N)).
Defined.

(** * Further properties: a processed quote *)

Lemma validateToken_processed w q tok :
  q_status q <> pending -> exists error, validateToken w q tok = TokenInvalid error.
Proof.
  intro Hne. unfold validateToken.
  destruct (js_find (hasToken tok) (approvalTokens q)); [|eauto].
  destruct (used a); [eauto|].
  destruct (validUntil q <? now w); [eauto|].
  destruct (quoteStatus_eqb (q_status q) pending) eqn:E; simpl; [|eauto].
  apply quoteStatus_eqb_eq in E. contradiction.
Qed.

Lemma not_pending q : q_status q <> pending -> quoteStatus_eqb (q_status q) pending = false.
Proof.
  intro Hne. destruct (quoteStatus_eqb (q_status q) pending) eqn:E; [|reflexivity].
  apply quoteStatus_eqb_eq in E. contradiction.
Qed.

(** X12: a quote that has left [pending] stays as it is: the two token
    handlers, the two manual handlers, [updateQuote], [sendQuoteEmail] and
    [softDelete] all refuse it, whatever token, body or caller they are
    given, and leave the world as it was. *)
Theorem processed_quote_is_final (fuel : nat) (w : World) (id : ObjectId) (q : Quote) :
  findQuoteById w id = Some q ->
  q_status q <> pending ->
  (forall tok ip ua, exists heading,
     approveQuote fuel w id tok ip ua = Some (w, Page 400 heading)) /\
  (forall tok ip ua, exists heading,
     rejectQuote w id tok ip ua = (w, Page 400 heading)) /\
  approveQuoteManual fuel w id
  = Some (w, JsonError 400 "QUOTE_ALREADY_PROCESSED" "El presupuesto ya fue procesado") /\
  rejectQuoteManual w id
  = (w, JsonError 400 "QUOTE_ALREADY_PROCESSED" "El presupuesto ya fue procesado") /\
  (forall body,
     updateQuote w id body
     = (w, Fail 400 "QUOTE_CANNOT_EDIT"
             "Solo se pueden editar presupuestos en estado pendiente" None)) /\
  (forall a r,
     sendQuoteEmail w id a r
     = (w, Fail 400 "QUOTE_ALREADY_PROCESSED" "El presupuesto ya fue procesado" None)) /\
  (forall by_,
     QuoteDoc.softDelete w q by_ = (w, q, Some (Error QuoteDoc.msg_cannot_delete))).
Proof.
  intros Hq Hne. pose proof (not_pending q Hne) as Hs.
  split; [|split; [|split; [|split; [|split; [|split]]]]].
  - intros [tok|] ip ua; unfold approveQuote; [|eauto].
    destruct (negb (truthy tok)); [eauto|]. rewrite Hq.
    destruct (validateToken_processed w q tok Hne) as (error & ->). eauto.
  - intros [tok|] ip ua; unfold rejectQuote; [|eauto].
    destruct (negb (truthy tok)); [eauto|]. rewrite Hq.
    destruct (validateToken_processed w q tok Hne) as (error & ->). eauto.
  - unfold approveQuoteManual. rewrite Hq, Hs. reflexivity.
  - unfold rejectQuoteManual. rewrite Hq, Hs. reflexivity.
  - intro body. unfold updateQuote, QuoteDoc.canEdit. rewrite Hq, Hs. reflexivity.
  - intros a r. unfold sendQuoteEmail. rewrite Hq, Hs. reflexivity.
  - intro by_. unfold QuoteDoc.softDelete, QuoteDoc.canDelete. rewrite Hs. reflexivity.
Qed.

Lemma processed_quote_is_final_witness :
  approveQuoteManual 1
    (set_quotes [set_q_status rejected sampleQuote] (worldPending [])) 1%N
  = Some (set_quotes [set_q_status rejected sampleQuote] (worldPending []),
          JsonError 400 "QUOTE_ALREADY_PROCESSED" "El presupuesto ya fue procesado").
Proof.
  apply (processed_quote_is_final 1
           (set_quotes [set_q_status rejected sampleQuote] (worldPending []))
           1%N (set_q_status rejected sampleQuote)).
  - vm_compute. reflexivity.
  - simpl. discriminate.
Defined.

(** * Further properties: editing a quote *)

Lemma validateQuote_content y q :
  validateQuote y q = None ->
  (20 <= js_length (description q) <= 2000)%nat /\
  (20 <= js_length (proposedWork q) <= 2000)%nat /\
  0 <= q_estimatedCost q.
Proof.
  unfold validateQuote, exceeds, shorter.
  destruct (negb (isSome (clientId q))); [discriminate|].
  destruct (vehicle q) as [v|]; [|discriminate].
  destruct (validateVehicle y v); [discriminate|].
  destruct (negb (truthy (description q))); [discriminate|].
  destruct (Nat.ltb (js_length (description q)) 20) eqn:D1; [discriminate|].
  destruct (Nat.ltb 2000 (js_length (description q))) eqn:D2; [discriminate|].
  destruct (negb (truthy (proposedWork q))); [discriminate|].
  destruct (Nat.ltb (js_length (proposedWork q)) 20) eqn:P1; [discriminate|].
  destruct (Nat.ltb 2000 (js_length (proposedWork q))) eqn:P2; [discriminate|].
  destruct (q_estimatedCost q <? 0) eqn:C; [discriminate|].
  intros _.
  apply Nat.ltb_ge in D1, D2, P1, P2. apply Z.ltb_ge in C.
  repeat split; assumption.
Qed.

Lemma canEdit_true q :
  QuoteDoc.canEdit q = true -> q_status q = pending /\ q_isDeleted q = false.
Proof.
  unfold QuoteDoc.canEdit. intro H. apply andb_true_iff in H.
  destruct H as (Hs & Hd). apply quoteStatus_eqb_eq in Hs.
  apply negb_true_iff in Hd. auto.
Qed.

Lemma validateToken_fields w w' q q' tok :
  now w' = now w ->
  approvalTokens q' = approvalTokens q ->
  validUntil q' = validUntil q ->
  q_status q' = q_status q ->
  validateToken w' q' tok = validateToken w q tok.
Proof. unfold validateToken. intros -> -> -> ->. reflexivity. Qed.

Lemma quoteEnv_now w w' : quoteEnv w' = quoteEnv w -> now w' = now w.
Proof. unfold quoteEnv. intro H. injection H. intros. assumption. Qed.

Lemma preSaveQuote_rest w q :
  q_isDeleted (preSaveQuote w q) = q_isDeleted q /\
  q_notes (preSaveQuote w q) = q_notes q.
Proof. unfold preSaveQuote. destruct (negb _); split; reflexivity. Qed.

Lemma canEdit_false q :
  QuoteDoc.canEdit q = false <-> q_status q <> pending \/ q_isDeleted q = true.
Proof.
  unfold QuoteDoc.canEdit. split.
  - intro H. apply andb_false_iff in H. destruct H as [Hs | Hd].
    + left. intro Hp. rewrite Hp in Hs. discriminate.
    + right. apply negb_false_iff in Hd. exact Hd.
  - intros [Hs | Hd].
    + rewrite (not_pending q Hs). reflexivity.
    + rewrite Hd. apply andb_false_r.
Qed.

(** X13: [updateQuote] answers 404 QUOTE_NOT_FOUND for an absent quote and
    400 QUOTE_CANNOT_EDIT for a processed or deleted one, and then leaves
    the world as it was. For a pending, undeleted quote it passes the
    exception on, the stored quotes being as they were, when a validator
    or the datastore refuses the save, and answers with success when the
    save goes through. The stored quote is then the one returned; it is
    still pending and undeleted, with the same tokens and order link, so
    that every token is judged as before the update; a description or
    proposed work given non-empty is taken and an empty or absent one is
    ignored, while notes and cost are taken as given, empty notes and a
    zero cost included; the stored description and proposed work have a
    length of 20 to 2000 and the cost is not negative. No order, client or
    mail is touched. *)
Theorem updateQuote_cases (w : World) (id : ObjectId) (body : QuoteChanges) :
  (findQuoteById w id = None ->
   updateQuote w id body
   = (w, Fail 404 "QUOTE_NOT_FOUND" "Presupuesto no encontrado" None)) /\
  (forall q, findQuoteById w id = Some q ->
     (q_status q <> pending \/ q_isDeleted q = true ->
      updateQuote w id body
      = (w, Fail 400 "QUOTE_CANNOT_EDIT"
              "Solo se pueden editar presupuestos en estado pendiente" None)) /\
     (q_status q = pending -> q_isDeleted q = false ->
      (quoteSaveAccepted w (applyChanges body q) = false ->
       exists w' e,
         updateQuote w id body = (w', Thrown e) /\
         quotes w' = quotes w /\ quoteEnv w' = quoteEnv w) /\
      (quoteSaveAccepted w (applyChanges body q) = true ->
       exists w' q',
         updateQuote w id body
         = (w', Ok "Presupuesto actualizado exitosamente" q') /\
         quoteEnv w' = quoteEnv w /\
         findQuoteById w' id = Some q' /\
         q_status q' = pending /\ q_isDeleted q' = false /\
         approvalTokens q' = approvalTokens q /\
         workOrderId q' = workOrderId q /\
         (forall tok, validateToken w' q' tok = validateToken w q tok) /\
         (b_description body = None \/ b_description body = Some "" ->
          description q' = description q) /\
         (forall d, b_description body = Some d -> d <> "" -> description q' = d) /\
         (b_proposedWork body = None \/ b_proposedWork body = Some "" ->
          proposedWork q' = proposedWork q) /\
         (forall p, b_proposedWork body = Some p -> p <> "" -> proposedWork q' = p) /\
         q_notes q' = match b_notes body with Some n => Some n | None => q_notes q end /\
         q_estimatedCost q' =
           match b_estimatedCost body with Some c => c | None => q_estimatedCost q end /\
         (20 <= js_length (description q') <= 2000)%nat /\
         (20 <= js_length (proposedWork q') <= 2000)%nat /\
         0 <= q_estimatedCost q'))).
Proof.
  split.
  - intro Hfind. unfold updateQuote. rewrite Hfind. reflexivity.
  - intros q Hfind. pose proof (findQuoteById_id _ _ _ Hfind) as Hid. split.
    + intro Hno. apply canEdit_false in Hno.
      unfold updateQuote. rewrite Hfind, Hno. reflexivity.
    + intros Hpend Hundel.
      assert (Hcan : QuoteDoc.canEdit q = true)
        by (unfold QuoteDoc.canEdit; rewrite Hpend, Hundel; reflexivity).
      unfold updateQuote. rewrite Hfind, Hcan. simpl negb. cbv iota.
      unfold quoteSaveAccepted.
      destruct (saveQuote w (applyChanges body q)) as [[w1 q1] e] eqn:Hs.
      pose proof Hs as Hsave. unfold saveQuote in Hsave.
      apply saveQuote_spec in Hs. destruct Hs as (Henv & Hrest).
      split; intro Hacc.
      * destruct (validateQuote (maxYear w) (applyChanges body q)) as [ev|] eqn:Hv.
        { inversion Hsave; subst w1 q1 e. exists w, ev.
          split; [reflexivity|]. split; reflexivity. }
        destruct (writeQuote w (preSaveQuote w (applyChanges body q)))
          as [w2 [ew|]] eqn:Hw; [|discriminate].
        inversion Hsave; subst w2 q1 e. exists w1, ew. split; [reflexivity|].
        split; [exact Hrest | exact Henv].
      * destruct (validateQuote (maxYear w) (applyChanges body q)) as [ev|] eqn:Hv;
          [discriminate|].
        destruct (writeQuote w (preSaveQuote w (applyChanges body q)))
          as [w2 [ew|]] eqn:Hw; [discriminate|].
        inversion Hsave; subst w2 q1 e. clear Hsave.
        remember (preSaveQuote w (applyChanges body q)) as q1 eqn:Hq1.
        destruct Hrest as (_ & _ & _ & Hstored).
        destruct (preSaveQuote_fields w (applyChanges body q))
          as (_ & Hst & Htok & Hlink & _ & Hcost & Hdesc & Hwork & Huntil & _).
        rewrite <- Hq1 in Hst, Htok, Hlink, Hcost, Hdesc, Hwork, Huntil.
        simpl in Hst, Htok, Hlink, Hcost, Hdesc, Hwork, Huntil, Hstored.
        rewrite Hid in Hstored.
        destruct (preSaveQuote_rest w (applyChanges body q)) as (Hdel1 & Hnotes1).
        rewrite <- Hq1 in Hdel1, Hnotes1. simpl in Hdel1.
        simpl in Hnotes1.
        pose proof Hv as Hval.
        rewrite <- validateQuote_preSave with (w := w) in Hval.
        rewrite <- Hq1 in Hval.
        destruct (validateQuote_content _ _ Hval) as (Hd & Hp & Hc).
        exists w1, q1. split; [reflexivity|]. split; [exact Henv|].
        split; [exact Hstored|].
        split; [congruence|]. split; [congruence|]. split; [exact Htok|].
        split; [exact Hlink|].
        split; [intro tok; apply validateToken_fields;
                [exact (quoteEnv_now _ _ Henv) | exact Htok | exact Huntil | exact Hst]|].
        split; [intros [Hb | Hb]; rewrite Hdesc, Hb; reflexivity|].
        split; [intros d Hb Hne; rewrite Hdesc, Hb;
                destruct d; [contradiction | reflexivity]|].
        split; [intros [Hb | Hb]; rewrite Hwork, Hb; reflexivity|].
        split; [intros p Hb Hne; rewrite Hwork, Hb;
                destruct p; [contradiction | reflexivity]|].
        split; [exact Hnotes1|]. split; [exact Hcost|].
        split; [exact Hd|]. split; [exact Hp | exact Hc].
Qed.

(** The description of the sample quote is replaced by one of twenty
    letters with tilde, which is twenty units long; an empty proposed work
    is ignored. *)
Lemma updateQuote_cases_witness :
  exists w' q',
    updateQuote (worldPending []) 1%N
      {| b_description := Some "ññññññññññññññññññññ"; b_proposedWork := Some "";
         b_estimatedCost := Some 0; b_notes := Some "" |}
    = (w', Ok "Presupuesto actualizado exitosamente" q') /\
    description q' = "ññññññññññññññññññññ" /\
    proposedWork q' = proposedWork sampleQuote /\
    q_estimatedCost q' = 0 /\ q_notes q' = Some "" /\
    (20 <= js_length (description q') <= 2000)%nat.
Proof.
  destruct (updateQuote_cases (worldPending []) 1%N
      {| b_description := Some "ññññññññññññññññññññ"; b_proposedWork := Some "";
         b_estimatedCost := Some 0; b_notes := Some "" |}) as (_ & H).
  destruct (H sampleQuote eq_refl) as (_ & H2).
  destruct (H2 eq_refl eq_refl) as (_ & Hok).
  destruct (Hok ltac:(vm_compute; reflexivity))
    as (w' & q' & Hr & _ & _ & _ & _ & _ & _ & _ & _ & Hd & Hw & _ & Hn & Hc & Hlen & _).
  exists w', q'. split; [exact Hr|].
  split; [apply (Hd _ eq_refl); discriminate|].
  split; [apply Hw; right; reflexivity|].
  split; [exact Hc|]. split; [exact Hn | exact Hlen].
Defined.

(** * Further properties: sending a quote *)

Lemma quoteEnv_mail w w' :
  quoteEnv w' = quoteEnv w ->
  mailCalls w' = mailCalls w /\ maxRetries w' = maxRetries w.
Proof. unfold quoteEnv. intro H. injection H. intros. auto. Qed.

Lemma preSaveQuote_email w q :
  emailSent (preSaveQuote w q) = emailSent q /\
  emailSentAt (preSaveQuote w q) = emailSentAt q /\
  emailAttempts (preSaveQuote w q) = emailAttempts q.
Proof. unfold preSaveQuote. destruct (negb _); repeat split; reflexivity. Qed.

Lemma fresh_pair_only a r tok :
  tok <> a -> tok <> r ->
  js_find (hasToken tok) [freshToken a approve; freshToken r reject] = None.
Proof.
  intros Ha Hr. unfold js_find. simpl.
  destruct (hasToken tok (freshToken a approve)) eqn:E1;
    [apply hasToken_eq in E1; simpl in E1; congruence|].
  destruct (hasToken tok (freshToken r reject)) eqn:E2;
    [apply hasToken_eq in E2; simpl in E2; congruence|].
  reflexivity.
Qed.

(** What [sendQuoteEmail] leaves in the store once the mail has been
    attempted: the pending quote with the two fresh tokens and one more
    counted attempt. *)
Lemma sendQuoteEmail_stored w q a r w1 q1 w2 res w3 q3 sent at_ :
  saveQuote w (generateTokens q a r) = (w1, q1, None) ->
  EmailService.sendQuoteEmail w1 = (w2, res) ->
  saveQuote w2 (set_email sent at_ (emailAttempts q1 + 1) q1) = (w3, q3, None) ->
  findQuoteById w3 (q_id q) = Some q3 /\
  approvalTokens q3 = [freshToken a approve; freshToken r reject] /\
  q_status q3 = q_status q /\
  emailAttempts q3 = emailAttempts q + 1 /\
  emailSent q3 = sent /\ emailSentAt q3 = at_.
Proof.
  intros Hs1 Hm Hs2.
  apply saveQuote_spec in Hs1. destruct Hs1 as (_ & Hq1 & _ & _ & _).
  apply saveQuote_spec in Hs2. destruct Hs2 as (_ & Hq3 & _ & _ & Hstored).
  destruct (preSaveQuote_fields w (generateTokens q a r))
    as (Hid1 & Hst1 & Htok1 & _).
  destruct (preSaveQuote_email w (generateTokens q a r)) as (_ & _ & Hatt1).
  rewrite <- Hq1 in Hid1, Hst1, Htok1, Hatt1. simpl in Hid1, Hst1, Htok1, Hatt1.
  destruct (preSaveQuote_fields w2 (set_email sent at_ (emailAttempts q1 + 1) q1))
    as (Hid3 & Hst3 & Htok3 & _).
  destruct (preSaveQuote_email w2 (set_email sent at_ (emailAttempts q1 + 1) q1))
    as (Hsent3 & Hat3 & Hatt3).
  rewrite <- Hq3 in Hid3, Hst3, Htok3, Hsent3, Hat3, Hatt3.
  simpl in Hid3, Hst3, Htok3, Hsent3, Hat3, Hatt3, Hstored.
  rewrite Hid1 in Hstored.
  split; [exact Hstored|]. split; [congruence|]. split; [congruence|].
  split; [congruence|]. split; assumption.
Qed.

Lemma sendQuoteEmail_spec (w : World) (id : ObjectId) (a r : string)
    (w' : World) (reply : Reply (option Date)) :
  sendQuoteEmail w id a r = (w', reply) ->
  orders w' = orders w /\
  (mailCalls w <= mailCalls w'
               <= mailCalls w + Z.to_nat (Z.max 1 (maxRetries w)))%nat /\
  (forall c code msg d, reply = Fail c code msg d -> c <> 500 -> w' = w) /\
  (forall sent at_,
     (exists code msg d, reply = Fail 500 code msg d /\
        forall q, findQuoteById w id = Some q ->
                  sent = emailSent q /\ at_ = emailSentAt q) \/
     (exists msg, reply = Ok msg at_ /\ sent = true /\ at_ = Some (now w)) ->
     exists q q',
       findQuoteById w id = Some q /\ q_status q = pending /\
       findQuoteById w' id = Some q' /\ q_status q' = pending /\
       approvalTokens q' = [freshToken a approve; freshToken r reject] /\
       emailAttempts q' = emailAttempts q + 1 /\
       emailSent q' = sent /\ emailSentAt q' = at_ /\
       (mailCalls w < mailCalls w')%nat /\
       forall tok, tok <> a -> tok <> r ->
                   validateToken w' q' tok = TokenInvalid msg_invalid_token).
Proof.
  unfold sendQuoteEmail.
  destruct (findQuoteById w id) as [q|] eqn:Hfind.
  2:{ intro H; inversion H; subst. split; [reflexivity|]. split; [lia|].
      split; [reflexivity|].
      intros sent at_ [(code & msg & d & Hr & _) | (msg & Hr & _)]; discriminate. }
  destruct (quoteStatus_eqb (q_status q) pending) eqn:Hst; simpl.
  2:{ intro H; inversion H; subst. split; [reflexivity|]. split; [lia|].
      split; [reflexivity|].
      intros sent at_ [(code & msg & d & Hr & _) | (msg & Hr & _)]; discriminate. }
  apply quoteStatus_eqb_eq in Hst.
  destruct (match match clientId q with Some i => findClientById w i | None => None end
            with Some c => negb (truthy (c_email c)) | None => true end).
  { intro H; inversion H; subst. split; [reflexivity|]. split; [lia|].
    split; [reflexivity|].
    intros sent at_ [(code & msg & d & Hr & _) | (msg & Hr & _)]; discriminate. }
  destruct (saveQuote w (generateTokens q a r)) as [[w1 q1] [e1|]] eqn:Hs1.
  { intro H; inversion H; subst. apply saveQuote_spec in Hs1.
    destruct Hs1 as (Henv & _). destruct (quoteEnv_mail _ _ Henv) as (Hmc & _).
    split; [exact (quoteEnv_orders _ _ Henv)|]. split; [lia|].
    split; [discriminate|].
    intros sent at_ [(code & msg & d & Hr & _) | (msg & Hr & _)]; discriminate. }
  pose proof (saveQuote_spec _ _ _ _ _ Hs1) as (Henv1 & _).
  destruct (quoteEnv_mail _ _ Henv1) as (Hmc1 & Hmr1).
  destruct (EmailService.sendQuoteEmail w1) as [w2 res] eqn:Hm.
  pose proof (sendWithRetry_calls (Z.to_nat (maxRetries w1 - 1)) w1) as Hcalls.
  pose proof Hm as Hm'. unfold EmailService.sendQuoteEmail in Hm'.
  rewrite Hm' in Hcalls. simpl in Hcalls.
  apply sendWithRetry_spec in Hm'. destruct Hm' as (Henv2 & Hord2 & _).
  assert (Hnow2 : now w2 = now w).
  { env_fields Henv2. rewrite (quoteEnv_now _ _ Henv1) in *. assumption. }
  assert (Hbound : (mailCalls w < mailCalls w2
                    <= mailCalls w + Z.to_nat (Z.max 1 (maxRetries w)))%nat)
    by (rewrite Hmc1, Hmr1 in Hcalls; lia).
  assert (Hold : forall w3 q3,
            approvalTokens q3 = [freshToken a approve; freshToken r reject] ->
            forall tok, tok <> a -> tok <> r ->
                        validateToken w3 q3 tok = TokenInvalid msg_invalid_token).
  { intros w3 q3 Htok tok Ha Hr. unfold validateToken.
    rewrite Htok, (fresh_pair_only a r tok Ha Hr). reflexivity. }
  destruct (success res) eqn:Hsucc; simpl.
  - destruct (saveQuote w2 (set_email true (Some (now w2)) (emailAttempts q1 + 1) q1))
      as [[w3 q3] [e3|]] eqn:Hs2;
      intro H; inversion H; subst w' reply; clear H;
      pose proof (saveQuote_spec _ _ _ _ _ Hs2) as (Henv3 & Hrest);
      destruct (quoteEnv_mail _ _ Henv3) as (Hmc3 & _);
      (split; [rewrite (quoteEnv_orders _ _ Henv3), Hord2;
               exact (quoteEnv_orders _ _ Henv1)|]);
      (split; [lia|]); (split; [discriminate|]).
    + intros sent at_ [(code & msg & d & Hr & _) | (msg & Hr & _)]; discriminate.
    + intros sent at_ [(code & msg & d & Hr & _) | (msg & Hr & -> & ->)];
        [discriminate|].
      destruct (sendQuoteEmail_stored _ _ _ _ _ _ _ _ _ _ _ _ Hs1 Hm Hs2)
        as (Hstored & Htok & Hst3 & Hatt & Hsent & Hat).
      rewrite (findQuoteById_id _ _ _ Hfind) in Hstored.
      exists q, q3. split; [reflexivity|]. split; [exact Hst|].
      split; [exact Hstored|]. split; [congruence|]. split; [exact Htok|].
      split; [exact Hatt|]. split; [exact Hsent|].
      split; [rewrite Hat, Hnow2; reflexivity|]. split; [lia|].
      exact (Hold w3 q3 Htok).
  - destruct (saveQuote w2 (set_email (emailSent q1) (emailSentAt q1)
                                      (emailAttempts q1 + 1) q1))
      as [[w3 q3] [e3|]] eqn:Hs2;
      intro H; inversion H; subst w' reply; clear H;
      pose proof (saveQuote_spec _ _ _ _ _ Hs2) as (Henv3 & Hrest);
      destruct (quoteEnv_mail _ _ Henv3) as (Hmc3 & _);
      (split; [rewrite (quoteEnv_orders _ _ Henv3), Hord2;
               exact (quoteEnv_orders _ _ Henv1)|]);
      (split; [lia|]).
    + split; [discriminate|].
      intros sent at_ [(code & msg & d & Hr & _) | (msg & Hr & _)]; discriminate.
    + split; [intros c code msg d Hr Hc; inversion Hr; subst; exfalso; apply Hc;
              reflexivity|].
      intros sent at_ [(code & msg & d & Hr & Hq) | (msg & Hr & _)];
        [|discriminate].
      destruct (Hq q eq_refl) as (-> & ->).
      destruct (sendQuoteEmail_stored _ _ _ _ _ _ _ _ _ _ _ _ Hs1 Hm Hs2)
        as (Hstored & Htok & Hst3 & Hatt & Hsent & Hat).
      rewrite (findQuoteById_id _ _ _ Hfind) in Hstored.
      apply saveQuote_spec in Hs1. destruct Hs1 as (_ & Hq1 & _).
      destruct (preSaveQuote_email w (generateTokens q a r)) as (Hsent1 & Hat1 & _).
      rewrite <- Hq1 in Hsent1, Hat1. simpl in Hsent1, Hat1.
      exists q, q3. split; [reflexivity|]. split; [exact Hst|].
      split; [exact Hstored|]. split; [congruence|]. split; [exact Htok|].
      split; [exact Hatt|]. split; [congruence|].
      split; [congruence|]. split; [lia|].
      exact (Hold w3 q3 Htok).
Qed.

Lemma noAddress_eq w q :
  match match clientId q with Some i => findClientById w i | None => None end with
  | Some c => negb (truthy (c_email c))
  | None => true
  end = negb (hasAddress w q).
Proof.
  unfold hasAddress.
  destruct (match clientId q with Some i => findClientById w i | None => None end);
    reflexivity.
Qed.

(** Which answer [sendQuoteEmail] gives in which case. *)
Lemma sendQuoteEmail_shape w id a r w' reply :
  sendQuoteEmail w id a r = (w', reply) ->
  match reply with
  | Fail c code msg d =>
      (findQuoteById w id = None /\
       reply = Fail 404 "QUOTE_NOT_FOUND" "Presupuesto no encontrado" None) \/
      (exists q, findQuoteById w id = Some q /\ q_status q <> pending /\
         reply = Fail 400 "QUOTE_ALREADY_PROCESSED"
                   "El presupuesto ya fue procesado" None) \/
      (exists q, findQuoteById w id = Some q /\ q_status q = pending /\
         hasAddress w q = false /\
         reply = Fail 400 "CLIENT_NO_EMAIL"
                   "El cliente no tiene un email válido" None) \/
      (exists q, findQuoteById w id = Some q /\ q_status q = pending /\
         hasAddress w q = true /\
         reply = Fail 500 "EMAIL_SEND_FAILED"
                   "Error al enviar el correo electrónico" d)
  | Ok msg d =>
      msg = "Presupuesto enviado por correo exitosamente" /\
      exists q, findQuoteById w id = Some q /\ q_status q = pending /\
                hasAddress w q = true
  | Thrown e =>
      exists q, findQuoteById w id = Some q /\ q_status q = pending /\
                hasAddress w q = true
  end.
Proof.
  unfold sendQuoteEmail.
  destruct (findQuoteById w id) as [q|] eqn:Hfind.
  2:{ intro H; inversion H; subst. left. split; reflexivity. }
  destruct (quoteStatus_eqb (q_status q) pending) eqn:Hst; simpl.
  2:{ intro H; inversion H; subst. right. left. exists q.
      split; [reflexivity|]. split; [|reflexivity].
      intro Hp. rewrite Hp in Hst. discriminate. }
  apply quoteStatus_eqb_eq in Hst.
  rewrite noAddress_eq.
  destruct (hasAddress w q) eqn:Hadr; simpl.
  2:{ intro H; inversion H; subst. right. right. left. exists q.
      repeat split; assumption. }
  assert (Hq : exists q0, Some q = Some q0 /\ q_status q0 = pending /\
                          hasAddress w q0 = true) by eauto.
  destruct (saveQuote w (generateTokens q a r)) as [[w1 q1] [e1|]].
  { intro H; inversion H; subst. exact Hq. }
  destruct (EmailService.sendQuoteEmail w1) as [w2 res].
  destruct (negb (success res)).
  - destruct (saveQuote w2 _) as [[w3 q3] [e3|]]; intro H; inversion H; subst.
    + exact Hq.
    + right. right. right. exists q. repeat split; assumption.
  - destruct (saveQuote w2 _) as [[w3 q3] [e3|]]; intro H; inversion H; subst.
    + exact Hq.
    + split; [reflexivity | exact Hq].
Qed.

(** X14: [sendQuoteEmail] answers 404 QUOTE_NOT_FOUND for an absent quote,
    400 QUOTE_ALREADY_PROCESSED for a processed one and 400
    CLIENT_NO_EMAIL when the client of a pending quote is missing or has
    no address, each time leaving the world as it was; every other answer
    is for a pending quote whose client has an address. For such a quote
    it first stores two fresh tokens in place of the old ones: when that
    save is refused it passes the exception on and neither stores nor
    mails anything; otherwise it mails, with at most [maxRetries]
    attempts, and answers 500 EMAIL_SEND_FAILED, success, or with the
    exception of the second save. After a 500 the stored quote has one
    more counted attempt and its former sent flag; after a success the
    flag is set and the time is the clock reading. In both cases the fresh
    pair is what the quote holds, so a token string of an earlier mail is
    unknown to it. No order is touched. *)
Theorem sendQuoteEmail_cases (w : World) (id : ObjectId) (a r : string) :
  (findQuoteById w id = None ->
   sendQuoteEmail w id a r
   = (w, Fail 404 "QUOTE_NOT_FOUND" "Presupuesto no encontrado" None)) /\
  (forall q, findQuoteById w id = Some q ->
     (q_status q <> pending ->
      sendQuoteEmail w id a r
      = (w, Fail 400 "QUOTE_ALREADY_PROCESSED"
              "El presupuesto ya fue procesado" None)) /\
     (q_status q = pending -> hasAddress w q = false ->
      sendQuoteEmail w id a r
      = (w, Fail 400 "CLIENT_NO_EMAIL" "El cliente no tiene un email válido" None)) /\
     (q_status q = pending -> hasAddress w q = true ->
      (quoteSaveAccepted w (generateTokens q a r) = false ->
       exists w' e,
         sendQuoteEmail w id a r = (w', Thrown e) /\
         quotes w' = quotes w /\ mailCalls w' = mailCalls w) /\
      (quoteSaveAccepted w (generateTokens q a r) = true ->
       exists w' reply,
         sendQuoteEmail w id a r = (w', reply) /\
         (mailCalls w < mailCalls w')%nat /\
         ((exists e, reply = Thrown e) \/
          (exists detail,
             reply = Fail 500 "EMAIL_SEND_FAILED"
                       "Error al enviar el correo electrónico" detail) \/
          reply = Ok "Presupuesto enviado por correo exitosamente"
                    (Some (now w)))))) /\
  (forall w' reply,
     sendQuoteEmail w id a r = (w', reply) ->
     orders w' = orders w /\
     (mailCalls w <= mailCalls w' <= mailCalls w + mailBudget w)%nat /\
     (forall c code msg d, reply = Fail c code msg d -> c <> 500 -> w' = w) /\
     (forall e, reply = Thrown e ->
        exists q, findQuoteById w id = Some q /\ q_status q = pending /\
                  hasAddress w q = true) /\
     (forall code msg d, reply = Fail 500 code msg d ->
        quoteMailed w id a r w' emailSent emailSentAt) /\
     (forall msg d, reply = Ok msg d ->
        d = Some (now w) /\
        quoteMailed w id a r w' (fun _ => true) (fun _ => Some (now w)))).
Proof.
  assert (Hback : forall w' reply,
            sendQuoteEmail w id a r = (w', reply) ->
            (forall code msg d, reply = Fail 500 code msg d ->
               quoteMailed w id a r w' emailSent emailSentAt) /\
            (forall msg d, reply = Ok msg d ->
               d = Some (now w) /\
               quoteMailed w id a r w' (fun _ => true) (fun _ => Some (now w)))).
  { intros w' reply H.
    destruct (sendQuoteEmail_spec _ _ _ _ _ _ H) as (_ & _ & _ & Hs).
    pose proof (sendQuoteEmail_shape _ _ _ _ _ _ H) as Hshape.
    split.
    - intros code msg d Hr. subst reply.
      destruct Hshape as [(_ & Hx) | [(q & _ & _ & Hx) | [(q & _ & _ & _ & Hx)
                          | (q & Hq & _ & Hadr & _)]]]; try discriminate.
      destruct (Hs (emailSent q) (emailSentAt q)) as (q0 & q' & Hq0 & Hrest).
      { left. exists code, msg, d. split; [reflexivity|].
        intros q1 Hq1. rewrite Hq in Hq1. inversion Hq1; subst. auto. }
      rewrite Hq in Hq0. inversion Hq0; subst q0.
      destruct Hrest as (Hp & Hrest).
      exists q, q'. split; [exact Hq|]. split; [exact Hp|].
      split; [exact Hadr | exact Hrest].
    - intros msg d Hr. subst reply.
      destruct Hshape as (_ & q & Hq & _ & Hadr).
      assert (Hd : d = Some (now w)).
      { unfold sendQuoteEmail in H. rewrite Hq in H.
        destruct (negb (quoteStatus_eqb (q_status q) pending));
          [inversion H|].
        destruct (match match clientId q with Some i => findClientById w i | None => None end
                  with Some c => negb (truthy (c_email c)) | None => true end);
          [inversion H|].
        destruct (saveQuote w (generateTokens q a r)) as [[w1 q1] [e1|]] eqn:Hs1;
          [inversion H|].
        destruct (EmailService.sendQuoteEmail w1) as [w2 res] eqn:Hml.
        destruct (negb (success res)).
        - destruct (saveQuote w2 _) as [[w3 q3] [e3|]]; inversion H.
        - destruct (saveQuote w2 _) as [[w3 q3] [e3|]] eqn:Hs2;
            inversion H; subst.
          destruct (sendQuoteEmail_stored _ _ _ _ _ _ _ _ _ _ _ _ Hs1 Hml Hs2)
            as (_ & _ & _ & _ & _ & Hat).
          rewrite Hat. f_equal.
          apply saveQuote_spec in Hs1. destruct Hs1 as (Henv1 & _).
          unfold EmailService.sendQuoteEmail in Hml. apply sendWithRetry_spec in Hml.
          destruct Hml as (Henv2 & _). env_fields Henv2.
          rewrite (quoteEnv_now _ _ Henv1) in *. assumption. }
      split; [exact Hd|]. subst d.
      destruct (Hs true (Some (now w))) as (q0 & q' & Hq0 & Hrest).
      { right. exists msg. auto. }
      rewrite Hq in Hq0. inversion Hq0; subst q0.
      destruct Hrest as (Hp & Hrest).
      exists q, q'. split; [exact Hq|]. split; [exact Hp|].
      split; [exact Hadr | exact Hrest]. }
  split; [|split].
  - intro Hfind. unfold sendQuoteEmail. rewrite Hfind. reflexivity.
  - intros q Hfind. split; [|split].
    + intro Hne. unfold sendQuoteEmail. rewrite Hfind, (not_pending q Hne).
      reflexivity.
    + intros Hp Hadr. unfold sendQuoteEmail.
      rewrite Hfind, Hp, noAddress_eq, Hadr. reflexivity.
    + intros Hp Hadr. split; intro Hacc.
      * unfold sendQuoteEmail. rewrite Hfind, Hp, noAddress_eq, Hadr.
        simpl negb. cbv iota.
        unfold quoteSaveAccepted in Hacc. unfold saveQuote.
        destruct (validateQuote (maxYear w) (generateTokens q a r)) as [ev|];
          [exists w, ev; repeat split|].
        destruct (writeQuote w (preSaveQuote w (generateTokens q a r)))
          as [w1 [ew|]] eqn:Hw; [|discriminate].
        apply writeQuote_spec in Hw. destruct Hw as (Henv & Hq).
        destruct (quoteEnv_mail _ _ Henv) as (Hmc & _).
        exists w1, ew. split; [reflexivity|]. split; assumption.
      * assert (Hrun : exists w' reply, sendQuoteEmail w id a r = (w', reply))
          by (destruct (sendQuoteEmail w id a r); eauto).
        destruct Hrun as (w' & reply & H).
        exists w', reply. split; [exact H|].
        pose proof (sendQuoteEmail_shape _ _ _ _ _ _ H) as Hshape.
        destruct (Hback _ _ H) as (H500 & Hok).
        assert (Hmail : (mailCalls w < mailCalls w')%nat).
        { revert H. unfold sendQuoteEmail. rewrite Hfind, Hp, noAddress_eq, Hadr.
          simpl negb. cbv iota.
          destruct (saveQuote w (generateTokens q a r)) as [[w1 q1] e1] eqn:Hs1.
          assert (He1 : e1 = None).
          { unfold quoteSaveAccepted in Hacc. unfold saveQuote in Hs1.
            destruct (validateQuote (maxYear w) (generateTokens q a r));
              [discriminate|].
            destruct (writeQuote w (preSaveQuote w (generateTokens q a r)))
              as [w0 [ew|]]; [discriminate|]. inversion Hs1. reflexivity. }
          subst e1. apply saveQuote_spec in Hs1. destruct Hs1 as (Henv1 & _).
          destruct (quoteEnv_mail _ _ Henv1) as (Hmc1 & _).
          pose proof (sendWithRetry_calls (Z.to_nat (maxRetries w1 - 1)) w1) as Hc.
          unfold EmailService.sendQuoteEmail.
          destruct (sendWithRetry (Z.to_nat (maxRetries w1 - 1)) w1) as [w2 res].
          simpl in Hc.
          destruct (negb (success res));
            destruct (saveQuote w2 _) as [[w3 q3] e3] eqn:Hs2;
            apply saveQuote_spec in Hs2; destruct Hs2 as (Henv2 & _);
            destruct (quoteEnv_mail _ _ Henv2) as (Hmc2 & _);
            destruct e3; intro H; inversion H; subst; lia. }
        split; [exact Hmail|].
        destruct reply as [msg d | c code msg d | e].
        -- right. right. destruct Hshape as (-> & _).
           destruct (Hok _ _ eq_refl) as (-> & _). reflexivity.
        -- destruct Hshape as [(Hx & _) | [(q0 & Hq0 & Hne & _)
                               | [(q0 & Hq0 & _ & Hno & _) | (q0 & _ & _ & _ & Hx)]]].
           ++ rewrite Hfind in Hx. discriminate.
           ++ rewrite Hfind in Hq0. inversion Hq0; subst q0. contradiction.
           ++ rewrite Hfind in Hq0. inversion Hq0; subst q0.
              rewrite Hadr in Hno. discriminate.
           ++ right. left. exists d. exact Hx.
        -- left. eauto.
  - intros w' reply H.
    destruct (sendQuoteEmail_spec _ _ _ _ _ _ H) as (Ho & Hm & Hf & _).
    destruct (Hback _ _ H) as (H500 & Hok).
    split; [exact Ho|]. split; [exact Hm|]. split; [exact Hf|].
    split; [|split; [exact H500 | exact Hok]].
    intros e ->. exact (sendQuoteEmail_shape _ _ _ _ _ _ H).
Qed.

(** The mail of the sample quote fails at every attempt. *)
Lemma sendQuoteEmail_cases_witness :
  exists w' q',
    sendQuoteEmail (sampleWorld [] [] smtpDown) 1%N "new-approve" "new-reject"
    = (w', Fail 500 "EMAIL_SEND_FAILED" "Error al enviar el correo electrónico"
             (Some "SMTP down")) /\
    findQuoteById w' 1%N = Some q' /\
    emailAttempts q' = 2 /\
    approvalTokens q' = [freshToken "new-approve" approve;
                         freshToken "new-reject" reject] /\
    validateToken w' q' "tok-approve" = TokenInvalid msg_invalid_token.
Proof.
  destruct (sendQuoteEmail_cases (sampleWorld [] [] smtpDown) 1%N
              "new-approve" "new-reject") as (_ & _ & Hback).
  destruct (Hback _ _ ltac:(vm_compute; reflexivity)) as (_ & _ & _ & _ & H & _).
  destruct (H _ _ _ eq_refl)
    as (q & q' & Hq & _ & _ & Hq' & _ & Htok & Hatt & _ & _ & _ & Hold).
  vm_compute in Hq. inversion Hq; subst q.
  eexists. exists q'. split; [vm_compute; reflexivity|].
  split; [exact Hq'|]. split; [exact Hatt|]. split; [exact Htok|].
  apply Hold; discriminate.
Defined.

(** * Further properties: soft delete of a quote *)

Lemma preSaveQuote_deletion w q : q_deletion (preSaveQuote w q) = q_deletion q.
Proof. unfold preSaveQuote. destruct (negb _); reflexivity. Qed.

(** X15: [Quote.softDelete] throws and changes nothing unless the quote is
    pending, has no work order and is not yet deleted. On success the
    stored quote carries the flag, the clock reading and the actor, and can
    be neither edited nor deleted again; its status and tokens are as
    before, so every token is judged as before the delete, and the manual
    approval of the deleted quote goes on to the approval steps. Orders,
    clients and mail are not touched. *)
Theorem softDelete_quote (w : World) (this : Quote) (by_ : option ObjectId) :
  (QuoteDoc.canDelete this = false ->
   QuoteDoc.softDelete w this by_ = (w, this, Some (Error QuoteDoc.msg_cannot_delete))) /\
  (forall w' q' e,
     QuoteDoc.softDelete w this by_ = (w', q', e) ->
     quoteEnv w' = quoteEnv w /\
     (e <> None -> quotes w' = quotes w) /\
     (e = None ->
      q_status this = pending /\ workOrderId this = None /\
      q_isDeleted this = false /\
      findQuoteById w' (q_id this) = Some q' /\
      q_deletion q' = (true, Some (now w), by_) /\
      q_status q' = pending /\ approvalTokens q' = approvalTokens this /\
      QuoteDoc.canEdit q' = false /\ QuoteDoc.canDelete q' = false /\
      (forall tok, validateToken w' q' tok = validateToken w this tok) /\
      (forall fuel, approveQuoteManual fuel w' (q_id this)
                    = approvalSteps fuel w' q' JsonApproved))).
Proof.
  unfold QuoteDoc.softDelete. split.
  - intros ->. reflexivity.
  - intros w' q' e.
    destruct (QuoteDoc.canDelete this) eqn:Hcan; simpl.
    2:{ intro H; inversion H; subst. split; [reflexivity|].
        split; [reflexivity | discriminate]. }
    intro H. apply saveQuote_spec in H. destruct H as (Henv & Hrest).
    split; [exact Henv|]. split.
    + intro Hne. destruct e; [exact Hrest | contradiction].
    + intros ->. destruct Hrest as (Hq' & _ & _ & Hstored).
      unfold QuoteDoc.canDelete in Hcan.
      apply andb_true_iff in Hcan. destruct Hcan as (Hcan & Hdel).
      apply andb_true_iff in Hcan. destruct Hcan as (Hst & Hlink).
      apply quoteStatus_eqb_eq in Hst.
      apply negb_true_iff in Hdel. apply negb_true_iff in Hlink.
      destruct (preSaveQuote_fields w (set_q_deletion true (Some (now w)) by_ this))
        as (_ & Hst' & Htok' & _ & _ & _ & _ & _ & Huntil' & _).
      pose proof (preSaveQuote_deletion w
                    (set_q_deletion true (Some (now w)) by_ this)) as Hd'.
      rewrite <- Hq' in Hst', Htok', Huntil', Hd'.
      simpl in Hst', Htok', Huntil', Hstored.
      assert (Hflag : q_isDeleted q' = true)
        by (unfold q_deletion in Hd'; injection Hd'; intros; assumption).
      split; [exact Hst|].
      split; [destruct (workOrderId this); [discriminate | reflexivity]|].
      split; [exact Hdel|]. split; [exact Hstored|]. split; [exact Hd'|].
      split; [congruence|]. split; [exact Htok'|].
      split; [unfold QuoteDoc.canEdit; rewrite Hflag; apply andb_false_r|].
      split; [unfold QuoteDoc.canDelete; rewrite Hflag; apply andb_false_r|].
      split.
      * intro tok. apply validateToken_fields;
          [exact (quoteEnv_now _ _ Henv) | exact Htok' | exact Huntil' | exact Hst'].
      * intro fuel. unfold approveQuoteManual. rewrite Hstored.
        assert (Hp : quoteStatus_eqb (q_status q') pending = true)
          by (rewrite Hst', Hst; reflexivity).
        rewrite Hp. reflexivity.
Qed.

(** * Further properties: the status handler *)

(** The ownership test refuses every caller of role 'mechanic': the order
    comes from [findById] with its mechanic populated, and the text of a
    document is not the text of an id. *)
Lemma forbidden_mechanic mechanics userId o :
  forbidden mechanics role_mechanic userId o = true.
Proof.
  unfold forbidden, notOwnOrder.
  destruct (findMechanicByUser mechanics userId); [|reflexivity].
  destruct (populatedMechanic mechanics o); reflexivity.
Qed.


(** A save the validators or the datastore refuse returns the exception at
    once, whatever the hook would do. *)
Lemma saveOrder_refused_any k w d :
  orderSaveAccepted w d = false ->
  exists w' d' e,
    saveOrder (S k) false w d = Some (w', d', Some e) /\ orders w' = orders w.
Proof.
  intro Hacc. rewrite saveOrder_S. unfold orderSaveAccepted in Hacc.
  destruct (validateOrder d) as [e|]; [exists w, d, e; split; reflexivity|].
  destruct (writeOrder false w (preSaveOrder w d)) as [w1 [e|]] eqn:Hw;
    [|discriminate].
  apply writeOrder_spec in Hw. destruct Hw as (_ & _ & Ho).
  exists w1, (preSaveOrder w d), e. split; [reflexivity | exact Ho].
Qed.




(** * Further properties: rejecting a quote *)

(** X17: neither rejection handler touches an order, a client, the clock
    or the mail. The rejected page of the token handler follows a token
    that [validateToken] accepted for the stored quote, and the manual
    handler's success follows a pending quote; the stored quote is then
    the one returned, it is [rejected] and its order link is as before.
    The token handler has marked every token as [useToken] does; the
    manual handler leaves the tokens as they were. *)
Theorem rejection_outcomes (w : World) (id : ObjectId) (tok ip ua : option string)
    (w' : World) (r : Response) :
  (rejectQuote w id tok ip ua = (w', r) ->
   quoteEnv w' = quoteEnv w /\
   forall q2, r = RejectedPage q2 ->
     exists q s ty t,
       tok = Some s /\ findQuoteById w id = Some q /\
       validateToken w q s = TokenValid ty t /\
       findQuoteById w' id = Some q2 /\ q_status q2 = rejected /\
       workOrderId q2 = workOrderId q /\
       approvalTokens q2 =
         map (invalidateOther s (now w))
             (redeemFirst s (now w) ip ua (approvalTokens q))) /\
  (rejectQuoteManual w id = (w', r) ->
   quoteEnv w' = quoteEnv w /\
   forall q1, r = JsonRejected q1 ->
     exists q,
       findQuoteById w id = Some q /\ q_status q = pending /\
       findQuoteById w' id = Some q1 /\ q_status q1 = rejected /\
       workOrderId q1 = workOrderId q /\
       approvalTokens q1 = approvalTokens q).
Proof.
  split.
  - unfold rejectQuote.
    destruct tok as [s|];
      [|intro H; inversion H; subst w' r; split; [reflexivity | discriminate]].
    destruct (negb (truthy s));
      [intro H; inversion H; subst w' r; split; [reflexivity | discriminate]|].
    destruct (findQuoteById w id) as [q|] eqn:Hfind;
      [|intro H; inversion H; subst w' r; split; [reflexivity | discriminate]].
    pose proof (findQuoteById_id _ _ _ Hfind) as Hid.
    destruct (validateToken w q s) as [error|ty t] eqn:Hv;
      [intro H; inversion H; subst w' r; split; [reflexivity | discriminate]|].
    assert (Hfound : js_find (hasToken s) (approvalTokens q) <> None).
    { unfold validateToken in Hv.
      destruct (js_find (hasToken s) (approvalTokens q)); [discriminate|].
      discriminate. }
    destruct (useToken w q s ip ua) as [[w1 q1] [e1|]] eqn:Hu.
    { intro H; inversion H; subst w' r. unfold useToken in Hu.
      destruct (js_find (hasToken s) (approvalTokens q)); [|contradiction].
      apply saveQuote_spec in Hu. destruct Hu as (Henv & _).
      split; [exact Henv | discriminate]. }
    unfold useToken in Hu.
    destruct (js_find (hasToken s) (approvalTokens q)); [|contradiction].
    apply saveQuote_spec in Hu. destruct Hu as (Henv1 & Hq1 & _ & _ & _).
    destruct (preSaveQuote_fields w
                (set_approvalTokens
                   (map (invalidateOther s (now w))
                        (redeemFirst s (now w) ip ua (approvalTokens q))) q))
      as (Hid1 & _ & Htok1 & Hlink1 & _).
    rewrite <- Hq1 in Hid1, Htok1, Hlink1. simpl in Hid1, Htok1, Hlink1.
    destruct (saveQuote w1 (set_q_status rejected q1)) as [[w2 q2] [e2|]] eqn:Hs2;
      apply saveQuote_spec in Hs2; destruct Hs2 as (Henv2 & Hrest).
    { intro H; inversion H; subst w' r. split; [congruence | discriminate]. }
    destruct Hrest as (Hq2 & _ & _ & Hstored).
    destruct (preSaveQuote_fields w1 (set_q_status rejected q1))
      as (_ & Hst2 & Htok2 & Hlink2 & _).
    rewrite <- Hq2 in Hst2, Htok2, Hlink2. simpl in Hst2, Htok2, Hlink2, Hstored.
    rewrite Hid1, Hid in Hstored.
    destruct (match clientId q with Some i => findClientById w i | None => None end);
      intro H; inversion H; subst w' r; (split; [congruence|]); [|discriminate].
    intros q0 Hr. inversion Hr; subst q0.
    exists q, s, ty, t. split; [reflexivity|].
    split; [first [reflexivity | assumption]|].
    split; [exact Hv|]. split; [exact Hstored|]. split; [exact Hst2|].
    split; congruence.
  - unfold rejectQuoteManual.
    destruct (findQuoteById w id) as [q|] eqn:Hfind;
      [|intro H; inversion H; subst w' r; split; [reflexivity | discriminate]].
    pose proof (findQuoteById_id _ _ _ Hfind) as Hid.
    destruct (quoteStatus_eqb (q_status q) pending) eqn:Hst; simpl;
      [|intro H; inversion H; subst w' r; split; [reflexivity | discriminate]].
    apply quoteStatus_eqb_eq in Hst.
    destruct (saveQuote w (set_q_status rejected q)) as [[w1 q1] [e1|]] eqn:Hs1;
      apply saveQuote_spec in Hs1; destruct Hs1 as (Henv1 & Hrest);
      intro H; inversion H; subst w' r; (split; [exact Henv1|]); [discriminate|].
    intros q0 Hr. inversion Hr; subst q0.
    destruct Hrest as (Hq1 & _ & _ & Hstored).
    destruct (preSaveQuote_fields w (set_q_status rejected q))
      as (_ & Hst1 & Htok1 & Hlink1 & _).
    rewrite <- Hq1 in Hst1, Htok1, Hlink1. simpl in Hst1, Htok1, Hlink1, Hstored.
    rewrite Hid in Hstored.
    exists q. split; [first [reflexivity | assumption]|]. split; [exact Hst|].
    split; [exact Hstored|]. split; [exact Hst1|]. split; assumption.
Qed.

Lemma rejection_outcomes_witness :
  exists w' q2,
    rejectQuote (worldPending []) 1%N (Some "tok-approve") None None
    = (w', RejectedPage q2) /\
    findQuoteById w' 1%N = Some q2 /\ q_status q2 = rejected.
Proof.
  pose proof (rejection_outcomes (worldPending []) 1%N (Some "tok-approve")
                None None) as H.
  eexists. eexists. split; [vm_compute; reflexivity|].
  match goal with |- findQuoteById ?w' _ = Some ?q2 /\ _ =>
    destruct (H w' (RejectedPage q2)) as ((_ & Hr) & _);
      [vm_compute; reflexivity|];
    destruct (Hr q2 eq_refl) as (q & s & ty & t & _ & _ & _ & Hstored & Hst & _)
  end.
  split; [exact Hstored | exact Hst].
Defined.

(** * Further properties: the toJSON transforms *)

Lemma js_get_delete k k' o :
  js_get k (js_delete k' o) = if String.eqb k' k then JUndefined else js_get k o.
Proof.
  unfold js_delete. induction o as [|[k0 v] rest IH]; simpl.
  - destruct (String.eqb k' k); reflexivity.
  - destruct (String.eqb k0 k') eqn:E0; simpl.
    + apply String.eqb_eq in E0. subst k0. rewrite IH.
      destruct (String.eqb k' k); reflexivity.
    + destruct (String.eqb k0 k) eqn:E1.
      * apply String.eqb_eq in E1. subst k0.
        rewrite String.eqb_sym in E0. rewrite E0. reflexivity.
      * exact IH.
Qed.

Lemma js_get_set k k' v o :
  js_get k (js_set k' v o) = if String.eqb k' k then v else js_get k o.
Proof.
  induction o as [|[k0 v0] rest IH]; simpl.
  - reflexivity.
  - destruct (String.eqb k0 k') eqn:E0; simpl.
    + apply String.eqb_eq in E0. subst k0.
      destruct (String.eqb k' k); reflexivity.
    + destruct (String.eqb k0 k) eqn:E1.
      * apply String.eqb_eq in E1. subst k0.
        rewrite String.eqb_sym in E0. rewrite E0. reflexivity.
      * exact IH.
Qed.

Lemma js_delete_twice a b o :
  js_delete b (js_delete a (js_delete b (js_delete a o))) = js_delete b (js_delete a o).
Proof.
  unfold js_delete. induction o as [|[k0 v] rest IH]; simpl; [reflexivity|].
  destruct (String.eqb k0 a) eqn:Ea; simpl; [exact IH|].
  destruct (String.eqb k0 b) eqn:Eb; simpl; [exact IH|].
  rewrite Ea. simpl. rewrite Eb. simpl. rewrite IH. reflexivity.
Qed.

(** X18: the toJSON transform of the order and mechanic schemas removes
    [deletedAt] and [deletedBy] when [isDeleted] is not truthy and returns
    the object unchanged otherwise; it never changes another property, and
    applying it twice is applying it once. The quote's transform, when it
    does not throw, agrees with it on every property but
    [approvalTokens]. *)
Theorem toJSON_hides_deletion (ret : Obj) :
  (js_truthy (js_get "isDeleted" ret) = true -> softDelete_transform ret = ret) /\
  (js_truthy (js_get "isDeleted" ret) = false ->
   js_get "deletedAt" (softDelete_transform ret) = JUndefined /\
   js_get "deletedBy" (softDelete_transform ret) = JUndefined) /\
  (forall k, k <> "deletedAt" -> k <> "deletedBy" ->
             js_get k (softDelete_transform ret) = js_get k ret) /\
  softDelete_transform (softDelete_transform ret) = softDelete_transform ret /\
  (forall ret', toJSON_transform ret = Some ret' ->
     forall k, k <> "approvalTokens" ->
               js_get k ret' = js_get k (softDelete_transform ret)).
Proof.
  assert (Hother : forall o k, k <> "deletedAt" -> k <> "deletedBy" ->
            js_get k (js_delete "deletedBy" (js_delete "deletedAt" o)) = js_get k o).
  { intros o k Ha Hb. rewrite !js_get_delete.
    destruct (String.eqb "deletedBy" k) eqn:E1;
      [apply String.eqb_eq in E1; congruence|].
    destruct (String.eqb "deletedAt" k) eqn:E2;
      [apply String.eqb_eq in E2; congruence|].
    reflexivity. }
  split; [|split; [|split; [|split]]].
  - intro H. unfold softDelete_transform. rewrite H. reflexivity.
  - intro H. unfold softDelete_transform. rewrite H. simpl.
    rewrite !js_get_delete. split; reflexivity.
  - intros k Ha Hb. unfold softDelete_transform.
    destruct (negb (js_truthy (js_get "isDeleted" ret))); [|reflexivity].
    apply Hother; assumption.
  - unfold softDelete_transform.
    destruct (js_truthy (js_get "isDeleted" ret)) eqn:H; simpl.
    + rewrite H. reflexivity.
    + rewrite Hother by discriminate. rewrite H. simpl. apply js_delete_twice.
  - intros ret' H k Hk. unfold toJSON_transform in H.
    assert (Hshape : exists ret2,
              (forall k0, k0 <> "approvalTokens" -> js_get k0 ret2 = js_get k0 ret) /\
              ret' = softDelete_transform ret2).
    { unfold softDelete_transform.
      destruct (js_truthy (js_get "approvalTokens" ret)).
      - destruct (js_get "approvalTokens" ret); try discriminate.
        destruct (js_map tokenView items) as [views|]; [|discriminate].
        exists (js_set "approvalTokens" (JArr views) ret). split.
        + intros k0 Hk0. rewrite js_get_set.
          destruct (String.eqb "approvalTokens" k0) eqn:E; [|reflexivity].
          apply String.eqb_eq in E. congruence.
        + destruct (negb _); inversion H; reflexivity.
      - exists ret. split; [reflexivity|].
        destruct (negb _); inversion H; reflexivity. }
    destruct Hshape as (ret2 & Hsame & ->).
    unfold softDelete_transform. rewrite (Hsame "isDeleted") by discriminate.
    destruct (negb (js_truthy (js_get "isDeleted" ret))); [|apply Hsame; exact Hk].
    rewrite !js_get_delete, (Hsame k Hk). reflexivity.
Qed.

(** * Further properties: when a save sends mail *)

Lemma sendReadyNotification_throws w d w1 error :
  sendReadyNotification w d = (w1, inl error) -> w1 = w /\ reachable w d = false.
Proof.
  destruct (reachable w d) eqn:Hr.
  - destruct (sendReadyNotification_reachable _ _ Hr) as (w2 & res & ->). discriminate.
  - destruct (sendReadyNotification_unreachable _ _ Hr) as (err & ->).
    intro H; inversion H; subst. auto.
Qed.

Lemma sendReadyNotification_returns w d w1 res :
  sendReadyNotification w d = (w1, inr res) ->
  reachable w d = true /\
  (mailCalls w < mailCalls w1 <= mailCalls w + mailBudget w)%nat.
Proof.
  destruct (reachable w d) eqn:Hr.
  2:{ destruct (sendReadyNotification_unreachable _ _ Hr) as (err & ->). discriminate. }
  intro H. split; [reflexivity|].
  unfold reachable in Hr. unfold sendReadyNotification in H.
  destruct (match quoteId d with Some i => findQuoteById w i | None => None end);
    [|discriminate].
  destruct (match clientId q with Some i => findClientById w i | None => None end);
    [|discriminate].
  rewrite Hr in H. simpl in H.
  pose proof (sendWithRetry_calls (Z.to_nat (maxRetries w - 1)) w) as Hc.
  destruct (sendWithRetry (Z.to_nat (maxRetries w - 1)) w) as [w2 r2].
  inversion H; subst. simpl in Hc. unfold mailBudget. lia.
Qed.

Lemma env_maxRetries w w' : env w' = env w -> maxRetries w' = maxRetries w.
Proof. intro H. env_fields H. assumption. Qed.

Lemma env_transport w w' : env w' = env w -> transport w' = transport w.
Proof. intro H. env_fields H. assumption. Qed.

Lemma mailBudget_env w w' : env w' = env w -> mailBudget w' = mailBudget w.
Proof. intro H. unfold mailBudget. rewrite (env_maxRetries _ _ H). reflexivity. Qed.

Lemma saveOrder_mail fuel : forall isNew w d w' d' e,
  saveOrder fuel isNew w d = Some (w', d', e) ->
  (hookFires d = false -> mailCalls w' = mailCalls w /\ hookFires d' = false) /\
  (mailCalls w <= mailCalls w' <= mailCalls w + mailBudget w)%nat /\
  (mailCalls w' <> mailCalls w -> reachable w d = true).
Proof.
  induction fuel as [|fuel IH]; intros isNew w d w' d' e H; [discriminate|].
  rewrite saveOrder_S in H.
  destruct (validateOrder d).
  { inversion H; subst. split; [auto|]. split; [lia|]. intro Hne; contradiction. }
  destruct (writeOrder isNew w (preSaveOrder w d)) as [w1 [err|]] eqn:Hw;
    apply writeOrder_spec in Hw; destruct Hw as (He1 & Hm1 & _).
  { inversion H; subst. rewrite preSaveOrder_hook.
    split; [auto|]. split; [lia|]. intro Hne; contradiction. }
  unfold postSaveOrder in H. fold (hookFires (preSaveOrder w d)) in H.
  rewrite preSaveOrder_hook in H.
  destruct (hookFires d) eqn:Hh.
  2:{ inversion H; subst. rewrite preSaveOrder_hook.
      split; [auto|]. split; [lia|]. intro Hne; contradiction. }
  split; [discriminate|].
  pose proof (reachable_env w w1 d (preSaveOrder w d) He1 (preSaveOrder_core w d))
    as Hreach.
  pose proof (mailBudget_env _ _ He1) as Hb1.
  destruct (sendReadyNotification w1 (preSaveOrder w d)) as [w2 [error|res]] eqn:Hsend.
  - apply sendReadyNotification_throws in Hsend. destruct Hsend as (-> & Hun).
    unfold readyHookCatch in H. apply IH in H. destruct H as (_ & _ & Hr).
    assert (Hsame : mailCalls w' = mailCalls w1).
    { destruct (Nat.eq_dec (mailCalls w') (mailCalls w1)) as [Heq|Hne]; [exact Heq|].
      apply Hr in Hne.
      assert (Hrc : forall n, reachable w1 (set_notifications n (preSaveOrder w d))
                              = reachable w1 (preSaveOrder w d))
        by (intro n; apply reachable_env; reflexivity).
      rewrite Hrc in Hne. congruence. }
    split; [lia|]. intro Hne. exfalso. apply Hne. congruence.
  - pose proof (sendReadyNotification_spec _ _ _ _ Hsend) as (He2 & _ & _).
    apply sendReadyNotification_returns in Hsend. destruct Hsend as (Hr1 & Hcalls).
    assert (Hquiet : mailCalls w' = mailCalls w2).
    { match type of H with match saveOrder fuel false w2 ?doc with _ => _ end = _ =>
        destruct (saveOrder fuel false w2 doc) as [[[w3 doc4] [error|]]|] eqn:Hs1;
          [| |discriminate];
          apply IH in Hs1; destruct Hs1 as (Hq1 & _);
          destruct Hq1 as (Hm3 & Hh4);
          [unfold hookFires; simpl; apply andb_false_r| |
           unfold hookFires; simpl; apply andb_false_r|] end.
      - unfold readyHookCatch in H. apply IH in H. destruct H as (Hq & _).
        destruct Hq as (Hm & _); [exact Hh4|]. congruence.
      - inversion H; subst. exact Hm3. }
    split; [rewrite Hquiet, <- Hb1; lia|].
    intros _. rewrite <- Hreach. exact Hr1.
Qed.

(** X19: a save of an order calls the mail transport only when the order
    is [listo], its notification flag is unset and its client can be
    reached; it then makes at most [maxRetries] attempts, nested saves of
    the hook included. The save of any other order makes none. *)
Theorem save_mails_only_ready_orders (fuel : nat) (isNew : bool) (w : World)
    (d : WorkOrder) (w' : World) (d' : WorkOrder) (e : option Exn) :
  saveOrder fuel isNew w d = Some (w', d', e) ->
  (mailCalls w <= mailCalls w' <= mailCalls w + mailBudget w)%nat /\
  (mailCalls w' <> mailCalls w ->
   status d = listo /\ readyEmailSent d = false /\ reachable w d = true) /\
  transport w' = transport w.
Proof.
  intro H. pose proof (saveOrder_mail _ _ _ _ _ _ _ H) as (Hq & Hb & Hr).
  split; [exact Hb|]. split.
  - intro Hne. destruct (hookFires d) eqn:Hh.
    + unfold hookFires in Hh. apply andb_true_iff in Hh. destruct Hh as (Hs & Hf).
      apply status_eqb_eq in Hs. apply negb_true_iff in Hf. auto.
    + destruct (Hq eq_refl) as (Hm & _). contradiction.
  - apply saveOrder_spec in H. destruct H as (_ & He & _).
    exact (env_transport _ _ He).
Qed.

Lemma save_mails_only_ready_orders_witness :
  exists w' d',
    saveOrder 2 false (sampleWorld [sampleOrder listo (Some 7%N)] [] smtpDown)
      (sampleOrder listo (Some 7%N)) = Some (w', d', None) /\
    mailCalls w' = 3%nat /\
    (mailCalls w' <= 0 + mailBudget
                         (sampleWorld [sampleOrder listo (Some 7%N)] [] smtpDown))%nat.
Proof.
  pose proof (save_mails_only_ready_orders 2 false
                (sampleWorld [sampleOrder listo (Some 7%N)] [] smtpDown)
                (sampleOrder listo (Some 7%N)) _ _ _
                ltac:(vm_compute; reflexivity)) as ((_ & H) & _).
  eexists. eexists. split; [vm_compute; reflexivity|].
  split; [vm_compute; reflexivity | exact H].
Defined.

(** X20: the operations that never bring an order to [listo] send no mail:
    a status change to any other status, the creation of an order in
    another status, the soft delete and [deleteOrder], and both approval
    handlers leave the count of transport calls as it was. *)
Theorem quiet_operations (fuel : nat) (w w' : World) :
  (forall o t by_ notes_ o' e,
     changeStatus fuel w o t by_ notes_ = Some (w', o', e) ->
     t <> listo -> mailCalls w' = mailCalls w) /\
  (forall qi snap wd cost st o e,
     createWorkOrder fuel w qi snap wd cost st = Some (w', o, e) ->
     st <> listo -> mailCalls w' = mailCalls w) /\
  (forall this by_ o' e,
     WorkOrderDoc.softDelete fuel w this by_ = Some (w', o', e) ->
     mailCalls w' = mailCalls w) /\
  (forall userId id r,
     deleteOrder fuel w userId id = Some (w', r) -> mailCalls w' = mailCalls w) /\
  (forall id r,
     approveQuoteManual fuel w id = Some (w', r) -> mailCalls w' = mailCalls w) /\
  (forall id tok ip ua r,
     approveQuote fuel w id tok ip ua = Some (w', r) -> mailCalls w' = mailCalls w).
Proof.
  assert (Hquiet : forall k isNew w0 d w1 d1 e,
            saveOrder k isNew w0 d = Some (w1, d1, e) ->
            status d <> listo -> mailCalls w1 = mailCalls w0).
  { intros k isNew w0 d w1 d1 e H Hne.
    apply saveOrder_mail in H. destruct H as (Hq & _).
    apply Hq. unfold hookFires.
    destruct (status_eqb (status d) listo) eqn:E; [|reflexivity].
    apply status_eqb_eq in E. contradiction. }
  assert (Hquote : forall w0 q w1 q1 e,
            saveQuote w0 q = (w1, q1, e) -> mailCalls w1 = mailCalls w0).
  { intros w0 q w1 q1 e H. apply saveQuote_spec in H. destruct H as (He & _).
    apply quoteEnv_mail in He. apply He. }
  assert (Hsoft : forall w0 this by_ w1 o' e,
            WorkOrderDoc.softDelete fuel w0 this by_ = Some (w1, o', e) ->
            mailCalls w1 = mailCalls w0).
  { intros w0 this by_ w1 o' e. unfold WorkOrderDoc.softDelete.
    destruct (WorkOrderDoc.canDelete this) eqn:Hcan; simpl;
      [|intro H; inversion H; reflexivity].
    intro H. apply Hquiet in H; [exact H|]. simpl.
    unfold WorkOrderDoc.canDelete in Hcan. apply andb_true_iff in Hcan.
    destruct Hcan as (Hs & _). apply status_eqb_eq in Hs. rewrite Hs. discriminate. }
  assert (Hsteps : forall w0 q respond r,
            approvalSteps fuel w0 q respond = Some (w', r) ->
            mailCalls w' = mailCalls w0).
  { intros w0 q respond r. unfold approvalSteps.
    destruct (saveQuote w0 (set_q_status approved q)) as [[w1 q2] [e1|]] eqn:Hs1;
      apply Hquote in Hs1; [intro H; inversion H; subst; exact Hs1|].
    destruct (createWorkOrder fuel w1 _ _ _ _ _) as [[[w2 o] [e2|]]|] eqn:Hc;
      [| |discriminate]; unfold createWorkOrder in Hc; apply Hquiet in Hc;
      try (simpl; discriminate); simpl in Hc.
    - intro H; inversion H; subst. congruence.
    - destruct (saveQuote w2 _) as [[w3 q4] [e3|]] eqn:Hs3; apply Hquote in Hs3;
        intro H; inversion H; subst; congruence. }
  split; [|split; [|split; [|split; [|split]]]].
  - intros o t by_ notes_ o' e H Hne. unfold changeStatus in H.
    destruct (validateStatusTransition o t); [|inversion H; reflexivity].
    apply Hquiet in H; [exact H|].
    destruct (status_eqb t entregado); simpl; exact Hne.
  - intros qi snap wd cost st o e H Hne. unfold createWorkOrder in H.
    apply Hquiet in H; [exact H | exact Hne].
  - intros this by_ o' e H. exact (Hsoft _ _ _ _ _ _ H).
  - intros userId id r. unfold deleteOrder.
    destruct (findOrderById w id) as [o|]; [|intro H; inversion H; reflexivity].
    destruct (wo_isDeleted o); [intro H; inversion H; reflexivity|].
    destruct (negb (WorkOrderDoc.canDelete o)); [intro H; inversion H; reflexivity|].
    destruct (WorkOrderDoc.softDelete fuel w o userId) as [[[w1 o1] [e|]]|] eqn:Hs;
      [| |discriminate]; apply Hsoft in Hs; intro H; inversion H; subst; exact Hs.
  - intros id r. unfold approveQuoteManual.
    destruct (findQuoteById w id) as [q|]; [|intro H; inversion H; reflexivity].
    destruct (negb (quoteStatus_eqb (q_status q) pending));
      [intro H; inversion H; reflexivity|].
    change (approvalSteps fuel w q JsonApproved = Some (w', r) ->
            mailCalls w' = mailCalls w).
    apply Hsteps.
  - intros id tok ip ua r. unfold approveQuote.
    destruct tok as [s|]; [|intro H; inversion H; reflexivity].
    destruct (negb (truthy s)); [intro H; inversion H; reflexivity|].
    destruct (findQuoteById w id) as [q|]; [|intro H; inversion H; reflexivity].
    destruct (validateToken w q s); [intro H; inversion H; reflexivity|].
    destruct (useToken w q s ip ua) as [[w1 q1] [e1|]] eqn:Hu.
    + intro H; inversion H; subst. unfold useToken in Hu.
      destruct (js_find (hasToken s) (approvalTokens q));
        [exact (Hquote _ _ _ _ _ Hu) | inversion Hu; reflexivity].
    + assert (Hm1 : mailCalls w1 = mailCalls w).
      { unfold useToken in Hu.
        destruct (js_find (hasToken s) (approvalTokens q));
          [exact (Hquote _ _ _ _ _ Hu) | inversion Hu; reflexivity]. }
      rewrite <- Hm1.
      change (approvalSteps fuel w1 q1
                (fun quote3 order =>
                   match match clientId q with
                         | Some i => findClientById w i
                         | None => None
                         end with
                   | Some _ => ApprovedPage quote3 order
                   | None =>
                       Unhandled
                         (TypeError "Cannot read properties of null (reading '_id')")
                   end) = Some (w', r) -> mailCalls w' = mailCalls w1).
      apply Hsteps.
Qed.

(** * Further properties: display numbers *)

Lemma length_append_string (s1 s2 : string) :
  String.length (s1 ++ s2) = (String.length s1 + String.length s2)%nat.
Proof. induction s1 as [|c s1 IH]; simpl; [reflexivity | rewrite IH; reflexivity]. Qed.

Lemma length_zeros n : String.length (zeros n) = n.
Proof. induction n as [|n IH]; simpl; [reflexivity | rewrite IH; reflexivity]. Qed.

Lemma length_padStart4 s :
  String.length (padStart4 s) = Nat.max 4 (String.length s).
Proof. unfold padStart4. rewrite length_append_string, length_zeros. lia. Qed.

Lemma preSaveOrder_number w d :
  numbered (orderNumber (preSaveOrder w d)) = true /\
  (if numbered (orderNumber d) then preSaveOrder w d = d
   else orderNumber (preSaveOrder w d)
        = Some ("ORD-" ++ padStart4 (decimal (List.length (orders w) + 1)))).
Proof.
  unfold preSaveOrder, numbered.
  destruct (match orderNumber d with Some s => truthy s | None => false end) eqn:E;
    simpl; [rewrite E|]; split; reflexivity.
Qed.

Lemma saveOrder_number fuel : forall isNew w d w' d' e,
  saveOrder fuel isNew w d = Some (w', d', e) ->
  (orderNumber d' = orderNumber d \/
   orderNumber d' = orderNumber (preSaveOrder w d)) /\
  (e = None -> orderNumber d' = orderNumber (preSaveOrder w d)).
Proof.
  induction fuel as [|fuel IH]; intros isNew w d w' d' e; [discriminate|].
  rewrite saveOrder_S. destruct (validateOrder d).
  { intro H; inversion H; subst. split; [left; reflexivity | discriminate]. }
  assert (Hkeep : forall isNew0 w0 x w1 x1 e1,
            saveOrder fuel isNew0 w0 x = Some (w1, x1, e1) ->
            orderNumber x = orderNumber (preSaveOrder w d) ->
            orderNumber x1 = orderNumber (preSaveOrder w d)).
  { intros isNew0 w0 x w1 x1 e1 Hs Hx.
    apply IH in Hs. destruct Hs as ([Hs | Hs] & _); [congruence|].
    rewrite Hs. destruct (preSaveOrder_number w0 x) as (_ & Hn).
    destruct (preSaveOrder_number w d) as (Hnum & _).
    rewrite <- Hx in Hnum. rewrite Hnum in Hn. rewrite Hn. exact Hx. }
  destruct (writeOrder isNew w (preSaveOrder w d)) as [w1 [err|]].
  { intro H; inversion H; subst. split; [right; reflexivity | discriminate]. }
  intro H.
  assert (Hd' : orderNumber d' = orderNumber (preSaveOrder w d)).
  { revert H. unfold postSaveOrder, readyHookCatch.
    destruct (status_eqb (status (preSaveOrder w d)) listo
              && negb (readyEmailSent (preSaveOrder w d))).
    2:{ intro H; inversion H; subst. reflexivity. }
    destruct (sendReadyNotification w1 (preSaveOrder w d)) as [w2 [error|res]].
    - intro H. eapply Hkeep; [exact H | reflexivity].
    - cbv zeta.
      match goal with |- match saveOrder fuel false w2 ?doc with _ => _ end = _ -> _ =>
        destruct (saveOrder fuel false w2 doc) as [[[w3 d3] [error|]]|] eqn:Hs;
          [| |discriminate];
          apply Hkeep in Hs;
          try reflexivity end.
      + intro H. eapply Hkeep; [exact H | exact Hs].
      + intro H; inversion H; subst. exact Hs. }
  split; [right; exact Hd' | intros _; exact Hd'].
Qed.

Lemma preSaveQuote_number w q :
  numbered (quoteNumber (preSaveQuote w q)) = true /\
  (if numbered (quoteNumber q) then preSaveQuote w q = q
   else quoteNumber (preSaveQuote w q)
        = Some ("PRES-" ++ padStart4 (decimal (List.length (quotes w) + 1)))).
Proof.
  unfold preSaveQuote, numbered.
  destruct (match quoteNumber q with Some s => truthy s | None => false end) eqn:E;
    simpl; [rewrite E|]; split; reflexivity.
Qed.

(** X21: a display number is given once. A document that has its number
    keeps it through a save, failed or not, and through the saves of the
    hook; a document without one leaves a successful save with the prefix
    and the count of stored documents plus one, written with at least four
    digits. *)
Theorem display_number_given_once (w : World) :
  (forall fuel isNew d w' d' e,
     saveOrder fuel isNew w d = Some (w', d', e) ->
     (numbered (orderNumber d) = true -> orderNumber d' = orderNumber d) /\
     (e = None ->
      numbered (orderNumber d') = true /\
      (numbered (orderNumber d) = false ->
       exists digits,
         orderNumber d' = Some ("ORD-" ++ digits) /\
         digits = padStart4 (decimal (List.length (orders w) + 1)) /\
         (4 <= String.length digits)%nat))) /\
  (forall q w' q' e,
     saveQuote w q = (w', q', e) ->
     (numbered (quoteNumber q) = true -> quoteNumber q' = quoteNumber q) /\
     (e = None ->
      numbered (quoteNumber q') = true /\
      (numbered (quoteNumber q) = false ->
       exists digits,
         quoteNumber q' = Some ("PRES-" ++ digits) /\
         digits = padStart4 (decimal (List.length (quotes w) + 1)) /\
         (4 <= String.length digits)%nat))).
Proof.
  split.
  - intros fuel isNew d w' d' e H.
    apply saveOrder_number in H. destruct H as (Hany & Hok).
    destruct (preSaveOrder_number w d) as (Hnum & Hpre).
    split.
    + intro Hn. rewrite Hn in Hpre. destruct Hany as [H | H]; congruence.
    + intros He. specialize (Hok He). split; [rewrite Hok; exact Hnum|].
      intro Hn. rewrite Hn in Hpre. eexists. split; [rewrite Hok; exact Hpre|].
      split; [reflexivity|]. rewrite length_padStart4. lia.
  - intros q w' q' e H. unfold saveQuote in H.
    destruct (preSaveQuote_number w q) as (Hnum & Hpre).
    destruct (validateQuote (maxYear w) q).
    { inversion H; subst. split; [reflexivity | discriminate]. }
    assert (Hq' : q' = preSaveQuote w q)
      by (destruct (writeQuote w (preSaveQuote w q)) as [w1 [err|]];
          inversion H; reflexivity).
    subst q'. split.
    + intro Hn. rewrite Hn in Hpre. rewrite Hpre. reflexivity.
    + intros _. split; [exact Hnum|].
      intro Hn. rewrite Hn in Hpre. eexists. split; [exact Hpre|].
      split; [reflexivity|]. rewrite length_padStart4. lia.
Qed.

(** * Further properties: editing an order *)

Lemma validateOrder_details d :
  validateOrder d = None ->
  (forall c, finalCost d = Some c -> 0 <= c) /\
  (forall n, additionalNotes d = Some n -> (js_length n <= 2000)%nat) /\
  (forall n, additionalWork d = Some n -> (js_length n <= 2000)%nat).
Proof.
  unfold validateOrder, opt_exceeds, exceeds.
  destruct (negb (isSome (quoteId d))); [discriminate|].
  destruct (vehicleSnapshot d); [|discriminate].
  destruct (validateSnapshot v); [discriminate|].
  destruct (negb (truthy (workDescription d))); [discriminate|].
  destruct (estimatedCost d <? 0); [discriminate|].
  destruct (finalCost d) as [c|].
  - destruct (c <? 0) eqn:C; [discriminate|]. apply Z.ltb_ge in C.
    destruct (additionalNotes d) as [n|], (additionalWork d) as [m|];
      repeat match goal with
             | |- context [Nat.ltb ?a ?b] =>
                 let E := fresh "E" in destruct (Nat.ltb a b) eqn:E;
                 [discriminate|apply Nat.ltb_ge in E]
             end;
      intros _; repeat split; intros x Hx; inversion Hx; subst; assumption.
  - destruct (additionalNotes d) as [n|], (additionalWork d) as [m|];
      repeat match goal with
             | |- context [Nat.ltb ?a ?b] =>
                 let E := fresh "E" in destruct (Nat.ltb a b) eqn:E;
                 [discriminate|apply Nat.ltb_ge in E]
             end;
      intros _; repeat split; intros x Hx; inversion Hx; subst; assumption.
Qed.

Lemma applyOrderChanges_hook body o :
  hookFires (applyOrderChanges body o) = hookFires o.
Proof. reflexivity. Qed.

(** What any answer of [updateOrder] says about the run. *)
Lemma updateOrder_spec fuel mechanics w role userId id body w' r :
  updateOrder fuel mechanics w role userId id body = Some (w', r) ->
  map wo_id (orders w') = map wo_id (orders w) /\
  (forall c code msg d, r = Fail c code msg d ->
     w' = w /\
     ((findOrderById w id = None /\
       r = Fail 404 "ORDER_NOT_FOUND" "Orden de trabajo no encontrada" None) \/
      (role = role_mechanic /\ (exists o, findOrderById w id = Some o) /\
       r = Fail 403 "FORBIDDEN" "No tienes permiso para editar esta orden" None))) /\
  (forall o, findOrderById w id = Some o ->
     mailCalls w' <> mailCalls w -> status o = listo /\ readyEmailSent o = false) /\
  (forall e, r = Thrown e ->
     role = role_admin /\ exists o, findOrderById w id = Some o) /\
  (forall msg o', r = Ok msg o' ->
     role = role_admin /\ msg = "Orden actualizada exitosamente" /\
     exists o,
       findOrderById w id = Some o /\ findOrderById w' id = Some o' /\
       lifeCycle o' = lifeCycle o /\
       additionalNotes o' = orElse (b_additionalNotes body) (additionalNotes o) /\
       additionalWork o' = orElse (b_additionalWork body) (additionalWork o) /\
       finalCost o' = orElse (b_finalCost body) (finalCost o) /\
       estimatedDelivery o' = orElse (b_estimatedDelivery body) (estimatedDelivery o) /\
       (forall c, finalCost o' = Some c -> 0 <= c) /\
       (forall n, additionalNotes o' = Some n -> (js_length n <= 2000)%nat) /\
       (forall n, additionalWork o' = Some n -> (js_length n <= 2000)%nat)).
Proof.
  unfold updateOrder.
  destruct (findOrderById w id) as [o|] eqn:Hfind.
  2:{ intro H; inversion H; subst w' r. split; [reflexivity|].
      split; [|split; [|split]].
      - intros c code msg d Hr. split; [reflexivity|]. left. split; reflexivity.
      - discriminate.
      - discriminate.
      - discriminate. }
  pose proof (findOrderById_id _ _ _ Hfind) as Hid.
  destruct role.
  2:{ rewrite forbidden_mechanic.
      intro H; inversion H; subst w' r. split; [reflexivity|].
      split; [|split; [|split]].
      - intros c code msg d Hr. split; [reflexivity|]. right.
        split; [reflexivity|]. split; [eauto | reflexivity].
      - intros o0 _ Hne. contradiction.
      - discriminate.
      - discriminate. }
  simpl forbidden. cbv iota.
  destruct (saveOrder fuel false w (applyOrderChanges body o))
    as [[[w1 o1] e]|] eqn:Hs; [|discriminate].
  assert (Hmail : forall o0, Some o = Some o0 -> mailCalls w1 <> mailCalls w ->
            status o0 = listo /\ readyEmailSent o0 = false).
  { intros o0 Ho0 Hne. inversion Ho0; subst o0.
    destruct (saveOrder_mail _ _ _ _ _ _ _ Hs) as (Hq & _).
    destruct (hookFires (applyOrderChanges body o)) eqn:Hh.
    - unfold hookFires in Hh. simpl in Hh. apply andb_true_iff in Hh.
      destruct Hh as (Hst & Hf). apply status_eqb_eq in Hst.
      apply negb_true_iff in Hf. auto.
    - destruct (Hq eq_refl) as (Hm & _). contradiction. }
  pose proof (saveOrder_update_ids _ _ _ _ _ _ Hs) as Hids.
  destruct e as [e|]; intro H; inversion H; subst w' r; clear H;
    (split; [exact Hids|]); (split; [discriminate|]);
    (split; [exact Hmail|]).
  { split; [|discriminate]. intros e0 _. split; [reflexivity | eauto]. }
  split; [discriminate|].
  intros msg o' Hr. inversion Hr; subst o' msg. clear Hr.
  split; [reflexivity|]. split; [reflexivity|].
  pose proof (saveOrder_ok_valid _ _ _ _ _ _ Hs) as Hval.
  pose proof (saveOrder_spec _ _ _ _ _ _ _ Hs) as (Hc & _ & _ & Hok).
  pose proof (saveOrder_keeps_deletion _ _ _ _ _ _ _ Hs) as Hd.
  pose proof (saveOrder_keeps estimatedDelivery
                (fun _ _ => eq_refl) (fun _ _ => eq_refl)
                (fun _ _ => eq_refl) (fun _ _ => eq_refl) _ _ _ _ _ _ _ Hs) as Hdel.
  specialize (Hok eq_refl). simpl in Hok, Hdel. rewrite Hid in Hok.
  destruct (validateOrder_details _ Hval) as (Hcost & Hnotes & Hwork).
  simpl in Hcost, Hnotes, Hwork.
  assert (Hn1 : additionalNotes o1 = orElse (b_additionalNotes body) (additionalNotes o))
    by (core_fields Hc; assumption).
  assert (Hw1 : additionalWork o1 = orElse (b_additionalWork body) (additionalWork o))
    by (core_fields Hc; assumption).
  assert (Hf1 : finalCost o1 = orElse (b_finalCost body) (finalCost o))
    by (core_fields Hc; assumption).
  assert (Hlife : lifeCycle o1 = lifeCycle o).
  { assert (Hd' : deletion o1 = deletion o) by (rewrite Hd; reflexivity).
    unfold lifeCycle. rewrite Hd'. clear Hd Hd' Hn1 Hw1 Hf1 Hcost Hnotes Hwork.
    core_fields Hc. congruence. }
  exists o. split; [reflexivity|]. split; [exact Hok|]. split; [exact Hlife|].
  split; [exact Hn1|]. split; [exact Hw1|]. split; [exact Hf1|].
  split; [exact Hdel|].
  split; [rewrite Hf1; exact Hcost|].
  split; [rewrite Hn1; exact Hnotes | rewrite Hw1; exact Hwork].
Qed.

(** X22: [updateOrder] answers 404 ORDER_NOT_FOUND for an absent order and
    403 FORBIDDEN to every caller of role 'mechanic', whichever order it
    names, and then leaves the world as it was. For an administrator it
    saves the order with the fields of the body: when the validators or
    the datastore refuse the save, the exception is passed on and the
    orders are as they were; when they accept it and the order is not a
    ready one with an unset notification flag, the answer is the stored
    order and no mail is sent. After any success the stored order is the
    one returned; its status, history, mechanic, delivery time and
    deletion stamp are as before; each field given in the body holds the
    given value and each field left out is unchanged; a given final cost
    is not negative and given notes and work have at most 2000 characters,
    counted as JavaScript counts them. The handler adds and removes no
    order, and its save calls the mail transport only for a ready order
    whose notification flag is unset. *)
Theorem updateOrder_cases (fuel : nat) (mechanics : list Mechanic) (w : World)
    (role : Role) (userId id : ObjectId) (body : OrderChanges) :
  (findOrderById w id = None ->
   updateOrder fuel mechanics w role userId id body
   = Some (w, Fail 404 "ORDER_NOT_FOUND" "Orden de trabajo no encontrada" None)) /\
  (forall o, findOrderById w id = Some o ->
     (role = role_mechanic ->
      updateOrder fuel mechanics w role userId id body
      = Some (w, Fail 403 "FORBIDDEN" "No tienes permiso para editar esta orden"
                   None)) /\
     (role = role_admin ->
      (orderSaveAccepted w (applyOrderChanges body o) = false ->
       exists w' e,
         updateOrder (S fuel) mechanics w role userId id body
         = Some (w', Thrown e) /\
         orders w' = orders w) /\
      (orderSaveAccepted w (applyOrderChanges body o) = true ->
       status o <> listo \/ readyEmailSent o = true ->
       exists w' o',
         updateOrder (S fuel) mechanics w role userId id body
         = Some (w', Ok "Orden actualizada exitosamente" o') /\
         findOrderById w' id = Some o' /\
         lifeCycle o' = lifeCycle o /\
         additionalNotes o' = orElse (b_additionalNotes body) (additionalNotes o) /\
         additionalWork o' = orElse (b_additionalWork body) (additionalWork o) /\
         finalCost o' = orElse (b_finalCost body) (finalCost o) /\
         estimatedDelivery o'
         = orElse (b_estimatedDelivery body) (estimatedDelivery o) /\
         mailCalls w' = mailCalls w))) /\
  (forall w' r,
     updateOrder fuel mechanics w role userId id body = Some (w', r) ->
     map wo_id (orders w') = map wo_id (orders w) /\
     (forall c code msg d, r = Fail c code msg d ->
        w' = w /\
        ((findOrderById w id = None /\
          r = Fail 404 "ORDER_NOT_FOUND" "Orden de trabajo no encontrada" None) \/
         (role = role_mechanic /\ (exists o, findOrderById w id = Some o) /\
          r = Fail 403 "FORBIDDEN" "No tienes permiso para editar esta orden"
                None))) /\
     (forall o, findOrderById w id = Some o ->
        mailCalls w' <> mailCalls w -> status o = listo /\ readyEmailSent o = false) /\
     (forall e, r = Thrown e ->
        role = role_admin /\ exists o, findOrderById w id = Some o) /\
     (forall msg o', r = Ok msg o' ->
        role = role_admin /\ msg = "Orden actualizada exitosamente" /\
        exists o,
          findOrderById w id = Some o /\ findOrderById w' id = Some o' /\
          lifeCycle o' = lifeCycle o /\
          additionalNotes o' = orElse (b_additionalNotes body) (additionalNotes o) /\
          additionalWork o' = orElse (b_additionalWork body) (additionalWork o) /\
          finalCost o' = orElse (b_finalCost body) (finalCost o) /\
          estimatedDelivery o'
          = orElse (b_estimatedDelivery body) (estimatedDelivery o) /\
          (forall c, finalCost o' = Some c -> 0 <= c) /\
          (forall n, additionalNotes o' = Some n -> (js_length n <= 2000)%nat) /\
          (forall n, additionalWork o' = Some n -> (js_length n <= 2000)%nat))).
Proof.
  split; [|split].
  - intro Hfind. unfold updateOrder. rewrite Hfind. reflexivity.
  - intros o Hfind. split.
    + intros ->. unfold updateOrder. rewrite Hfind, forbidden_mechanic. reflexivity.
    + intros ->. split.
      * intro Hacc.
        destruct (saveOrder_refused_any fuel w _ Hacc) as (w' & d' & e & Hs & Ho).
        exists w', e. unfold updateOrder. rewrite Hfind. simpl forbidden. cbv iota.
        rewrite Hs. split; [reflexivity | exact Ho].
      * intros Hacc Hquiet.
        assert (Hq : hookFires (applyOrderChanges body o) = false).
        { rewrite applyOrderChanges_hook. unfold hookFires.
          destruct Hquiet as [Hne | Hsent].
          - destruct (status_eqb (status o) listo) eqn:E; [|reflexivity].
            apply status_eqb_eq in E. contradiction.
          - rewrite Hsent. apply andb_false_r. }
        destruct (saveOrder_accepted fuel w _ Hq Hacc) as (w' & Hs).
        assert (Hrun : updateOrder (S fuel) mechanics w role_admin userId id body
                       = Some (w', Ok "Orden actualizada exitosamente"
                                     (preSaveOrder w (applyOrderChanges body o)))).
        { unfold updateOrder. rewrite Hfind. simpl forbidden. cbv iota.
          rewrite Hs. reflexivity. }
        destruct (updateOrder_spec _ _ _ _ _ _ _ _ _ Hrun) as (_ & _ & _ & _ & Hup).
        destruct (Hup _ _ eq_refl)
          as (_ & _ & o0 & Ho0 & Hst & Hl & Hn & Hw & Hf & Hd & _).
        rewrite Hfind in Ho0. inversion Ho0; subst o0.
        exists w', (preSaveOrder w (applyOrderChanges body o)).
        split; [exact Hrun|]. split; [exact Hst|]. split; [exact Hl|].
        split; [exact Hn|]. split; [exact Hw|]. split; [exact Hf|].
        split; [exact Hd|].
        destruct (saveOrder_mail _ _ _ _ _ _ _ Hs) as (Hmc & _).
        exact (proj1 (Hmc Hq)).
  - intros w' r H. exact (updateOrder_spec _ _ _ _ _ _ _ _ _ H).
Qed.

(** An administrator closes the bill of a delivered order; the mechanic of
    the order asks for the same and gets 403. *)
Lemma updateOrder_cases_witness :
  (exists w' o',
     updateOrder 1
       [{| mech_id := 7%N; mech_userId := 20%N; firstName := "Test";
           lastName1 := "Mechanic"; lastName2 := None; phone := "+56912345678";
           isActive := true; mech_isDeleted := false |}]
       (sampleWorld [sampleOrder entregado (Some 7%N)] [] delivers)
       role_admin 3%N 100%N
       {| b_additionalNotes := Some "año"; b_additionalWork := None;
          b_finalCost := Some 0; b_estimatedDelivery := None |}
     = Some (w', Ok "Orden actualizada exitosamente" o') /\
     findOrderById w' 100%N = Some o' /\
     lifeCycle o' = lifeCycle (sampleOrder entregado (Some 7%N)) /\
     additionalNotes o' = Some "año" /\ finalCost o' = Some 0) /\
  updateOrder 1
    [{| mech_id := 7%N; mech_userId := 20%N; firstName := "Test";
        lastName1 := "Mechanic"; lastName2 := None; phone := "+56912345678";
        isActive := true; mech_isDeleted := false |}]
    (sampleWorld [sampleOrder entregado (Some 7%N)] [] delivers)
    role_mechanic 20%N 100%N
    {| b_additionalNotes := Some "año"; b_additionalWork := None;
       b_finalCost := Some 0; b_estimatedDelivery := None |}
  = Some (sampleWorld [sampleOrder entregado (Some 7%N)] [] delivers,
          Fail 403 "FORBIDDEN" "No tienes permiso para editar esta orden" None).
Proof.
  split.
  - destruct (updateOrder_cases 0
        [{| mech_id := 7%N; mech_userId := 20%N; firstName := "Test";
            lastName1 := "Mechanic"; lastName2 := None; phone := "+56912345678";
            isActive := true; mech_isDeleted := false |}]
        (sampleWorld [sampleOrder entregado (Some 7%N)] [] delivers)
        role_admin 3%N 100%N
        {| b_additionalNotes := Some "año"; b_additionalWork := None;
           b_finalCost := Some 0; b_estimatedDelivery := None |})
      as (_ & Hforward & _).
    destruct (Hforward (sampleOrder entregado (Some 7%N)) eq_refl) as (_ & H).
    destruct (H eq_refl) as (_ & Hok).
    destruct (Hok ltac:(vm_compute; reflexivity) ltac:(left; discriminate))
      as (w' & o' & Hr & Hstored & Hlife & Hn & _ & Hf & _).
    exists w', o'. split; [exact Hr|]. split; [exact Hstored|].
    split; [exact Hlife|]. split; [exact Hn | exact Hf].
  - destruct (updateOrder_cases 1
        [{| mech_id := 7%N; mech_userId := 20%N; firstName := "Test";
            lastName1 := "Mechanic"; lastName2 := None; phone := "+56912345678";
            isActive := true; mech_isDeleted := false |}]
        (sampleWorld [sampleOrder entregado (Some 7%N)] [] delivers)
        role_mechanic 20%N 100%N
        {| b_additionalNotes := Some "año"; b_additionalWork := None;
           b_finalCost := Some 0; b_estimatedDelivery := None |})
      as (_ & Hforward & _).
    destruct (Hforward (sampleOrder entregado (Some 7%N)) eq_refl) as (H & _).
    exact (H eq_refl).
Defined.
